(** * lab-course-finder: URL filter, similarity, search and crawler

    A shallow embedding of the Python sources [util.py], [compare.py],
    [search.py] and [crawler.py], followed by the properties proved about
    them.

    Conventions of the embedding.
    - A Python [str] is the [string] of its UTF-8 bytes, and so is a
      text value of SQLite.  [str.strip()] removes the white space of
      Unicode; [str.lower()] is the ASCII mapping on a text that is
      ASCII and an operation of the class [Unicode] on any other.
    - A call that may raise returns a [result]: [Ok v] for a normal
      return and [Raise e] for an exception that propagates.
    - [urllib.parse] is embedded as CPython 3.11 has it.
    - What the sources delegate to a collaborator (IP-literal and NFKC
      validation inside [urllib.parse], the case mapping of Unicode,
      the text [urljoin] builds, the TF-IDF vectoriser, the FTS engine,
      the HTML parser, the browser, the iteration order of a [set]) is
      an operation of a type class; a theorem holds for every instance,
      under the laws it names.
    - The schema of the store is not among the sources; the tables are
      modelled from the specification. *)

From Stdlib Require Import String Ascii List Bool Arith Lia ZArith.
From Stdlib Require Import ListSet Permutation.
From Stdlib Require Import Floats.SpecFloat.
Import ListNotations.

Open Scope string_scope.
Open Scope bool_scope.

(* ================================================================= *)
(** * Part I: the embedding *)
(* ================================================================= *)

(** ** Exceptions *)

Inductive exn : Type :=
| ValueError
| OperationalError
| TimeoutException
| WebDriverException
| OverflowError.

Inductive result (A : Type) : Type :=
| Ok (a : A)
| Raise (e : exn).

Arguments Ok {A} a.
Arguments Raise {A} e.

Definition bind {A B : Type} (m : result A) (k : A -> result B) : result B :=
  match m with
  | Ok a => k a
  | Raise e => Raise e
  end.

Notation "x <- m ;; k" := (bind m (fun x => k))
  (at level 61, m at next level, right associativity).

(** ** Python [str] operations *)

(** [str.lower()] on a text that holds a character outside ASCII: the
    case mapping of Unicode, which depends on the neighbours of a
    character (the final sigma) and may change the length. *)
Class Unicode : Type := {
  unicode_lower : string -> string
}.

Module Py.

(** [bool(s)] of a string. *)
Definition truthy (s : string) : bool :=
  match s with
  | EmptyString => false
  | String _ _ => true
  end.

(** [c in s] for a one-character [c]. *)
Fixpoint contains (c : ascii) (s : string) : bool :=
  match s with
  | EmptyString => false
  | String d r => Ascii.eqb d c || contains c r
  end.

Fixpoint str_all (p : ascii -> bool) (s : string) : bool :=
  match s with
  | EmptyString => true
  | String d r => p d && str_all p r
  end.

Fixpoint str_map (f : ascii -> ascii) (s : string) : string :=
  match s with
  | EmptyString => EmptyString
  | String d r => String (f d) (str_map f r)
  end.

Definition in_range (lo hi : nat) (c : ascii) : bool :=
  let n := nat_of_ascii c in Nat.leb lo n && Nat.leb n hi.

Definition is_upper (c : ascii) : bool := in_range 65 90 c.
Definition is_lower (c : ascii) : bool := in_range 97 122 c.
Definition is_digit (c : ascii) : bool := in_range 48 57 c.
Definition is_alpha (c : ascii) : bool := is_upper c || is_lower c.
Definition is_alnum (c : ascii) : bool := is_alpha c || is_digit c.
Definition is_ascii (c : ascii) : bool := Nat.ltb (nat_of_ascii c) 128.

(** The white space of [str.strip()] and [str.isspace()], as UTF-8
    has it.  In one byte: TAB..CR, FS..US and space. *)
Definition is_space (c : ascii) : bool :=
  in_range 9 13 c || in_range 28 32 c.

(** In two bytes: U+0085 and U+00A0. *)
Definition is_space2 (a b : ascii) : bool :=
  Nat.eqb (nat_of_ascii a) 194
  && (Nat.eqb (nat_of_ascii b) 133 || Nat.eqb (nat_of_ascii b) 160).

(** In three bytes: U+1680, U+2000..U+200A, U+2028, U+2029, U+202F,
    U+205F and U+3000. *)
Definition is_space3 (a b c : ascii) : bool :=
  let x := nat_of_ascii a in
  let y := nat_of_ascii b in
  let z := nat_of_ascii c in
  (Nat.eqb x 225 && Nat.eqb y 154 && Nat.eqb z 128)
  || (Nat.eqb x 226 && Nat.eqb y 128
      && (in_range 128 138 c || Nat.eqb z 168 || Nat.eqb z 169
          || Nat.eqb z 175))
  || (Nat.eqb x 226 && Nat.eqb y 129 && Nat.eqb z 159)
  || (Nat.eqb x 227 && Nat.eqb y 128 && Nat.eqb z 128).

Definition lower_char (c : ascii) : ascii :=
  if is_upper c then ascii_of_nat (nat_of_ascii c + 32) else c.

(** The ASCII case mapping: [s.lower()] of an ASCII text, and the
    [lower()] of SQLite on any text. *)
Definition lower (s : string) : string := str_map lower_char s.

(** [s.lower()] *)
Definition str_lower `{Unicode} (s : string) : string :=
  if str_all is_ascii s then lower s else unicode_lower s.

(** [s.startswith(p)] *)
Fixpoint startswith (p s : string) : bool :=
  match p, s with
  | EmptyString, _ => true
  | String a p', String b s' => Ascii.eqb a b && startswith p' s'
  | String _ _, EmptyString => false
  end.

Fixpoint rev_acc (s acc : string) : string :=
  match s with
  | EmptyString => acc
  | String c r => rev_acc r (String c acc)
  end.

Definition rev (s : string) : string := rev_acc s EmptyString.

(** [s.endswith(p)] *)
Definition endswith (p s : string) : bool := startswith (rev p) (rev s).

(** [s.lstrip(chars)], the stripped set given as a predicate. *)
Fixpoint lstrip_by (p : ascii -> bool) (s : string) : string :=
  match s with
  | EmptyString => EmptyString
  | String c r => if p c then lstrip_by p r else s
  end.

(** The text left when the characters at its head that one of the three
    tests selects are taken off, one after the other. *)
Fixpoint lstrip_seq (p1 : ascii -> bool) (p2 : ascii -> ascii -> bool)
    (p3 : ascii -> ascii -> ascii -> bool) (s : string) : string :=
  match s with
  | EmptyString => EmptyString
  | String a r =>
      if p1 a then lstrip_seq p1 p2 p3 r
      else
        match r with
        | EmptyString => s
        | String b r2 =>
            if p2 a b then lstrip_seq p1 p2 p3 r2
            else
              match r2 with
              | EmptyString => s
              | String c r3 =>
                  if p3 a b c then lstrip_seq p1 p2 p3 r3 else s
              end
        end
  end.

(** The head of [s] is a character that one of the three tests selects. *)
Definition seq_head (p1 : ascii -> bool) (p2 : ascii -> ascii -> bool)
    (p3 : ascii -> ascii -> ascii -> bool) (s : string) : bool :=
  match s with
  | EmptyString => false
  | String a r =>
      p1 a
      || match r with
         | EmptyString => false
         | String b r2 =>
             p2 a b
             || match r2 with
                | EmptyString => false
                | String c _ => p3 a b c
                end
         end
  end.

(** [s.lstrip()] *)
Definition lstrip (s : string) : string :=
  lstrip_seq is_space is_space2 is_space3 s.

(** [s.rstrip()]: the same from the other end, on the bytes reversed. *)
Definition rstrip (s : string) : string :=
  rev (lstrip_seq is_space (fun a b => is_space2 b a)
                  (fun a b c => is_space3 c b a) (rev s)).

(** [s.strip()] *)
Definition strip (s : string) : string := rstrip (lstrip s).

(** [s.replace(c, "")] for each [c] selected by [p]. *)
Fixpoint remove_by (p : ascii -> bool) (s : string) : string :=
  match s with
  | EmptyString => EmptyString
  | String c r => if p c then remove_by p r else String c (remove_by p r)
  end.

(** [s[n:]] *)
Fixpoint drop (n : nat) (s : string) : string :=
  match n, s with
  | O, _ => s
  | S n', String _ r => drop n' r
  | S _, EmptyString => EmptyString
  end.

(** [s[:-1]] *)
Fixpoint drop_last (s : string) : string :=
  match s with
  | EmptyString => EmptyString
  | String c EmptyString => EmptyString
  | String c r => String c (drop_last r)
  end.

(** [i = s.find(c)] together with the slices [s[:i]] and [s[i+1:]];
    [None] when [c] does not occur ([i = -1]). *)
Fixpoint partition (c : ascii) (s : string) : option (string * string) :=
  match s with
  | EmptyString => None
  | String d r =>
      if Ascii.eqb d c then Some (EmptyString, r)
      else match partition c r with
           | Some (a, b) => Some (String d a, b)
           | None => None
           end
  end.

(** [i = s.rfind(c)] together with [s[:i]] and [s[i+1:]]. *)
Fixpoint rpartition (c : ascii) (s : string) : option (string * string) :=
  match s with
  | EmptyString => None
  | String d r =>
      match rpartition c r with
      | Some (a, b) => Some (String d a, b)
      | None => if Ascii.eqb d c then Some (EmptyString, r) else None
      end
  end.

(** The longest prefix whose characters satisfy [p], and the rest. *)
Fixpoint span (p : ascii -> bool) (s : string) : string * string :=
  match s with
  | EmptyString => (EmptyString, EmptyString)
  | String d r =>
      if p d then let (a, b) := span p r in (String d a, b)
      else (EmptyString, s)
  end.

(** [s.split(c)] *)
Fixpoint split (c : ascii) (s : string) : list string :=
  match s with
  | EmptyString => [EmptyString]
  | String d r =>
      if Ascii.eqb d c then EmptyString :: split c r
      else match split c r with
           | h :: t => String d h :: t
           | [] => [String d EmptyString]
           end
  end.

(** [sep.join(parts)] *)
Fixpoint join (sep : string) (parts : list string) : string :=
  match parts with
  | [] => EmptyString
  | [p] => p
  | p :: rest => p ++ sep ++ join sep rest
  end.

(** [needle in s] for strings. *)
Fixpoint infix (needle s : string) : bool :=
  startswith needle s
  || match s with
     | EmptyString => false
     | String _ r => infix needle r
     end.

(** [x in xs] for a list of strings. *)
Definition mem (x : string) (xs : list string) : bool :=
  existsb (String.eqb x) xs.

End Py.

(** ** [urllib.parse] (CPython 3.11) *)

(** The two validations [urlsplit] delegates to other modules:
    [ipaddress.ip_address] accepting a host as an IPv6 address, and the
    NFKC test of [_checknetloc] on a network location that is not ASCII. *)
Class HostChecks : Type := {
  is_ipv6_address : string -> bool;
  nfkc_netloc_ok : string -> bool
}.

(** The text [urljoin(base, url)] returns when neither text is empty and
    [urlparse] accepts both: the reference resolved against the base. *)
Class UrlJoin : Type := {
  resolved : string -> string -> string
}.

Module Urllib.

Record ParseResult : Type := mkParseResult {
  scheme : string;
  netloc : string;
  path : string;
  params : string;
  query : string;
  fragment : string
}.

Definition uses_netloc : list string :=
  [""; "ftp"; "http"; "gopher"; "nntp"; "telnet";
   "imap"; "wais"; "file"; "mms"; "https"; "shttp";
   "snews"; "prospero"; "rtsp"; "rtspu"; "rsync";
   "svn"; "svn+ssh"; "sftp"; "nfs"; "git"; "git+ssh";
   "ws"; "wss"].

Definition uses_params : list string :=
  [""; "ftp"; "hdl"; "prospero"; "http"; "imap";
   "https"; "shttp"; "rtsp"; "rtspu"; "sip"; "sips";
   "mms"; "sftp"; "tel"].

(** [c in scheme_chars] *)
Definition is_scheme_char (c : ascii) : bool :=
  Py.is_alnum c || Py.contains c "+-.".

(** [c in _WHATWG_C0_CONTROL_OR_SPACE] *)
Definition is_c0_or_space (c : ascii) : bool := Nat.leb (nat_of_ascii c) 32.

(** [c in _UNSAFE_URL_BYTES_TO_REMOVE] *)
Definition is_unsafe (c : ascii) : bool :=
  Py.contains c (String (ascii_of_nat 9)
                (String (ascii_of_nat 13)
                (String (ascii_of_nat 10) EmptyString))).

Definition is_netloc_delim (c : ascii) : bool := Py.contains c "/?#".

(** [_splitnetloc(url, 2)] applied to [url] with its two slashes
    already dropped: the text before the first of [/], [?] and [#]. *)
Definition _splitnetloc (url : string) : string * string :=
  Py.span (fun c => negb (is_netloc_delim c)) url.

Definition is_hex (c : ascii) : bool :=
  Py.is_digit c || Py.in_range 65 70 c || Py.in_range 97 102 c.

(** [re.match(r"\Av[a-fA-F0-9]+\..+\Z", hostname)] *)
Definition ipvfuture_match (hostname : string) : bool :=
  match hostname with
  | String c r =>
      Ascii.eqb c "v"
      && (let (digits, rest) := Py.span is_hex r in
          Py.truthy digits
          && match rest with
             | String d tail =>
                 Ascii.eqb d "." && Py.truthy tail
                 && negb (Py.contains (ascii_of_nat 10) tail)
             | EmptyString => false
             end)
  | EmptyString => false
  end.

(** [_check_bracketed_host]: [true] when it returns, [false] when it
    raises [ValueError]. *)
Definition _check_bracketed_host `{HostChecks} (hostname : string) : bool :=
  if Py.startswith "v" hostname then ipvfuture_match hostname
  else is_ipv6_address hostname.

(** [netloc.rpartition('@')[2]] *)
Definition after_last_at (netloc : string) : string :=
  match Py.rpartition "@" netloc with
  | Some (_, after) => after
  | None => netloc
  end.

(** The body of [_check_bracketed_netloc] below its first line. *)
Definition check_host_and_port `{HostChecks} (hostname_and_port : string) : bool :=
  match Py.partition "[" hostname_and_port with
  | Some (before_bracket, bracketed) =>
      if Py.truthy before_bracket then false
      else
        let (hostname, port) :=
          match Py.partition "]" bracketed with
          | Some (h, p) => (h, p)
          | None => (bracketed, EmptyString)
          end in
        if Py.truthy port && negb (Py.startswith ":" port) then false
        else _check_bracketed_host hostname
  | None =>
      let hostname :=
        match Py.partition ":" hostname_and_port with
        | Some (h, _) => h
        | None => hostname_and_port
        end in
      _check_bracketed_host hostname
  end.

(** [_check_bracketed_netloc], with the same convention. *)
Definition _check_bracketed_netloc `{HostChecks} (netloc : string) : bool :=
  check_host_and_port (after_last_at netloc).

(** [_checknetloc], with the same convention. *)
Definition _checknetloc `{HostChecks} (netloc : string) : bool :=
  if negb (Py.truthy netloc) || Py.str_all Py.is_ascii netloc then true
  else nfkc_netloc_ok netloc.

(** The scheme test of [urlsplit]: the text before the first [:] is a
    scheme when it is not empty, starts with an ASCII letter and holds
    scheme characters only. *)
Definition split_scheme (url : string) : string * string :=
  match Py.partition ":" url with
  | Some (String c pre, rest) =>
      if Py.is_alpha c && Py.str_all is_scheme_char (String c pre)
      then (Py.lower (String c pre), rest)
      else (EmptyString, url)
  | _ => (EmptyString, url)
  end.

(** The two preparatory steps of [urlsplit]: [url.lstrip(...)] and the
    removal of tab, carriage return and newline. *)
Definition clean_url (url : string) : string :=
  Py.remove_by is_unsafe (Py.lstrip_by is_c0_or_space url).

(** The bracket tests of [urlsplit] on a network location: [false] when
    one of them raises [ValueError]. *)
Definition brackets_ok `{HostChecks} (netloc : string) : bool :=
  let has_open := Py.contains "[" netloc in
  let has_close := Py.contains "]" netloc in
  if (has_open && negb has_close) || (has_close && negb has_open) then false
  else if has_open && has_close then _check_bracketed_netloc netloc
  else true.

(** The step [if url[:2] == '//': ...] of [urlsplit]. *)
Definition split_authority `{HostChecks} (url : string) : result (string * string) :=
  if Py.startswith "//" url then
    let (netloc, rest) := _splitnetloc (Py.drop 2 url) in
    if brackets_ok netloc then Ok (netloc, rest) else Raise ValueError
  else Ok (EmptyString, url).

(** [url.split(c, 1)] when [c in url], and [(url, '')] otherwise. *)
Definition split_at (c : ascii) (url : string) : string * string :=
  match Py.partition c url with
  | Some (u, f) => (u, f)
  | None => (url, EmptyString)
  end.

(** [urlsplit(url)]; the five components come back in a [ParseResult]
    whose [params] is empty. *)
Definition urlsplit `{HostChecks} (url : string) : result ParseResult :=
  let (scheme, url) := split_scheme (clean_url url) in
  nu <- split_authority url ;;
  let (url, fragment) := split_at "#" (snd nu) in
  let (url, query) := split_at "?" url in
  if _checknetloc (fst nu)
  then Ok (mkParseResult scheme (fst nu) url EmptyString query fragment)
  else Raise ValueError.

(** [_splitparams(url)] *)
Definition _splitparams (url : string) : string * string :=
  match Py.rpartition "/" url with
  | Some (head, tail) =>
      match Py.partition ";" tail with
      | Some (t1, t2) => (head ++ "/" ++ t1, t2)
      | None => (url, EmptyString)
      end
  | None =>
      match Py.partition ";" url with
      | Some (a, b) => (a, b)
      | None => (Py.drop_last url, url)
      end
  end.

(** The params step of [urlparse]. *)
Definition split_params (scheme url : string) : string * string :=
  if Py.mem scheme uses_params && Py.contains ";" url
  then _splitparams url
  else (url, EmptyString).

(** [urlparse(url)] *)
Definition urlparse `{HostChecks} (url : string) : result ParseResult :=
  r <- urlsplit url ;;
  let (url', params) := split_params (scheme r) (path r) in
  Ok (mkParseResult (scheme r) (netloc r) url' params (query r) (fragment r)).

(** [urlunsplit((scheme, netloc, url, query, fragment))] *)
Definition urlunsplit (scheme netloc url query fragment : string) : string :=
  let url :=
    if Py.truthy netloc
       || (Py.truthy scheme && Py.mem scheme uses_netloc
           && negb (Py.startswith "//" url))
    then
      let url :=
        if Py.truthy url && negb (Py.startswith "/" url)
        then "/" ++ url else url in
      "//" ++ netloc ++ url
    else url in
  let url := if Py.truthy scheme then scheme ++ ":" ++ url else url in
  let url := if Py.truthy query then url ++ "?" ++ query else url in
  if Py.truthy fragment then url ++ "#" ++ fragment else url.

(** [if params: url = "%s;%s" % (url, params)] *)
Definition join_params (url params : string) : string :=
  if Py.truthy params then url ++ ";" ++ params else url.

(** [urlunparse(components)] *)
Definition urlunparse (p : ParseResult) : string :=
  urlunsplit (scheme p) (netloc p) (join_params (path p) (params p))
             (query p) (fragment p).

(** [urldefrag(url)[0]] *)
Definition urldefrag `{HostChecks} (url : string) : result string :=
  if Py.contains "#" url then
    p <- urlparse url ;;
    Ok (urlunparse (mkParseResult (scheme p) (netloc p) (path p)
                                  (params p) (query p) EmptyString))
  else Ok url.

(** [urljoin(base, url)]: an empty text gives the other one back; the
    base is parsed first, then the reference, and either parse may raise
    [ValueError]. *)
Definition urljoin `{HostChecks} `{UrlJoin} (base url : string)
    : result string :=
  if negb (Py.truthy base) then Ok url
  else if negb (Py.truthy url) then Ok base
  else
    _ <- urlparse base ;;
    _ <- urlparse url ;;
    Ok (resolved base url).

End Urllib.

(** ** [util.py] *)

Module Util.
Import Urllib.

(** [is_absolute_url(url)] *)
Definition is_absolute_url `{HostChecks} (url : string) : result bool :=
  if negb (Py.truthy url) then Ok false
  else
    parsed <- urlparse url ;;
    Ok (Py.mem (scheme parsed) ["http"; "https"] && Py.truthy (netloc parsed)).

(** [remove_fragment(url)] *)
Definition remove_fragment `{HostChecks} (url : string) : result string :=
  if negb (Py.truthy url) then Ok url
  else urldefrag url.

(** [_FILENAME_EXT_PATTERN] tried at one position: [after_dot] is the
    text that follows a dot.  The pattern asks for a run of ASCII
    letters and digits that reaches the end of the string, or the
    newline that ends it. *)
Definition ext_match_here (after_dot : string) : option string :=
  let (run, rest) := Py.span Py.is_alnum after_dot in
  if Py.truthy run
     && (String.eqb rest EmptyString
         || String.eqb rest (String (ascii_of_nat 10) EmptyString))
  then Some run else None.

(** [_FILENAME_EXT_PATTERN.search(s)]: group 1 of the leftmost match. *)
Fixpoint ext_search (s : string) : option string :=
  match s with
  | EmptyString => None
  | String d r =>
      if Ascii.eqb d "."
      then match ext_match_here r with
           | Some g => Some g
           | None => ext_search r
           end
      else ext_search r
  end.

(** [_filename_extension(path)] *)
Definition _filename_extension (path : string) : string :=
  if negb (Py.truthy path) then EmptyString
  else
    let segments := filter Py.truthy (Py.split "/" path) in
    match segments with
    | [] => EmptyString
    | _ :: _ =>
        match ext_search (last segments EmptyString) with
        | Some g => "." ++ Py.lower g
        | None => EmptyString
        end
    end.

(** [is_url_ok_to_follow(url, domain)] *)
Definition is_url_ok_to_follow `{HostChecks} `{Unicode} (url domain : string)
    : result bool :=
  absolute <- is_absolute_url url ;;
  if negb absolute then Ok false
  else if Py.contains "@" url || Py.startswith "mailto:" (Py.str_lower url)
  then Ok false
  else
    parsed <- urlparse url ;;
    let netloc := Py.str_lower (netloc parsed) in
    let domain := Py.str_lower domain in
    if negb (String.eqb netloc domain || Py.endswith ("." ++ domain) netloc)
    then Ok false
    else
      let path := if Py.truthy (path parsed) then path parsed else "/" in
      let ext := _filename_extension path in
      if Py.endswith "/" path then Ok true
      else if String.eqb ext EmptyString then Ok true
      else if String.eqb ext ".html" then Ok true
      else Ok false.

(** [normalize_url(url)] *)
Definition normalize_url `{HostChecks} `{Unicode} (url : string)
    : result string :=
  if negb (Py.truthy url) then Ok EmptyString
  else
    url <- remove_fragment url ;;
    parsed <- urlparse url ;;
    Ok (urlunparse (mkParseResult (Py.str_lower (scheme parsed))
                                  (Py.str_lower (netloc parsed))
                                  (path parsed) (params parsed)
                                  (query parsed) (fragment parsed))).

(** [s.startswith((p1, p2, ...))] *)
Definition startswith_any (prefixes : list string) (s : string) : bool :=
  existsb (fun p => Py.startswith p s) prefixes.

(** The [try] block of [convert_if_relative_url]. *)
Definition resolve `{HostChecks} `{UrlJoin} (page_url discovered_url : string)
    : result (option string) :=
  absolute <- is_absolute_url discovered_url ;;
  abs_url <- (if (absolute : bool) then Ok discovered_url
              else urljoin page_url discovered_url) ;;
  parsed <- urlparse abs_url ;;
  Ok (if Py.mem (scheme parsed) ["http"; "https"] && Py.truthy (netloc parsed)
      then Some abs_url else None).

(** [convert_if_relative_url(page_url, discovered_url)] *)
Definition convert_if_relative_url `{HostChecks} `{UrlJoin}
    (page_url discovered_url : string) : option string :=
  if negb (Py.truthy discovered_url) then None
  else
    let discovered_url := Py.strip discovered_url in
    if startswith_any ["javascript:"; "tel:"; "mailto:"] discovered_url
    then None
    else
      match resolve page_url discovered_url with
      | Ok r => r
      | Raise _ => None
      end.

End Util.

(** The strictest instance: no bracketed host is an IPv6 address and no
    non-ASCII network location passes. *)
Definition strict_checks : HostChecks :=
  {| is_ipv6_address := fun _ => false; nfkc_netloc_ok := fun _ => false |}.

(** ** The relational store *)

Module Db.

(** The twelve value columns of a [courses] row, each nullable. *)
Record CourseFields : Type := mkCourseFields {
  title : option string;
  category : option string;
  modality : option string;
  duration : option string;
  price : option string;
  start_date : option string;
  location : option string;
  value_proposal : option string;
  tutoria : option string;
  description : option string;
  raw_html : option string;
  last_crawled_at : option string
}.

(** Modelled from the spec: the schema file [sql/01_schema.sql] is not
    among the sources.  A [courses] row has an integer key [course_id], a
    [url] that is unique in the table, and the twelve value columns. *)
Record Course : Type := mkCourse {
  course_id : nat;
  url : string;
  fields : CourseFields
}.

(** Modelled from the spec: the lookup tables [terms] (term_id, term) and
    [synonyms] (term_id, synonym), the synonym nullable. *)
Record Connection : Type := mkConnection {
  courses : list Course;
  terms : list (nat * string);
  synonyms : list (nat * option string)
}.

Definition with_courses (con : Connection) (cs : list Course) : Connection :=
  mkConnection cs (terms con) (synonyms con).

(** The key SQLite gives a new row: one more than the largest in use. *)
Definition next_course_id (cs : list Course) : nat :=
  S (list_max (map course_id cs)).

(** [INSERT INTO courses (...) VALUES (...) ON CONFLICT(url) DO UPDATE SET
    title=excluded.title, ..., last_crawled_at=excluded.last_crawled_at] *)
Definition insert_on_conflict_update (cs : list Course) (u : string)
    (f : CourseFields) : list Course :=
  if existsb (fun c => String.eqb (url c) u) cs
  then map (fun c => if String.eqb (url c) u
                     then mkCourse (course_id c) (url c) f else c) cs
  else cs ++ [mkCourse (next_course_id cs) u f].

(** *** The [LIKE] operator of SQLite

    SQLite reads pattern and text as C strings, one UTF-8 character at
    a time. *)

(** The text up to its first NUL byte. *)
Fixpoint c_str (s : string) : string :=
  match s with
  | EmptyString => EmptyString
  | String c r =>
      if Nat.eqb (nat_of_ascii c) 0 then EmptyString else String c (c_str r)
  end.

(** [sqlite3Utf8Trans1[lead - 0xc0]]: the payload bits of a lead byte. *)
Definition utf8_trans1 (lead : N) : N :=
  if N.ltb lead 224 then N.land lead 31
  else if N.ltb lead 240 then N.land lead 15
  else if N.ltb lead 248 then N.land lead 7
  else if N.ltb lead 252 then N.land lead 3
  else if N.ltb lead 254 then N.land lead 1
  else 0%N.

(** The last step of [sqlite3Utf8Read]: an over-long form, a surrogate
    and the two values 0xFFFE and 0xFFFF are read as U+FFFD. *)
Definition utf8_replace (c : N) : N :=
  if N.ltb c 128
     || N.eqb (N.land c 4294965248) 55296
     || N.eqb (N.land c 4294967294) 65534
  then 65533%N else c.

(** [(c << 6) + (0x3f & b)] on an unsigned 32-bit integer. *)
Definition utf8_push (c b : N) : N :=
  ((N.shiftl c 6 + N.land 63 b) mod 4294967296)%N.

(** The characters of a text as [Utf8Read] yields them, one call after
    the other: a byte below 0xC0 is a character; a byte from 0xC0 on
    takes in the continuation bytes that follow it.  [pending] is the
    character being assembled. *)
Fixpoint utf8_chars (pending : option N) (s : string) : list N :=
  match s with
  | EmptyString =>
      match pending with
      | Some c => [utf8_replace c]
      | None => []
      end
  | String b r =>
      let n := N_of_ascii b in
      let start :=
        if N.ltb n 192 then n :: utf8_chars None r
        else utf8_chars (Some (utf8_trans1 n)) r in
      match pending with
      | Some c =>
          if N.eqb (N.land n 192) 128
          then utf8_chars (Some (utf8_push c n)) r
          else utf8_replace c :: start
      | None => start
      end
  end.

(** [sqlite3Tolower] *)
Definition sql_tolower (c : N) : N :=
  if N.leb 65 c && N.leb c 90 then (c + 32)%N else c.

(** A pattern character that is not [%] against a character of the
    text: equal, or both ASCII and equal without regard to case, or the
    pattern character is [_]. *)
Definition like_char (c c2 : N) : bool :=
  N.eqb c c2
  || (N.eqb (sql_tolower c) (sql_tolower c2) && N.ltb c 128 && N.ltb c2 128)
  || N.eqb c 95.

(** [patternCompare] for [LIKE]: [%] stands for any run of characters. *)
Fixpoint like_chars (pattern : list N) : list N -> bool :=
  match pattern with
  | [] => fun s => match s with [] => true | _ :: _ => false end
  | c :: p =>
      if N.eqb c 37
      then
        fix star (s : list N) : bool :=
          like_chars p s || match s with
                            | [] => false
                            | _ :: r => star r
                            end
      else
        fun s => match s with
                 | [] => false
                 | c2 :: r => like_char c c2 && like_chars p r
                 end
  end.

(** [s LIKE pattern] for two text values. *)
Definition like (pattern s : string) : bool :=
  like_chars (utf8_chars None (c_str pattern)) (utf8_chars None (c_str s)).

(** [SQLITE_MAX_LIKE_PATTERN_LENGTH]: a longer pattern, in bytes, makes
    the operator fail with "LIKE or GLOB pattern too complex". *)
Definition max_like_pattern_length : N := 50000%N.

(** [X LIKE pattern] on a nullable column: NULL matches nothing. *)
Definition like_nullable (pattern : string) (x : option string) : bool :=
  match x with
  | Some s => like pattern s
  | None => false
  end.

(** The row of smallest [course_id] in a list ([ORDER BY course_id LIMIT 1]). *)
Fixpoint min_by_id (cs : list Course) : option Course :=
  match cs with
  | [] => None
  | c :: rest =>
      match min_by_id rest with
      | Some m => if Nat.ltb (course_id m) (course_id c) then Some m else Some c
      | None => Some c
      end
  end.

End Db.

(** ** [compare.py] *)

(** The vectoriser and the cosine of [sklearn]: [None] when
    [fit_transform] raises [ValueError], otherwise the float that
    [cosine_similarity(X[0], X[1])[0, 0]] holds. *)
Class Tfidf : Type := {
  fit_transform_cosine : string -> string -> option spec_float
}.

Module Compare.
Import Db.

Definition float_0 : spec_float := S754_zero false.
Definition float_1 : spec_float := S754_finite false 4503599627370496 (-52).

(** [_tfidf_cosine(texts)] for [texts = [t0, t1]] *)
Definition _tfidf_cosine `{Tfidf} (t0 t1 : string) : spec_float :=
  let a := Py.strip t0 in
  let b := Py.strip t1 in
  if negb (Py.truthy a) && negb (Py.truthy b) then float_0
  else if negb (Py.truthy a) || negb (Py.truthy b) then float_0
  else
    match fit_transform_cosine a b with
    | None => float_0
    | Some sim =>
        let sim := if SFltb sim float_0 then float_0 else sim in
        let sim := if SFltb float_1 sim then float_1 else sim in
        sim
    end.

(** [compare_texts(a, b)] *)
Definition compare_texts `{Tfidf} (a b : string) : spec_float :=
  _tfidf_cosine a b.

(** [t for t in (...) if t]: the columns that are neither NULL nor empty. *)
Definition non_empty (cols : list (option string)) : list string :=
  flat_map (fun t => match t with
                     | Some s => if Py.truthy s then [s] else []
                     | None => []
                     end) cols.

(** [get_text(cid)] inside [compare_course_ids] *)
Definition get_text (con : Connection) (cid : nat) : string :=
  match find (fun c => Nat.eqb (course_id c) cid) (courses con) with
  | None => EmptyString
  | Some c =>
      let f := fields c in
      Py.join " " (non_empty [title f; description f; value_proposal f; tutoria f])
  end.

(** [compare_course_ids(con, id_a, id_b)] *)
Definition compare_course_ids `{Tfidf} (con : Connection) (id_a id_b : nat) : spec_float :=
  compare_texts (get_text con id_a) (get_text con id_b).

(** [SELECT course_id FROM courses WHERE url=?], [fetchone()] *)
Definition select_id_by_url (con : Connection) (u : string) : option nat :=
  option_map course_id (find (fun c => String.eqb (url c) u) (courses con)).

(** [compare_course_urls(con, url_a, url_b)] *)
Definition compare_course_urls `{Tfidf} (con : Connection) (url_a url_b : string) : spec_float :=
  match select_id_by_url con url_a, select_id_by_url con url_b with
  | Some ra, Some rb => compare_course_ids con ra rb
  | _, _ => float_0
  end.

(** [SELECT course_id FROM courses WHERE title LIKE ? ORDER BY course_id
    LIMIT 1] with the parameter ["%" + contains + "%"], [fetchone()].
    The operator is evaluated on the rows of the table, and raises on
    the first one when the pattern is too long. *)
Definition select_id_by_title (con : Connection) (contains : string)
    : result (option nat) :=
  let pattern := "%" ++ contains ++ "%" in
  match courses con with
  | [] => Ok None
  | _ :: _ =>
      if N.ltb max_like_pattern_length (N.of_nat (String.length pattern))
      then Raise OperationalError
      else
        Ok (option_map course_id
              (min_by_id
                 (filter (fun c => like_nullable pattern (title (fields c)))
                         (courses con))))
  end.

(** [compare_course_titles_contains(con, a_contains, b_contains)] *)
Definition compare_course_titles_contains `{Tfidf} (con : Connection)
    (a_contains b_contains : string) : result spec_float :=
  ra <- select_id_by_title con a_contains ;;
  rb <- select_id_by_title con b_contains ;;
  Ok match ra, rb with
     | Some ra, Some rb => compare_course_ids con ra rb
     | _, _ => float_0
     end.

End Compare.

(** ** [search.py] *)

(** The order in which Python iterates over a [set] of strings, given the
    elements in the order they were inserted. *)
Class SetOrder : Type := {
  iter_order : list string -> list string
}.

(** The third column of a search row: [bm25(courses_fts)] on the ranked
    query, [f.rowid] on the fallback. *)
Inductive score : Type :=
| Bm25 (x : spec_float)
| RowId (n : nat).

Definition hit : Type := (string * option string * score)%type.

(** The full-text engine behind [courses_fts]: the rows of the ranked and
    of the unranked query for a match expression and a limit, or the
    exception [con.execute] raises. *)
Class Fts : Type := {
  select_ranked : Db.Connection -> string -> Z -> result (list hit);
  select_unranked : Db.Connection -> string -> Z -> result (list hit)
}.

Module Search.
Import Db.

(** The statements a call hands to [con.execute]. *)
Inductive statement : Type :=
| SelectTermId (t : string)
| SelectSynonyms (term_id : nat)
| SelectRanked (match_expr : string) (top : Z)
| SelectUnranked (match_expr : string) (top : Z).

Definition add_synonym `{Unicode} (acc : set string)
    (row : nat * option string) : set string :=
  match snd row with
  | Some syn =>
      if Py.truthy syn
      then set_add string_dec (Py.str_lower (Py.strip syn)) acc
      else acc
  | None => acc
  end.

(** [get_synonyms(con, term)], with the statements it executed.  The
    parameter is the term as Python puts it in lower case; the column is
    put in lower case by SQLite, which changes ASCII letters only. *)
Definition get_synonyms `{Unicode} (con : Connection) (term : string)
    : set string * list statement :=
  let t := Py.str_lower (Py.strip term) in
  match find (fun r => String.eqb (Py.lower (snd r)) t) (terms con) with
  | None => (empty_set string, [SelectTermId t])
  | Some (term_id, _) =>
      (fold_left add_synonym
                 (filter (fun r => Nat.eqb (fst r) term_id) (synonyms con))
                 (empty_set string),
       [SelectTermId t; SelectSynonyms term_id])
  end.

Definition dquote : string := String (ascii_of_nat 34) EmptyString.

(** [f'"{p}"' if " " in p else p] *)
Definition quote_part (p : string) : string :=
  if Py.contains " " p then dquote ++ p ++ dquote else p.

(** [{t.lower()} | {s.lower() for s in syns}] *)
Definition parts_of `{Unicode} `{SetOrder} (t : string) (syns : set string)
    : set string :=
  set_union string_dec
    (set_add string_dec (Py.str_lower t) (empty_set string))
    (fold_left (fun acc s => set_add string_dec (Py.str_lower s) acc)
               (iter_order syns) (empty_set string)).

(** ["(" + " OR ".join(parts_q) + ")"] *)
Definition group_of `{SetOrder} (parts : set string) : string :=
  "(" ++ Py.join " OR " (map quote_part (iter_order parts)) ++ ")".

(** One turn of the loop of [build_fts_query]. *)
Definition build_step `{Unicode} `{SetOrder} (con : Connection)
    (acc : list string * list statement) (t : string)
    : list string * list statement :=
  let (groups, log) := acc in
  let t := Py.strip t in
  if negb (Py.truthy t) then (groups, log)
  else
    let (syns, executed) := get_synonyms con t in
    ((groups ++ [group_of (parts_of t syns)])%list, (log ++ executed)%list).

(** [build_fts_query(terms, con)], with the statements it executed. *)
Definition build_fts_query `{Unicode} `{SetOrder} (terms : list string)
    (con : Connection)
    : string * list statement :=
  let (groups, log) := fold_left (build_step con) terms ([], []) in
  (match groups with
   | [] => EmptyString
   | _ :: _ => Py.join " OR " groups
   end, log).

(** [search(con, interests, top)], with the statements it executed. *)
Definition search `{Unicode} `{SetOrder} `{Fts} (con : Connection)
    (interests : list string) (top : Z)
    : result (list hit) * list statement :=
  let (match_expr, log) := build_fts_query interests con in
  if negb (Py.truthy match_expr) then (Ok [], log)
  else
    match select_ranked con match_expr top with
    | Raise OperationalError =>
        (select_unranked con match_expr top,
         (log ++ [SelectRanked match_expr top; SelectUnranked match_expr top])%list)
    | r => (r, (log ++ [SelectRanked match_expr top])%list)
    end.

End Search.

(** ** [crawler.py] *)

(** What the selectors of the crawler read off one catalog card: the text
    of its [div.card-type], the [href] of the first anchor in its
    [.card-body], and the [href] of its first anchor. *)
Record Card : Type := mkCard {
  card_type : option string;
  body_href : option string;
  first_href : option string
}.

(** The HTML parser, as functions of a page source. *)
Class Dom : Type := {
  select_cards : string -> list Card;
  select_first_card_title : string -> option string;
  select_one_text : string -> string -> option string;
  sidebar_text : string -> string -> option string;
  section_text : string -> string -> option string
}.

(** The browser session and the clock, as functions of a state [W] of the
    world.  A selenium call returns the state it leaves and whether it
    completed; [false] stands for an exception, which the caller names
    where it lets it pass.  Reading [driver.page_source] returns the
    text or raises.  [sleep d] is [time.sleep(d)] for a length the user
    gave: it returns the exception it raises, if any (a negative length,
    a NaN, a length too large).  [pause] is [time.sleep(0.2)]. *)
Class Browser (W : Type) : Type := {
  driver_get : string -> W -> W * bool;
  wait_results_loaded : W -> W * bool;
  sleep : spec_float -> W -> W * option exn;
  pause : W -> W;
  page_source : W -> result string;
  locate_page_link : nat -> W -> W * bool;
  click_page_link : nat -> W -> W * bool;
  wait_selected : nat -> W -> W * bool;
  wait_title_changed : string -> W -> W * bool;
  utcnow : W -> string
}.

Module Crawler.
Import Db.

(** The [row] dictionary of [upsert_course]; an absent key reads as NULL. *)
Record Row : Type := mkRow {
  row_url : string;
  row_fields : CourseFields
}.

(** [upsert_course(con, row)] *)
Definition upsert_course (con : Connection) (row : Row) : Connection :=
  with_courses con
    (insert_on_conflict_update (courses con) (row_url row) (row_fields row)).

(** [_first_card_title_text(driver)] *)
Definition _first_card_title_text `{Dom} {W} `{Browser W} (w : W)
    : result string :=
  html <- page_source w ;;
  Ok match select_first_card_title html with
     | Some t => t
     | None => EmptyString
     end.

(** [get_cards_on_page(driver)] *)
Definition get_cards_on_page `{Dom} {W} `{Browser W} (w : W)
    : result (list Card) :=
  html <- page_source w ;;
  Ok (select_cards html).

(** [is_course_card(card_el)] *)
Definition is_course_card `{Unicode} (card : Card) : bool :=
  match card_type card with
  | None => false
  | Some txt => Py.infix "curso" (Py.str_lower txt)
  end.

(** [extract_course_link_from_card(card_el, base_url)] *)
Definition extract_course_link_from_card `{HostChecks} `{UrlJoin}
    (card : Card) (base_url : string) : result (option string) :=
  let a := match body_href card with
           | Some h => Some h
           | None => first_href card
           end in
  match a with
  | None => Ok None
  | Some h =>
      let href := Py.strip h in
      if negb (Py.truthy href) then Ok None
      else
        link <- Urllib.urljoin base_url href ;;
        Ok (Some link)
  end.

Inductive event : Type :=
| PageLine (i found_here total : nat)
| TotalLinks (n : nat)
| Skipped (link : string)
| Failed (link : string)
| Saved (visited total : nat)
| Finished (visited : nat).

(** The [try] block of the pagination loop: the state it leaves and the
    fingerprint to carry on with.  A step that raises ends the block. *)
Definition click_and_wait `{Dom} {W} `{Browser W} (i : nat) (delay : spec_float)
    (last_first_title : string) (w : W) : W * string :=
  let (w1, located) := locate_page_link i w in
  if negb located then (w1, last_first_title)
  else
    let (w2, clicked) := click_page_link i w1 in
    if negb clicked then (w2, last_first_title)
    else
      let (w3, selected) := wait_selected i w2 in
      if negb selected then (w3, last_first_title)
      else
        let (w4, changed) := wait_title_changed last_first_title w3 in
        if negb changed then (w4, last_first_title)
        else
          match sleep delay w4 with
          | (w5, Some _) => (w5, last_first_title)
          | (w5, None) =>
              match _first_card_title_text w5 with
              | Ok t => (w5, t)
              | Raise _ => (w5, last_first_title)
              end
          end.

(** One turn of the inner loop over the cards of a page. *)
Definition collect_card `{HostChecks} `{UrlJoin} `{Unicode}
    (start_url : string) (acc : set string * nat) (card : Card)
    : result (set string * nat) :=
  let (links, found_here) := acc in
  if negb (is_course_card card) then Ok acc
  else
    link <- extract_course_link_from_card card start_url ;;
    Ok match link with
       | Some link =>
           if Py.truthy link
           then (set_add string_dec link links, S found_here)
           else acc
       | None => acc
       end.

(** The inner loop: it ends at the first card whose link makes
    [urljoin] raise. *)
Fixpoint collect_cards `{HostChecks} `{UrlJoin} `{Unicode}
    (start_url : string) (cards : list Card) (acc : set string * nat)
    : result (set string * nat) :=
  match cards with
  | [] => Ok acc
  | card :: rest =>
      acc1 <- collect_card start_url acc card ;;
      collect_cards start_url rest acc1
  end.

(** What the walker holds between two turns: the browser, the links, the
    fingerprint of the page and the lines printed. *)
Definition walk : Type -> Type :=
  fun W => (W * set string * string * list event)%type.

(** One turn of the loop [for i in range(1, pages + 1)]: the state it
    leaves, or the browser, the lines printed and the exception when
    reading the page or joining a link raises. *)
Definition page_step `{HostChecks} `{UrlJoin} `{Unicode} `{Dom} {W}
    `{Browser W} (start_url : string) (delay : spec_float) (st : walk W)
    (i : nat) : walk W + W * list event * exn :=
  let '(w, links, last_first_title, out) := st in
  let (w1, last1) := click_and_wait i delay last_first_title w in
  match get_cards_on_page w1 with
  | Raise e => inr (w1, out, e)
  | Ok cards =>
      match collect_cards start_url cards (links, 0) with
      | Raise e => inr (w1, out, e)
      | Ok (links1, found_here) =>
          inl (pause w1, links1, last1,
               (out ++ [PageLine i found_here (List.length links1)])%list)
      end
  end.

(** The loop over the page indices. *)
Fixpoint page_loop `{HostChecks} `{UrlJoin} `{Unicode} `{Dom} {W}
    `{Browser W} (start_url : string) (delay : spec_float)
    (idxs : list nat) (st : walk W) : walk W + W * list event * exn :=
  match idxs with
  | [] => inl st
  | i :: rest =>
      match page_step start_url delay st i with
      | inl st1 => page_loop start_url delay rest st1
      | inr stop => inr stop
      end
  end.

(** [iterate_pages_and_collect_links(driver, start_url, pages, delay)]:
    the browser and the lines printed when it ends, and the links or
    the exception that ended it. *)
Definition iterate_pages_and_collect_links `{HostChecks} `{UrlJoin}
    `{Unicode} `{Dom} {W} `{Browser W} (w : W) (start_url : string)
    (pages : Z) (delay : spec_float)
    : W * list event * result (set string) :=
  let (w1, loaded) := driver_get start_url w in
  if negb loaded then (w1, [], Raise WebDriverException)
  else
    let (w2, present) := wait_results_loaded w1 in
    if negb present then (w2, [], Raise TimeoutException)
    else
      match sleep delay w2 with
      | (w3, Some e) => (w3, [], Raise e)
      | (w3, None) =>
          match _first_card_title_text w3 with
          | Raise e => (w3, [], Raise e)
          | Ok title =>
              match page_loop start_url delay (seq 1 (Z.to_nat pages))
                              (w3, empty_set string, title, []) with
              | inl (w4, links, _, out) => (w4, out, Ok links)
              | inr (w4, out, e) => (w4, out, Raise e)
              end
          end
      end.

(** [parse_course_detail(html, url)], the keys [raw_html] and
    [last_crawled_at] still absent. *)
Definition parse_course_detail `{Dom} (html url : string) : Row :=
  let title_text :=
    match select_one_text "h2.font-weight-bold.mb-md-0" html with
    | Some t => Some t
    | None =>
        match select_one_text "h1.font-weight-bold" html with
        | Some t => Some t
        | None => select_one_text "h1, h2" html
        end
    end in
  let title := match title_text with
               | Some t => t
               | None => EmptyString
               end in
  mkRow url
    (mkCourseFields
       (Some title)
       (sidebar_text "NIVEL" html)
       None
       (sidebar_text "DURACIÓN" html)
       (select_one_text "span.course-price" html)
       (sidebar_text "INICIO" html)
       None
       (section_text ".course-wrapper-seccion.course-wrapper-content--proposal" html)
       (sidebar_text "TUTORÍA" html)
       (section_text ".course-wrapper-seccion.course-wrapper-content--presentation" html)
       None
       None).

(** [not data["title"]] *)
Definition title_missing (row : Row) : bool :=
  match title (row_fields row) with
  | Some t => negb (Py.truthy t)
  | None => true
  end.

(** The assignments to [data["raw_html"]] and [data["last_crawled_at"]]. *)
Definition stamp (row : Row) (raw : option string) (now : string) : Row :=
  let f := row_fields row in
  mkRow (row_url row)
    (mkCourseFields (title f) (category f) (modality f) (duration f)
       (price f) (start_date f) (location f) (value_proposal f)
       (tutoria f) (description f) raw (Some (now ++ "Z"))).

Record Args : Type := mkArgs {
  start : string;
  pages : Z;
  delay : spec_float;
  save_html : bool
}.

(** The body of the loop [for link in sorted(course_links)] of [crawl].
    An exception of [driver.get], of the sleep or of the page source is
    caught and gives the error line. *)
Definition visit_link `{Dom} {W} `{Browser W} (args : Args) (total : nat)
    (st : Connection * W * nat * list event) (link : string)
    : Connection * W * nat * list event :=
  let '(con, w, visited, out) := st in
  let (w1, loaded) := driver_get link w in
  if negb loaded then (con, w1, visited, (out ++ [Failed link])%list)
  else
    match sleep (delay args) w1 with
    | (w2, Some _) => (con, w2, visited, (out ++ [Failed link])%list)
    | (w2, None) =>
        match page_source w2 with
        | Raise _ => (con, w2, visited, (out ++ [Failed link])%list)
        | Ok detail_html =>
            let data := parse_course_detail detail_html link in
            let data := stamp data (if save_html args then Some detail_html
                                    else None) (utcnow w2) in
            if title_missing data
            then (con, w2, visited, (out ++ [Skipped link])%list)
            else
              let con1 := upsert_course con data in
              let visited1 := S visited in
              let out1 := if Nat.eqb (visited1 mod 10) 0
                          then (out ++ [Saved visited1 total])%list
                          else out in
              (con1, pause w2, visited1, out1)
        end
    end.

Fixpoint insert_sorted (x : string) (l : list string) : list string :=
  match l with
  | [] => [x]
  | y :: r => if String.leb x y then x :: l else y :: insert_sorted x r
  end.

(** [sorted(links)] *)
Definition sorted (l : list string) : list string :=
  fold_right insert_sorted [] l.

(** What a run of [crawl] leaves behind: the store, the browser, the
    lines printed, and the exception that ended it, if any. *)
Record Outcome (W : Type) : Type := mkOutcome {
  final_con : Connection;
  final_world : W;
  output : list event;
  raised : option exn
}.

Arguments mkOutcome {W} _ _ _ _.
Arguments final_con {W} _.
Arguments final_world {W} _.
Arguments output {W} _.
Arguments raised {W} _.

(** [crawl(args)] on an open connection and browser. *)
Definition crawl `{HostChecks} `{UrlJoin} `{Unicode} `{Dom} {W} `{Browser W}
    (args : Args) (con : Connection) (w : W) : Outcome W :=
  match iterate_pages_and_collect_links w (start args) (pages args)
                                        (delay args) with
  | (w1, out, Raise e) => mkOutcome con w1 out (Some e)
  | (w1, out, Ok course_links) =>
      let total := List.length course_links in
      let '(con1, w2, visited, out1) :=
        fold_left (visit_link args total) (sorted course_links)
                  (con, w1, 0, (out ++ [TotalLinks total])%list) in
      mkOutcome con1 w2 (out1 ++ [Finished visited])%list None
  end.

End Crawler.

(** ** Tactics *)

(** Settle a fact about one character by running through the 256 of them. *)
Ltac by_cases_on_char c :=
  destruct c as [[] [] [] [] [] [] [] []]; vm_compute; intuition congruence.

(** Name the synonym row that puts a part into a set. *)
Ltac found n syn := right; exists n, syn; cbn [In]; auto.

(** ** Vocabulary of the statements about URLs *)

Module UrlSpec.
Import Urllib.

Definition is_safe (c : ascii) : bool := negb (is_unsafe c).

(** A scheme as [urlsplit] returns it: empty, or an ASCII letter followed
    by scheme characters, none of them upper case. *)
Definition scheme_ok (s : string) : bool :=
  match s with
  | EmptyString => true
  | String c _ =>
      Py.is_alpha c && Py.str_all is_scheme_char s && String.eqb (Py.lower s) s
  end.

Definition netloc_char (c : ascii) : bool :=
  negb (is_netloc_delim c) && is_safe c.

Definition path_char (c : ascii) : bool :=
  is_safe c && negb (Ascii.eqb c "?") && negb (Ascii.eqb c "#").

Definition query_char (c : ascii) : bool :=
  is_safe c && negb (Ascii.eqb c "#").

(** A network location that is present and that [urlsplit] accepts. *)
Definition netloc_ok `{HostChecks} (n : string) : bool :=
  Py.truthy n && Py.str_all netloc_char n && brackets_ok n && _checknetloc n.

Definition pair_eqb (x y : string * string) : bool :=
  String.eqb (fst x) (fst y) && String.eqb (snd x) (snd y).

(** A path and its params as [urlparse] returns them behind a network
    location: the path is empty or starts with a slash, and joining the
    two and splitting again gives them back. *)
Definition path_ok (s pa pr : string) : bool :=
  (Py.startswith "/" pa || (negb (Py.truthy pa) && negb (Py.truthy pr)))
  && Py.str_all path_char pa && Py.str_all path_char pr
  && pair_eqb (split_params s (join_params pa pr)) (pa, pr).

(** The six components of a URL with a network location and no fragment,
    as [urlparse] returns them. *)
Definition well_formed `{HostChecks} (p : ParseResult) : bool :=
  scheme_ok (scheme p) && netloc_ok (netloc p)
  && path_ok (scheme p) (path p) (params p)
  && Py.str_all query_char (query p)
  && negb (Py.truthy (fragment p)).

(** The pieces [urlunsplit] puts around the network location and path. *)
Definition scheme_prefix (s : string) : string :=
  if Py.truthy s then s ++ ":" else "".

Definition query_suffix (q : string) : string :=
  if Py.truthy q then "?" ++ q else "".

(** The first character of [s], if there is one, satisfies [P]. *)
Definition head_in (P : ascii -> bool) (s : string) : Prop :=
  match s with
  | EmptyString => True
  | String d _ => P d = true
  end.

Definition without_fragment (p : ParseResult) : ParseResult :=
  mkParseResult (scheme p) (netloc p) (path p) (params p) (query p) EmptyString.

(** The components [normalize_url] hands to [urlunparse] for a URL that
    parses as [p] and whose network location is ASCII: scheme and
    network location in lower case, no fragment, the rest as it is. *)
Definition lowered (p : ParseResult) : ParseResult :=
  mkParseResult (Py.lower (scheme p)) (Py.lower (netloc p)) (path p)
                (params p) (query p) EmptyString.

(** What the proofs use of the two library validations: an IPv6 literal
    does not start with the letter V, and changing the case of ASCII
    letters turns no accepted host or network location into a rejected
    one. *)
Class HostChecksLaws `{HostChecks} : Prop := {
  ipv6_lower : forall h, is_ipv6_address h = true ->
                         is_ipv6_address (Py.lower h) = true;
  ipv6_not_v : forall h, is_ipv6_address h = true ->
                         Py.startswith "v" (Py.lower h) = false;
  nfkc_lower : forall n, nfkc_netloc_ok n = true ->
                         nfkc_netloc_ok (Py.lower n) = true
}.

(** An instance that accepts two IPv6 literals, in either case, and every
    non-ASCII network location. *)
Definition sample_checks : HostChecks :=
  {| is_ipv6_address := fun h => Py.mem (Py.lower h) ["::1"; "2001:db8::a"];
     nfkc_netloc_ok := fun _ => true |}.

(** A network location that is a host name and nothing else: no user
    information, no port, no brackets. *)
Definition is_host (n : string) : bool :=
  negb (Py.contains "@" n) && negb (Py.contains ":" n)
  && negb (Py.contains "[" n).

(** The network location [n] lies in the domain [d]: in lower case it
    is [d] in lower case, or ends with a dot followed by it. *)
Definition in_domain `{Unicode} (n d : string) : bool :=
  String.eqb (Py.str_lower n) (Py.str_lower d)
  || Py.endswith ("." ++ Py.str_lower d) (Py.str_lower n).

(** The file name of a path: the text after its last slash. *)
Definition file_name (path : string) : string :=
  match Py.rpartition "/" path with
  | Some (_, name) => name
  | None => path
  end.

(** The extension of a file name: the text after its last dot, when that
    is a run of one or more ASCII letters and digits. *)
Definition extension (name : string) : option string :=
  match Py.rpartition "." name with
  | Some (_, g) =>
      if Py.truthy g && Py.str_all Py.is_alnum g then Some g else None
  | None => None
  end.

(** The path of a page: it is empty or ends in a slash, or its file name
    has no extension, or the extension is [html] in any case. *)
Definition page_path (path : string) : bool :=
  negb (Py.truthy path) || Py.endswith "/" path
  || match extension (file_name path) with
     | None => true
     | Some g => String.eqb (Py.lower g) "html"
     end.

(** What the proofs use of the case mapping of Unicode: it maps no text
    that is not empty to the empty text, and it maps an ASCII character
    at the head of a text to its ASCII lower case. *)
Class UnicodeLaws `{Unicode} : Prop := {
  unicode_lower_truthy :
    forall s, Py.truthy (unicode_lower s) = Py.truthy s;
  unicode_lower_head :
    forall c s, Py.is_ascii c = true ->
                exists r, unicode_lower (String c s)
                          = String (Py.lower_char c) r
}.

(** The mapping on the letters of ASCII and of the Latin-1 supplement
    (U+00C0..U+00DE but U+00D7, in UTF-8 the byte 0xC3 and a byte from
    0x80 to 0x9E but 0x97), which is [str.lower()] on a text that holds
    no character beyond U+00FF. *)
Fixpoint latin_lower (s : string) : string :=
  match s with
  | EmptyString => EmptyString
  | String a r =>
      match r with
      | EmptyString => String (Py.lower_char a) EmptyString
      | String b r2 =>
          if Nat.eqb (nat_of_ascii a) 195 && Py.in_range 128 158 b
             && negb (Nat.eqb (nat_of_ascii b) 151)
          then String a (String (ascii_of_nat (nat_of_ascii b + 32))
                                (latin_lower r2))
          else String (Py.lower_char a) (latin_lower r)
      end
  end.

Definition latin_unicode : Unicode := {| unicode_lower := latin_lower |}.

(** A joiner that returns the reference, as [urljoin] does for a
    reference with a scheme of its own that is not the scheme of the
    base. *)
Definition keep_reference : UrlJoin := {| resolved := fun _ url => url |}.

(** A joiner that puts the reference behind the base, as [urljoin] does
    for a file name against a base that ends in a slash. *)
Definition append_reference : UrlJoin :=
  {| resolved := fun base url => base ++ url |}.

End UrlSpec.

(** ** Vocabulary of the statements about scores and selectors *)

Module CompareSpec.
Import Db Compare.

(** A float lies in the interval from 0 to 1, in the order of IEEE 754. *)
Definition in_unit_interval (x : spec_float) : Prop :=
  SFleb float_0 x = true /\ SFleb x float_1 = true.

(** The library never hands back a NaN as a cosine. *)
Definition cosine_is_a_number `{Tfidf} : Prop :=
  forall a b, fit_transform_cosine a b <> Some S754_nan.

(** A pattern byte that [LIKE] reads as part of a character to find:
    not a wildcard and not the NUL that ends the pattern. *)
Definition is_plain (c : ascii) : bool :=
  negb (Ascii.eqb c "%") && negb (Ascii.eqb c "_")
  && negb (Nat.eqb (nat_of_ascii c) 0).

(** A character of a pattern that is neither of the two wildcards. *)
Definition plain_char (c : N) : bool :=
  negb (N.eqb c 37) && negb (N.eqb c 95).

(** Two characters are the same, the case of ASCII letters apart. *)
Definition same_char (c c2 : N) : bool :=
  N.eqb c c2
  || (N.eqb (sql_tolower c) (sql_tolower c2) && N.ltb c 128 && N.ltb c2 128).

Fixpoint chars_prefix (p s : list N) : bool :=
  match p, s with
  | [], _ => true
  | c :: p', c2 :: s' => same_char c c2 && chars_prefix p' s'
  | _ :: _, [] => false
  end.

Fixpoint chars_infix (p s : list N) : bool :=
  chars_prefix p s
  || match s with
     | [] => false
     | _ :: r => chars_infix p r
     end.

(** [needle] occurs in [s], the case of ASCII letters apart.  The two
    texts are read as SQLite reads them: up to the first NUL, one UTF-8
    character at a time. *)
Definition contains_ci (needle s : string) : bool :=
  chars_infix (utf8_chars None (c_str needle)) (utf8_chars None (c_str s)).

(** The pattern made from [x] is short enough for [LIKE]. *)
Definition pattern_fits (x : string) : Prop :=
  N.leb (N.of_nat (String.length ("%" ++ x ++ "%"))) max_like_pattern_length
  = true.

Definition title_contains (needle : string) (c : Course) : bool :=
  match title (fields c) with
  | Some t => contains_ci needle t
  | None => false
  end.

(** A library that scores every pair of non-empty texts 1. *)
Definition constant_tfidf : Tfidf :=
  {| fit_transform_cosine := fun _ _ => Some float_1 |}.

Definition sample_fields (t d : string) : CourseFields :=
  mkCourseFields (Some t) None None None None None None None None (Some d)
                 None None.

(** A store with two courses, one term and its synonym. *)
Definition sample_con : Connection :=
  mkConnection
    [mkCourse 1 "https://e.example/cursos/python"
       (sample_fields "Python para todos" "Curso de Python");
     mkCourse 2 "https://e.example/cursos/ia"
       (sample_fields "Inteligencia Artificial" "Curso de IA")]
    [(1, "IA")]
    [(1, Some "Inteligencia Artificial"); (1, None)].

End CompareSpec.

(** ** Vocabulary of the statements about search *)

Module SearchSpec.
Import Db Search CompareSpec.

(** Iterating over a set visits each element once. *)
Class SetOrderLaws `{SetOrder} : Prop := {
  iter_order_perm : forall l, Permutation (iter_order l) l
}.

Definition insertion_order : SetOrder := {| iter_order := fun l => l |}.

Definition reverse_order : SetOrder := {| iter_order := @List.rev string |}.

(** A term that is not blank, as the loop of [build_fts_query] tests it. *)
Definition not_blank (t : string) : bool := Py.truthy (Py.strip t).

(** [syn] is a synonym the lookup finds for [t]: a non-empty entry of
    [synonyms] under the id of the first row of [terms] whose term, its
    ASCII letters in lower case, is [t] stripped and in lower case. *)
Definition stored_synonym `{Unicode} (con : Connection) (t syn : string)
    : Prop :=
  exists term_id term,
    find (fun r => String.eqb (Py.lower (snd r))
                              (Py.str_lower (Py.strip t)))
         (terms con) = Some (term_id, term)
    /\ In (term_id, Some syn) (synonyms con)
    /\ syn <> "".

(** [p] is the term in lower case, or one of its synonyms: stripped and
    put in lower case on the way into the set, and once more on the way
    into the group. *)
Definition is_part `{Unicode} (con : Connection) (t p : string) : Prop :=
  p = Py.str_lower t
  \/ exists syn, stored_synonym con t syn
                 /\ p = Py.str_lower (Py.str_lower (Py.strip syn)).

(** [q] is the part [p] as it is written into a group: in double quotes
    when it holds a space, as it is otherwise. *)
Definition written (p q : string) : Prop :=
  (Py.contains " " p = true /\ q = dquote ++ p ++ dquote)
  \/ (Py.contains " " p = false /\ q = p).

(** [g] is the group of the term [t]: its parts, each once, in some
    order, quoted where they hold a space, joined by [OR] in parentheses. *)
Definition is_group `{Unicode} (con : Connection) (t g : string) : Prop :=
  exists ps qs,
    NoDup ps
    /\ (forall p, In p ps <-> is_part con t p)
    /\ Forall2 written ps qs
    /\ g = "(" ++ Py.join " OR " qs ++ ")".

(** Two interests that are the same once stripped and in lower case. *)
Definition same_interest `{Unicode} (a b : string) : Prop :=
  Py.str_lower (Py.strip a) = Py.str_lower (Py.strip b).

(** A statement of [get_synonyms]. *)
Definition is_lookup (s : statement) : bool :=
  match s with
  | SelectTermId _ | SelectSynonyms _ => true
  | _ => false
  end.

(** A store with two terms, the first written with a capital that is
    not ASCII, and a synonym for each. *)
Definition algebra_con : Connection :=
  mkConnection [] [(1, "Álgebra"); (2, "Algebra")]
               [(1, Some "mate"); (2, Some "lineal")].

(** An engine without [bm25]: the ranked query raises, the unranked one
    returns the first course. *)
Definition no_bm25 : Fts :=
  {| select_ranked := fun _ _ _ => Raise OperationalError;
     select_unranked := fun con _ _ =>
       Ok (map (fun c => (url c, title (fields c), RowId (course_id c)))
               (firstn 1 (courses con))) |}.

(** An engine with [bm25] that ranks the first course. *)
Definition with_bm25 : Fts :=
  {| select_ranked := fun con _ _ =>
       Ok (map (fun c => (url c, title (fields c), Bm25 Compare.float_0))
               (firstn 1 (courses con)));
     select_unranked := fun _ _ _ => Ok [] |}.

End SearchSpec.

(** ** Vocabulary of the statements about the crawler *)

Module CrawlerSpec.
Import Db Crawler.

(** A row with a title that is not empty. *)
Definition titled (c : Course) : Prop :=
  exists t, title (fields c) = Some t /\ t <> "".

(** The rows of a table stored under a url. *)
Definition rows_at (u : string) (cs : list Course) : list Course :=
  filter (fun c => String.eqb (url c) u) cs.

(** The store in a state of the detail loop of [crawl]. *)
Definition state_con {W : Type} (st : Connection * W * nat * list event)
    : Connection :=
  fst (fst (fst st)).

(** The extraction of one turn of the walker, on the page shown in
    [w]: the link set after the cards were read and the count of links
    found, or the exception of the page source or of [urljoin]. *)
Definition page_links `{HostChecks} `{UrlJoin} `{Unicode} `{Dom} {W}
    `{Browser W} (start_url : string) (w : W) (links : set string)
    : result (set string * nat) :=
  cards <- get_cards_on_page w ;;
  collect_cards start_url cards (links, 0).









(** *** A small site to run the crawler on

    The world is the address the browser shows.  The catalog has two
    pages; the first is on display when the catalog opens, so the wait
    for a new first title times out on page 1, and there is no control
    for a page 3. *)

Definition course_card (href : string) : Card :=
  mkCard (Some "Curso") (Some href) (Some href).

Definition sample_dom : Dom :=
  {| select_cards := fun src =>
       if String.eqb src "catalog/p2"
       then [course_card "https://e.example/c"; course_card "https://e.example/a";
             mkCard (Some "Curso") None None]
       else if Py.startswith "catalog" src
       then [course_card "https://e.example/a"; course_card " https://e.example/b ";
             mkCard (Some "Diplomado") (Some "https://e.example/d") None]
       else [];
     select_first_card_title := fun src =>
       if String.eqb src "catalog/p2" then Some "C"
       else if Py.startswith "catalog" src then Some "A"
       else None;
     select_one_text := fun sel src =>
       if String.eqb src "https://e.example/a"
       then (if String.eqb sel "h2.font-weight-bold.mb-md-0"
             then Some "Curso A" else None)
       else if String.eqb src "https://e.example/b"
       then (if String.eqb sel "h1, h2" then Some "Curso B" else None)
       else None;
     sidebar_text := fun _ _ => None;
     section_text := fun _ _ => None |}.


Definition sample_browser : Browser string :=
  {| driver_get := fun u _ => (u, negb (String.eqb u "https://e.example/down"));
     wait_results_loaded := fun w => (w, Py.startswith "catalog" w);
     sleep := fun _ w => (w, None);
     pause := fun w => w;
     page_source := fun w => Ok w;
     locate_page_link := fun i w => (w, Nat.leb i 2);
     click_page_link := fun _ w => (w, true);
     wait_selected := fun i w =>
       (if Nat.eqb i 2 then "catalog/p2" else "catalog/p1", true);
     wait_title_changed := fun last w =>
       (w, negb (String.eqb last (if String.eqb w "catalog/p2" then "C" else "A")));
     utcnow := fun _ => "2024-01-01T00:00:00" |}.

Definition sample_args : Args := mkArgs "catalog" 3 Compare.float_1 false.

(** *** Vocabulary of the statements about a run *)

(** The lines [crawl] prints for a link it does not save. *)
Definition is_skipped (e : event) : bool :=
  match e with Skipped _ => true | _ => false end.

Definition is_failed (e : event) : bool :=
  match e with Failed _ => true | _ => false end.

(** The line the catalog walk prints for a page. *)
Definition is_page_line (e : event) : bool :=
  match e with PageLine _ _ _ => true | _ => false end.

(** The number of lines about links that were not saved. *)
Definition unsaved (out : list event) : nat :=
  List.length (filter (fun e => is_skipped e || is_failed e) out).

(** The count on the last line of a run that ended without exception. *)
Definition saved_count (out : list event) : nat :=
  match last out (Finished 0) with
  | Finished v => v
  | _ => 0
  end.

(** The columns as the detail loop writes them: no modality, no
    location, a time stamp that ends in [Z], and the page source only on
    request. *)
Definition stamped (save : bool) (f : CourseFields) : Prop :=
  modality f = None
  /\ location f = None
  /\ (exists now, last_crawled_at f = Some (now ++ "Z"))
  /\ (save = false -> raw_html f = None).

(** A card among [cards] contributes the link [l]. *)
Definition card_gives `{HostChecks} `{UrlJoin} `{Unicode}
    (start_url : string) (cards : list Card) (l : string) : Prop :=
  exists card, In card cards /\ is_course_card card = true
               /\ extract_course_link_from_card card start_url = Ok (Some l)
               /\ l <> "".

End CrawlerSpec.

(** ** Vocabulary of the statements about file extensions *)

Module MoreSpec.

(** An ASCII lower-case letter or a digit. *)
Definition is_lower_alnum (c : ascii) : bool := Py.is_lower c || Py.is_digit c.

End MoreSpec.

(* ================================================================= *)
(** * Part II: facts about the string operations *)
(* ================================================================= *)

Module PyFacts.
Import Py.

Lemma sapp_nil_r (s : string) : s ++ "" = s.
Proof. induction s as [|c s IH]; simpl; [reflexivity | now rewrite IH]. Qed.

Lemma sapp_assoc (a b c : string) : (a ++ b) ++ c = a ++ (b ++ c).
Proof. induction a as [|x a IH]; simpl; [reflexivity | now rewrite IH]. Qed.

Lemma sapp_empty (a b : string) : a ++ b = "" -> a = "" /\ b = "".
Proof. destruct a; simpl; [auto | discriminate]. Qed.

Lemma truthy_false (s : string) : truthy s = false <-> s = "".
Proof. destruct s; simpl; split; congruence. Qed.

Lemma truthy_true (s : string) : truthy s = true <-> s <> "".
Proof. destruct s; simpl; split; congruence. Qed.

Lemma truthy_app_l (a b : string) : truthy a = true -> truthy (a ++ b) = true.
Proof. destruct a; simpl; congruence. Qed.

Lemma rev_acc_app (s acc : string) : rev_acc s acc = rev s ++ acc.
Proof.
  unfold rev. revert acc.
  induction s as [|c s IH]; intros acc; simpl; [reflexivity|].
  rewrite IH, (IH (String c "")), sapp_assoc. reflexivity.
Qed.

Lemma rev_cons (c : ascii) (s : string) : rev (String c s) = rev s ++ String c "".
Proof. unfold rev at 1. simpl. apply rev_acc_app. Qed.

Lemma rev_app (a b : string) : rev (a ++ b) = rev b ++ rev a.
Proof.
  induction a as [|c a IH]; simpl.
  - now rewrite sapp_nil_r.
  - now rewrite !rev_cons, IH, sapp_assoc.
Qed.

Lemma rev_involutive (s : string) : rev (rev s) = s.
Proof.
  induction s as [|c s IH]; [reflexivity|].
  rewrite rev_cons, rev_app, IH. reflexivity.
Qed.

Lemma startswith_app (p s : string) : startswith p (p ++ s) = true.
Proof.
  induction p as [|c p IH]; simpl; [reflexivity|].
  now rewrite Ascii.eqb_refl, IH.
Qed.

Lemma startswith_inv (p s : string) :
  startswith p s = true -> exists r, s = p ++ r.
Proof.
  revert s. induction p as [|c p IH]; intros s Hs; simpl in *.
  - now exists s.
  - destruct s as [|d s]; [discriminate|].
    apply andb_true_iff in Hs as [Hc Hp].
    apply Ascii.eqb_eq in Hc. subst d.
    destruct (IH _ Hp) as [r ->]. now exists r.
Qed.

Lemma startswith_char (c d : ascii) (r : string) :
  startswith (String c "") (String d r) = true -> d = c.
Proof.
  cbn [startswith]. rewrite andb_true_r. intros E.
  apply Ascii.eqb_eq in E. congruence.
Qed.

Lemma endswith_app (p s : string) : endswith p (s ++ p) = true.
Proof. unfold endswith. rewrite rev_app. apply startswith_app. Qed.

Lemma endswith_inv (p s : string) :
  endswith p s = true -> exists r, s = r ++ p.
Proof.
  unfold endswith. intros Hs.
  destruct (startswith_inv _ _ Hs) as [r Hr].
  exists (rev r).
  rewrite <- (rev_involutive s), Hr, rev_app, rev_involutive. reflexivity.
Qed.

Lemma contains_app (c : ascii) (a b : string) :
  contains c (a ++ b) = contains c a || contains c b.
Proof.
  induction a as [|d a IH]; simpl; [reflexivity|].
  now rewrite IH, orb_assoc.
Qed.

Lemma str_all_app (p : ascii -> bool) (a b : string) :
  str_all p (a ++ b) = str_all p a && str_all p b.
Proof.
  induction a as [|d a IH]; simpl; [reflexivity|].
  now rewrite IH, andb_assoc.
Qed.

Lemma str_all_impl (p q : ascii -> bool) (s : string) :
  (forall c, p c = true -> q c = true) ->
  str_all p s = true -> str_all q s = true.
Proof.
  intros Hpq. induction s as [|d s IH]; simpl; [auto|].
  rewrite !andb_true_iff. intros [Hd Hs]. auto.
Qed.

Lemma str_all_not_contains (p : ascii -> bool) (c : ascii) (s : string) :
  p c = false -> str_all p s = true -> contains c s = false.
Proof.
  intros Hc. induction s as [|d s IH]; simpl; [auto|].
  rewrite andb_true_iff. intros [Hd Hs].
  rewrite (IH Hs), orb_false_r.
  destruct (Ascii.eqb_spec d c); [congruence | reflexivity].
Qed.

Lemma lower_app (a b : string) : lower (a ++ b) = lower a ++ lower b.
Proof.
  unfold lower. induction a as [|d a IH]; simpl; [reflexivity | now rewrite IH].
Qed.

Lemma lower_char_idem (c : ascii) : lower_char (lower_char c) = lower_char c.
Proof. destruct c as [[] [] [] [] [] [] [] []]; reflexivity. Qed.

Lemma lower_idem (s : string) : lower (lower s) = lower s.
Proof.
  unfold lower. induction s as [|d s IH]; simpl; [reflexivity|].
  now rewrite lower_char_idem, IH.
Qed.

Lemma lower_truthy (s : string) : truthy (lower s) = truthy s.
Proof. destruct s; reflexivity. Qed.

(** Lowering keeps every character that is not a letter. *)
Lemma lower_char_fixes (c : ascii) : is_alpha c = false -> lower_char c = c.
Proof.
  destruct c as [[] [] [] [] [] [] [] []]; intros E;
    vm_compute in E |- *; congruence.
Qed.

Lemma lower_char_alpha (c : ascii) : is_alpha (lower_char c) = is_alpha c.
Proof. destruct c as [[] [] [] [] [] [] [] []]; reflexivity. Qed.

(** A character class that holds no letter is stable under lowering. *)
Lemma str_all_lower (p : ascii -> bool) (s : string) :
  (forall c, p (lower_char c) = p c) ->
  str_all p (lower s) = str_all p s.
Proof.
  intros Hp. unfold lower. induction s as [|d s IH]; simpl; [reflexivity|].
  now rewrite Hp, IH.
Qed.

Lemma contains_lower (c : ascii) (s : string) :
  is_alpha c = false -> contains c (lower s) = contains c s.
Proof.
  intros Hc. unfold lower. induction s as [|d s IH]; simpl; [reflexivity|].
  rewrite IH. f_equal.
  destruct (Ascii.eqb_spec d c) as [->|Hd].
  - rewrite (lower_char_fixes _ Hc). apply Ascii.eqb_refl.
  - apply Ascii.eqb_neq. intros E. apply Hd.
    destruct (is_alpha d) eqn:Ed.
    + rewrite <- lower_char_alpha, E in Ed. congruence.
    + now rewrite (lower_char_fixes _ Ed) in E.
Qed.

Lemma eqb_lower_char (c d : ascii) :
  is_alpha c = false -> Ascii.eqb (lower_char d) c = Ascii.eqb d c.
Proof.
  intros Hc. destruct (Ascii.eqb_spec d c) as [->|Hd].
  - rewrite (lower_char_fixes _ Hc). apply Ascii.eqb_refl.
  - apply Ascii.eqb_neq. intros E. apply Hd.
    destruct (is_alpha d) eqn:Ed.
    + rewrite <- lower_char_alpha, E in Ed. congruence.
    + now rewrite (lower_char_fixes _ Ed) in E.
Qed.

Lemma partition_lower (c : ascii) (s : string) :
  is_alpha c = false ->
  partition c (lower s) =
  match partition c s with
  | Some (a, b) => Some (lower a, lower b)
  | None => None
  end.
Proof.
  intros Hc. induction s as [|d s IH]; [reflexivity|].
  change (lower (String d s)) with (String (lower_char d) (lower s)).
  cbn [partition]. rewrite (eqb_lower_char _ d Hc), IH.
  destruct (Ascii.eqb d c); [reflexivity|].
  destruct (partition c s) as [[a b]|]; reflexivity.
Qed.

Lemma rpartition_lower (c : ascii) (s : string) :
  is_alpha c = false ->
  rpartition c (lower s) =
  match rpartition c s with
  | Some (a, b) => Some (lower a, lower b)
  | None => None
  end.
Proof.
  intros Hc. induction s as [|d s IH]; [reflexivity|].
  change (lower (String d s)) with (String (lower_char d) (lower s)).
  cbn [rpartition]. rewrite (eqb_lower_char _ d Hc), IH.
  destruct (rpartition c s) as [[a b]|]; [reflexivity|].
  destruct (Ascii.eqb d c); reflexivity.
Qed.

Lemma span_lower (p : ascii -> bool) (s : string) :
  (forall c, p (lower_char c) = p c) ->
  span p (lower s) = let (a, b) := span p s in (lower a, lower b).
Proof.
  intros Hp. induction s as [|d s IH]; [reflexivity|].
  change (lower (String d s)) with (String (lower_char d) (lower s)).
  cbn [span]. rewrite Hp, IH.
  destruct (p d); [|reflexivity].
  destruct (span p s) as [a b]; reflexivity.
Qed.

Lemma startswith_lower (c : ascii) (s : string) :
  is_alpha c = false ->
  startswith (String c "") (lower s) = startswith (String c "") s.
Proof.
  intros Hc. destruct s as [|d s]; [reflexivity|].
  change (lower (String d s)) with (String (lower_char d) (lower s)).
  cbn [startswith]. rewrite !andb_true_r.
  rewrite Ascii.eqb_sym, (eqb_lower_char _ d Hc). apply Ascii.eqb_sym.
Qed.

Lemma partition_app (c : ascii) (a b : string) :
  contains c a = false -> partition c (a ++ String c b) = Some (a, b).
Proof.
  induction a as [|d a IH]; simpl.
  - now rewrite Ascii.eqb_refl.
  - intros H. apply orb_false_iff in H as [Hd Ha].
    now rewrite Hd, (IH Ha).
Qed.

Lemma partition_none (c : ascii) (s : string) :
  contains c s = false -> partition c s = None.
Proof.
  induction s as [|d s IH]; simpl; [reflexivity|].
  intros H. apply orb_false_iff in H as [Hd Hs].
  now rewrite Hd, (IH Hs).
Qed.

Lemma partition_some (c : ascii) (s a b : string) :
  partition c s = Some (a, b) ->
  s = a ++ String c b /\ contains c a = false.
Proof.
  revert a b. induction s as [|d s IH]; simpl; intros a b H; [discriminate|].
  destruct (Ascii.eqb_spec d c) as [->|Hd].
  - inversion H; subst. auto.
  - destruct (partition c s) as [[a' b']|]; [|discriminate].
    inversion H; subst. destruct (IH _ _ eq_refl) as [-> Ha].
    split; [reflexivity|]. simpl. rewrite Ha.
    apply Ascii.eqb_neq in Hd. now rewrite Hd.
Qed.

Lemma partition_contains (c : ascii) (s : string) :
  contains c s = false <-> partition c s = None.
Proof.
  split; [apply partition_none|].
  induction s as [|d s IH]; simpl; [reflexivity|].
  destruct (Ascii.eqb d c); [discriminate|].
  destruct (partition c s) as [[a b]|]; [discriminate|]. auto.
Qed.

Lemma rpartition_some (c : ascii) (s a b : string) :
  rpartition c s = Some (a, b) ->
  s = a ++ String c b /\ contains c b = false.
Proof.
  revert a b. induction s as [|d s IH]; simpl; intros a b H; [discriminate|].
  destruct (rpartition c s) as [[a' b']|] eqn:E.
  - inversion H; subst. destruct (IH _ _ eq_refl) as [-> Hb]. auto.
  - destruct (Ascii.eqb_spec d c) as [->|Hd]; [|discriminate].
    inversion H; subst. split; [reflexivity|].
    clear -E. induction b as [|x b IHb]; simpl in *; [reflexivity|].
    destruct (rpartition c b) as [[? ?]|]; [discriminate|].
    destruct (Ascii.eqb x c); [discriminate|]. auto.
Qed.

Lemma rpartition_none (c : ascii) (s : string) :
  contains c s = false -> rpartition c s = None.
Proof.
  induction s as [|d s IH]; simpl; [reflexivity|].
  intros H. apply orb_false_iff in H as [Hd Hs].
  now rewrite (IH Hs), Hd.
Qed.

Lemma rpartition_app (c : ascii) (a b : string) :
  contains c b = false -> rpartition c (a ++ String c b) = Some (a, b).
Proof.
  intros Hb. induction a as [|d a IH]; simpl.
  - now rewrite (rpartition_none _ _ Hb), Ascii.eqb_refl.
  - now rewrite IH.
Qed.

Lemma span_app (p : ascii -> bool) (a b : string) :
  str_all p a = true ->
  match b with EmptyString => True | String d _ => p d = false end ->
  span p (a ++ b) = (a, b).
Proof.
  intros Ha Hb. induction a as [|d a IH]; simpl in *.
  - destruct b as [|d b]; simpl; [reflexivity | now rewrite Hb].
  - apply andb_true_iff in Ha as [Hd Ha]. now rewrite Hd, (IH Ha).
Qed.

Lemma span_spec (p : ascii -> bool) (s a b : string) :
  span p s = (a, b) ->
  s = a ++ b /\ str_all p a = true
  /\ match b with EmptyString => True | String d _ => p d = false end.
Proof.
  revert a b. induction s as [|d s IH]; simpl; intros a b H.
  - inversion H; subst. auto.
  - destruct (p d) eqn:Hd.
    + destruct (span p s) as [a' b']. inversion H; subst.
      destruct (IH _ _ eq_refl) as (-> & Ha & Hb). simpl. rewrite Hd. auto.
    + inversion H; subst. simpl. auto.
Qed.

Lemma lstrip_by_id (p : ascii -> bool) (s : string) :
  match s with EmptyString => True | String d _ => p d = false end ->
  lstrip_by p s = s.
Proof. destruct s as [|d s]; simpl; [reflexivity | now intros ->]. Qed.

Lemma remove_by_id (p : ascii -> bool) (s : string) :
  str_all (fun c => negb (p c)) s = true -> remove_by p s = s.
Proof.
  induction s as [|d s IH]; simpl; [reflexivity|].
  rewrite andb_true_iff, negb_true_iff. intros [-> Hs]. now rewrite (IH Hs).
Qed.

Lemma remove_by_clean (p : ascii -> bool) (s : string) :
  str_all (fun c => negb (p c)) (remove_by p s) = true.
Proof.
  induction s as [|d s IH]; simpl; [reflexivity|].
  destruct (p d) eqn:Hd; simpl; [assumption|]. now rewrite Hd, IH.
Qed.

Lemma remove_by_contains (p : ascii -> bool) (c : ascii) (s : string) :
  p c = false -> contains c (remove_by p s) = contains c s.
Proof.
  intros Hc. induction s as [|d s IH]; simpl; [reflexivity|].
  destruct (p d) eqn:Hd; simpl; rewrite IH; [|reflexivity].
  destruct (Ascii.eqb_spec d c); [congruence | reflexivity].
Qed.

Lemma lstrip_by_contains (p : ascii -> bool) (c : ascii) (s : string) :
  p c = false -> contains c (lstrip_by p s) = contains c s.
Proof.
  intros Hc. induction s as [|d s IH]; simpl; [reflexivity|].
  destruct (p d) eqn:Hd; simpl; [|reflexivity].
  rewrite IH. destruct (Ascii.eqb_spec d c); [congruence | reflexivity].
Qed.

Lemma mem_in (x : string) (xs : list string) : mem x xs = true <-> In x xs.
Proof.
  unfold mem. rewrite existsb_exists. split.
  - intros (y & Hy & E). apply String.eqb_eq in E. now subst.
  - intros Hx. exists x. split; [assumption | apply String.eqb_refl].
Qed.

End PyFacts.

(** ** Stripping white space *)

Module StripFacts.
Import Py PyFacts.

Section Seq.
Variable p1 : ascii -> bool.
Variable p2 : ascii -> ascii -> bool.
Variable p3 : ascii -> ascii -> ascii -> bool.

(** A text whose head is not selected is left as it is. *)
Lemma lstrip_seq_id (s : string) :
  seq_head p1 p2 p3 s = false -> lstrip_seq p1 p2 p3 s = s.
Proof.
  destruct s as [|a [|b [|c r]]]; cbn [seq_head lstrip_seq];
    rewrite ?orb_false_r, ?orb_false_iff; intuition;
    repeat match goal with H : _ = false |- _ => rewrite H; clear H end;
    reflexivity.
Qed.

Lemma lstrip_seq_bounded (n : nat) (s : string) :
  String.length s <= n ->
  seq_head p1 p2 p3 (lstrip_seq p1 p2 p3 s) = false
  /\ exists pre, s = pre ++ lstrip_seq p1 p2 p3 s.
Proof.
  revert s. induction n as [|n IH]; intros s Hs.
  - destruct s; [|cbn in Hs; lia]. split; [reflexivity | now exists ""].
  - destruct s as [|a r]; [split; [reflexivity | now exists ""]|].
    cbn [String.length] in Hs. cbn [lstrip_seq].
    destruct (p1 a) eqn:H1.
    { destruct (IH r ltac:(lia)) as [Hh [pre Hp]].
      split; [exact Hh|]. exists (String a pre). cbn [append]. now rewrite <- Hp. }
    destruct r as [|b r2].
    { split; [cbn [seq_head]; now rewrite H1 | now exists ""]. }
    cbn [String.length] in Hs.
    destruct (p2 a b) eqn:H2.
    { destruct (IH r2 ltac:(lia)) as [Hh [pre Hp]].
      split; [exact Hh|]. exists (String a (String b pre)). cbn [append].
      now rewrite <- Hp. }
    destruct r2 as [|c r3].
    { split; [cbn [seq_head]; now rewrite H1, H2 | now exists ""]. }
    cbn [String.length] in Hs.
    destruct (p3 a b c) eqn:H3.
    { destruct (IH r3 ltac:(lia)) as [Hh [pre Hp]].
      split; [exact Hh|]. exists (String a (String b (String c pre))).
      cbn [append]. now rewrite <- Hp. }
    split; [cbn [seq_head]; now rewrite H1, H2, H3 | now exists ""].
Qed.

(** What is left has a head that is not selected, ... *)
Lemma lstrip_seq_head (s : string) :
  seq_head p1 p2 p3 (lstrip_seq p1 p2 p3 s) = false.
Proof. exact (proj1 (lstrip_seq_bounded (String.length s) s (le_n _))). Qed.

(** ... and is the end of the text. *)
Lemma lstrip_seq_suffix (s : string) :
  exists pre, s = pre ++ lstrip_seq p1 p2 p3 s.
Proof. exact (proj2 (lstrip_seq_bounded (String.length s) s (le_n _))). Qed.

Lemma lstrip_seq_idem (s : string) :
  lstrip_seq p1 p2 p3 (lstrip_seq p1 p2 p3 s) = lstrip_seq p1 p2 p3 s.
Proof. apply lstrip_seq_id, lstrip_seq_head. Qed.

(** A text with a selected head keeps it when more text follows. *)
Lemma seq_head_app (a b : string) :
  seq_head p1 p2 p3 a = true -> seq_head p1 p2 p3 (a ++ b) = true.
Proof.
  destruct a as [|x [|y [|z r]]]; cbn [seq_head append];
    rewrite ?orb_false_r; try discriminate.
  - intros ->. reflexivity.
  - intros H. apply orb_true_iff in H as [-> | ->]; [reflexivity|].
    destruct b; [now rewrite orb_true_r|].
    now rewrite orb_true_l, orb_true_r.
  - auto.
Qed.

End Seq.

(** Stripping twice is stripping once. *)
Lemma strip_idem (s : string) : strip (strip s) = strip s.
Proof.
  unfold strip. set (t := lstrip s).
  assert (Ht : seq_head is_space is_space2 is_space3 t = false)
    by apply lstrip_seq_head.
  unfold rstrip at 2.
  set (q2 := fun a b => is_space2 b a).
  set (q3 := fun a b c => is_space3 c b a).
  destruct (lstrip_seq_suffix is_space q2 q3 (rev t)) as [pre Hpre].
  set (u := rev (lstrip_seq is_space q2 q3 (rev t))).
  assert (Etu : t = u ++ rev pre).
  { rewrite <- (rev_involutive t), Hpre, rev_app. reflexivity. }
  assert (Hu : lstrip u = u).
  { apply lstrip_seq_id.
    destruct (seq_head is_space is_space2 is_space3 u) eqn:E; [|reflexivity].
    rewrite Etu, (seq_head_app _ _ _ _ _ E) in Ht. discriminate. }
  rewrite Hu. unfold rstrip, u. fold q2 q3.
  now rewrite rev_involutive, lstrip_seq_idem.
Qed.

(** U+00A0 and U+3000 are white space; U+200B is not. *)
Example strip_no_break_space :
  strip (String (ascii_of_nat 194) (String (ascii_of_nat 160) " curso "
         ++ String (ascii_of_nat 227) (String (ascii_of_nat 128)
              (String (ascii_of_nat 128) ""))))
  = "curso"
  /\ strip (String (ascii_of_nat 194) (String (ascii_of_nat 160) "")) = ""
  /\ strip (String (ascii_of_nat 226) (String (ascii_of_nat 128)
              (String (ascii_of_nat 139) "")))
     <> "".
Proof. repeat split; (reflexivity || discriminate). Qed.

End StripFacts.

(* ================================================================= *)
(** * Part III: [urllib.parse] splits what it has joined *)
(* ================================================================= *)

Module UrlFacts.
Import Py PyFacts Urllib UrlSpec.

(** *** Character classes *)

Lemma scheme_char_safe (c : ascii) :
  is_scheme_char c = true ->
  is_safe c = true /\ Ascii.eqb c ":" = false /\ is_c0_or_space c = false.
Proof. by_cases_on_char c. Qed.

Lemma scheme_char_lower (c : ascii) :
  is_scheme_char (lower_char c) = is_scheme_char c.
Proof. by_cases_on_char c. Qed.

Lemma netloc_char_lower (c : ascii) : netloc_char (lower_char c) = netloc_char c.
Proof. by_cases_on_char c. Qed.

Lemma is_ascii_lower (c : ascii) : is_ascii (lower_char c) = is_ascii c.
Proof. by_cases_on_char c. Qed.

Lemma is_hex_lower (c : ascii) : is_hex (lower_char c) = is_hex c.
Proof. by_cases_on_char c. Qed.

Lemma netloc_char_safe (c : ascii) :
  netloc_char c = true ->
  is_safe c = true /\ is_netloc_delim c = false.
Proof. by_cases_on_char c. Qed.

Lemma path_char_safe (c : ascii) :
  path_char c = true ->
  is_safe c = true /\ query_char c = true
  /\ Ascii.eqb c "?" = false /\ Ascii.eqb c "#" = false.
Proof. by_cases_on_char c. Qed.

Lemma query_char_safe (c : ascii) :
  query_char c = true -> is_safe c = true /\ Ascii.eqb c "#" = false.
Proof. by_cases_on_char c. Qed.

Lemma safe_split (c : ascii) :
  is_safe c = true ->
  (is_netloc_delim c = false -> netloc_char c = true)
  /\ (Ascii.eqb c "#" = false -> query_char c = true)
  /\ (Ascii.eqb c "#" = false -> Ascii.eqb c "?" = false -> path_char c = true).
Proof. by_cases_on_char c. Qed.

(** *** Joining *)

Lemma urlunsplit_shape (s n url0 q : string) :
  truthy n = true ->
  (url0 = "" \/ startswith "/" url0 = true) ->
  urlunsplit s n url0 q "" =
  scheme_prefix s ++ "//" ++ n ++ url0 ++ query_suffix q.
Proof.
  intros Hn Hu. unfold urlunsplit, scheme_prefix, query_suffix.
  rewrite Hn. cbn [orb].
  assert (E : (if truthy url0 && negb (startswith "/" url0)
               then "/" ++ url0 else url0) = url0).
  { destruct Hu as [->| ->]; [reflexivity|]. now rewrite andb_false_r. }
  rewrite E. clear E.
  destruct (truthy s), (truthy q); cbn [truthy];
    repeat (rewrite ?sapp_assoc, ?sapp_nil_r; cbn [append]); reflexivity.
Qed.

(** *** Splitting what was joined *)

Lemma clean_url_id (v : string) :
  str_all is_safe v = true ->
  match v with EmptyString => True | String d _ => is_c0_or_space d = false end ->
  clean_url v = v.
Proof.
  intros Hs Hd. unfold clean_url.
  rewrite (lstrip_by_id _ _ Hd). now apply remove_by_id.
Qed.

Lemma scheme_ok_chars (s : string) :
  scheme_ok s = true ->
  str_all is_scheme_char s = true /\ lower s = s.
Proof.
  destruct s as [|c s]; [auto|]. unfold scheme_ok.
  rewrite !andb_true_iff. intros [[_ Hs] He].
  apply String.eqb_eq in He. auto.
Qed.

Lemma split_scheme_joined (s x : string) :
  scheme_ok s = true ->
  split_scheme (scheme_prefix s ++ "//" ++ x) = (s, "//" ++ x).
Proof.
  intros Hs. destruct (scheme_ok_chars _ Hs) as [Hc Hl].
  unfold split_scheme, scheme_prefix.
  destruct s as [|c s].
  - cbn. destruct (partition ":" x) as [[a b]|]; reflexivity.
  - cbn [truthy]. rewrite sapp_assoc. cbn [append].
    change (String c (s ++ String ":" (String "/" (String "/" x))))
      with (String c s ++ String ":" (String "/" (String "/" x))).
    rewrite partition_app.
    + unfold scheme_ok in Hs. rewrite !andb_true_iff in Hs.
      destruct Hs as [[Ha _] _]. rewrite Ha, Hc, Hl. reflexivity.
    + eapply str_all_not_contains; [|exact Hc]. reflexivity.
Qed.

Lemma split_authority_joined `{HostChecks} (n tail : string) :
  str_all netloc_char n = true -> brackets_ok n = true ->
  match tail with
  | EmptyString => True
  | String d _ => is_netloc_delim d = true
  end ->
  split_authority ("//" ++ n ++ tail) = Ok (n, tail).
Proof.
  intros Hn Hb Ht. unfold split_authority, _splitnetloc.
  rewrite (startswith_app "//" (n ++ tail)).
  change (drop 2 ("//" ++ n ++ tail)) with (n ++ tail).
  rewrite span_app.
  - now rewrite Hb.
  - eapply str_all_impl; [|exact Hn].
    intros c Hc. destruct (netloc_char_safe _ Hc) as [_ E]. now rewrite E.
  - destruct tail; [exact I | now rewrite Ht].
Qed.

Lemma split_at_none (c : ascii) (s : string) :
  contains c s = false -> split_at c s = (s, "").
Proof. intros Hc. unfold split_at. now rewrite (partition_none _ _ Hc). Qed.

Lemma split_at_app (c : ascii) (a b : string) :
  contains c a = false -> split_at c (a ++ String c b) = (a, b).
Proof. intros Hc. unfold split_at. now rewrite (partition_app _ _ _ Hc). Qed.

Lemma path_chars_no_marks (s : string) :
  str_all path_char s = true ->
  contains "?" s = false /\ contains "#" s = false
  /\ str_all is_safe s = true /\ str_all query_char s = true.
Proof.
  intros Hs. repeat split.
  - eapply str_all_not_contains; [|exact Hs]. reflexivity.
  - eapply str_all_not_contains; [|exact Hs]. reflexivity.
  - eapply str_all_impl; [|exact Hs]. intros c Hc. now apply path_char_safe in Hc.
  - eapply str_all_impl; [|exact Hs]. intros c Hc. now apply path_char_safe in Hc.
Qed.

Lemma query_chars_no_marks (s : string) :
  str_all query_char s = true ->
  contains "#" s = false /\ str_all is_safe s = true.
Proof.
  intros Hs. split.
  - eapply str_all_not_contains; [|exact Hs]. reflexivity.
  - eapply str_all_impl; [|exact Hs]. intros c Hc. now apply query_char_safe in Hc.
Qed.

Lemma netloc_chars_no_marks (s : string) :
  str_all netloc_char s = true ->
  contains "#" s = false /\ str_all is_safe s = true.
Proof.
  intros Hs. split.
  - eapply str_all_not_contains; [|exact Hs]. reflexivity.
  - eapply str_all_impl; [|exact Hs]. intros c Hc. now apply netloc_char_safe in Hc.
Qed.

(** [urlsplit] undoes [urlunsplit] on components of the right shape. *)
Lemma urlsplit_joined `{HostChecks} (s n url0 q : string) :
  scheme_ok s = true -> netloc_ok n = true ->
  (url0 = "" \/ startswith "/" url0 = true) ->
  str_all path_char url0 = true -> str_all query_char q = true ->
  urlsplit (urlunsplit s n url0 q "") = Ok (mkParseResult s n url0 "" q "").
Proof.
  intros Hs Hn Hu Hp Hq.
  unfold netloc_ok in Hn. rewrite !andb_true_iff in Hn.
  destruct Hn as [[[Hn1 Hn2] Hn3] Hn4].
  rewrite (urlunsplit_shape s n url0 q Hn1 Hu).
  destruct (scheme_ok_chars _ Hs) as [Hsc _].
  destruct (path_chars_no_marks _ Hp) as (Hp1 & Hp2 & Hp3 & _).
  destruct (query_chars_no_marks _ Hq) as (Hq1 & Hq2).
  destruct (netloc_chars_no_marks _ Hn2) as (Hn5 & Hn6).
  unfold urlsplit.
  rewrite clean_url_id.
  - rewrite split_scheme_joined by assumption.
    rewrite split_authority_joined; try assumption.
    + cbn [bind fst snd].
      assert (Hf : contains "#" (url0 ++ query_suffix q) = false).
      { rewrite contains_app, Hp2. unfold query_suffix.
        destruct (truthy q); cbn; [assumption | reflexivity]. }
      rewrite (split_at_none _ _ Hf).
      assert (Hsplit : split_at "?" (url0 ++ query_suffix q) = (url0, q)).
      { unfold query_suffix. destruct q as [|c q]; cbn [truthy].
        - rewrite sapp_nil_r. now apply split_at_none.
        - now apply split_at_app. }
      rewrite Hsplit, Hn4. reflexivity.
    + unfold query_suffix.
      destruct Hu as [->|Hu].
      * cbn [append]. destruct (truthy q); cbn; auto.
      * destruct url0 as [|d url0]; [discriminate|].
        apply startswith_char in Hu. subst d. reflexivity.
  - rewrite !str_all_app. unfold scheme_prefix, query_suffix.
    assert (Hss : str_all is_safe s = true).
    { eapply str_all_impl; [|exact Hsc]. intros c Hc.
      now apply scheme_char_safe in Hc. }
    destruct (truthy s), (truthy q); cbn;
      rewrite ?str_all_app, ?Hss, ?Hn6, ?Hp3, ?Hq2; reflexivity.
  - unfold scheme_prefix. destruct s as [|c s]; cbn; [reflexivity|].
    cbn in Hsc. apply andb_true_iff in Hsc as [Hc _].
    now apply scheme_char_safe in Hc.
Qed.

Lemma pair_eqb_refl (x : string * string) : pair_eqb x x = true.
Proof. unfold pair_eqb. now rewrite !String.eqb_refl. Qed.

Lemma pair_eqb_eq (x y : string * string) : pair_eqb x y = true -> x = y.
Proof.
  destruct x, y. unfold pair_eqb. cbn [fst snd].
  rewrite andb_true_iff, !String.eqb_eq. intros [-> ->]. reflexivity.
Qed.

Lemma join_params_shape (pa pr : string) :
  (startswith "/" pa || (negb (truthy pa) && negb (truthy pr))) = true ->
  str_all path_char pa = true -> str_all path_char pr = true ->
  (join_params pa pr = "" \/ startswith "/" (join_params pa pr) = true)
  /\ str_all path_char (join_params pa pr) = true.
Proof.
  intros Hh Hpa Hpr. unfold join_params.
  destruct pr as [|c pr]; cbn [truthy].
  - split; [|assumption].
    destruct pa as [|d pa]; [now left | right].
    cbn [truthy negb andb] in Hh. now rewrite orb_false_r in Hh.
  - cbn [truthy negb] in Hh. rewrite andb_false_r, orb_false_r in Hh.
    split.
    + right. destruct pa as [|d pa]; [discriminate|].
      apply startswith_char in Hh. subst d. reflexivity.
    + rewrite str_all_app, Hpa. cbn [andb].
      change (String ";" (String c pr)) with (";" ++ String c pr).
      rewrite str_all_app, Hpr. reflexivity.
Qed.

(** [urlparse] undoes [urlunparse] on well-formed components. *)
Lemma urlparse_unparse `{HostChecks} (p : ParseResult) :
  well_formed p = true -> urlparse (urlunparse p) = Ok p.
Proof.
  destruct p as [s n pa pr q f]. unfold well_formed, path_ok. cbn [scheme netloc path params query fragment].
  rewrite !andb_true_iff, negb_true_iff, truthy_false.
  intros [[[[Hs Hn] [[[Hh Hpa] Hpr] Hj]] Hq] ->].
  destruct (join_params_shape pa pr Hh Hpa Hpr) as [Hu Hc].
  unfold urlparse, urlunparse. cbn [scheme netloc path params query fragment].
  rewrite (urlsplit_joined s n (join_params pa pr) q Hs Hn Hu Hc Hq).
  cbn [bind scheme netloc path params query fragment].
  apply pair_eqb_eq in Hj. rewrite Hj. reflexivity.
Qed.

(** *** What [urlsplit] returns *)

Lemma urlsplit_inv `{HostChecks} (u : string) (r : ParseResult) :
  urlsplit u = Ok r ->
  exists r1 r2 r3,
    split_scheme (clean_url u) = (scheme r, r1)
    /\ split_authority r1 = Ok (netloc r, r2)
    /\ split_at "#" r2 = (r3, fragment r)
    /\ split_at "?" r3 = (path r, query r)
    /\ _checknetloc (netloc r) = true
    /\ params r = "".
Proof.
  unfold urlsplit.
  destruct (split_scheme (clean_url u)) as [s r1] eqn:E1.
  destruct (split_authority r1) as [[n r2]|e] eqn:E2; cbn [bind fst snd]; [|discriminate].
  destruct (split_at "#" r2) as [r3 f] eqn:E3.
  destruct (split_at "?" r3) as [pa q] eqn:E4.
  destruct (_checknetloc n) eqn:Hc; [|discriminate].
  intros E. inversion E; subst; clear E.
  cbn [scheme netloc path params query fragment].
  exists r1, r2, r3. repeat split; assumption.
Qed.

Lemma urlparse_inv `{HostChecks} (u : string) (p : ParseResult) :
  urlparse u = Ok p ->
  exists r,
    urlsplit u = Ok r
    /\ scheme p = scheme r /\ netloc p = netloc r
    /\ query p = query r /\ fragment p = fragment r
    /\ split_params (scheme r) (path r) = (path p, params p).
Proof.
  unfold urlparse. destruct (urlsplit u) as [r|e]; cbn [bind]; [|discriminate].
  destruct (split_params (scheme r) (path r)) as [pa pr] eqn:E1.
  intros E. inversion E; subst; clear E.
  cbn [scheme netloc path params query fragment].
  exists r. repeat split; reflexivity || assumption.
Qed.

Lemma clean_url_safe (u : string) : str_all is_safe (clean_url u) = true.
Proof. unfold clean_url, is_safe. apply remove_by_clean. Qed.

Lemma scheme_ok_intro (c : ascii) (s : string) :
  is_alpha c = true ->
  str_all is_scheme_char (String c s) = true ->
  lower (String c s) = String c s ->
  scheme_ok (String c s) = true.
Proof.
  intros Ha Hs Hl. unfold scheme_ok. rewrite Ha, Hs, Hl.
  now rewrite String.eqb_refl.
Qed.

Lemma split_scheme_spec (c s r1 : string) :
  split_scheme c = (s, r1) ->
  str_all is_safe c = true ->
  scheme_ok s = true /\ str_all is_safe r1 = true
  /\ (contains "#" c = false -> contains "#" r1 = false).
Proof.
  unfold split_scheme. intros E Hc.
  destruct (partition ":" c) as [[pre rest]|] eqn:P.
  - destruct (partition_some _ _ _ _ P) as [-> _].
    destruct pre as [|ch pre].
    + inversion E; subst. auto.
    + destruct (is_alpha ch && str_all is_scheme_char (String ch pre)) eqn:T.
      * inversion E; subst; clear E.
        apply andb_true_iff in T as [Ta Ts].
        rewrite str_all_app in Hc. apply andb_true_iff in Hc as [_ Hc].
        cbn [str_all] in Hc. apply andb_true_iff in Hc as [_ Hc].
        repeat split.
        -- change (lower (String ch pre))
             with (String (lower_char ch) (lower pre)).
           apply scheme_ok_intro.
           ++ now rewrite lower_char_alpha.
           ++ change (String (lower_char ch) (lower pre))
                with (lower (String ch pre)).
              now rewrite (str_all_lower _ _ scheme_char_lower).
           ++ change (String (lower_char ch) (lower pre))
                with (lower (String ch pre)).
              apply lower_idem.
        -- exact Hc.
        -- rewrite contains_app. intros Hx.
           apply orb_false_iff in Hx as [_ Hx].
           cbn [contains] in Hx. now apply orb_false_iff in Hx.
      * inversion E; subst. auto.
  - inversion E; subst. auto.
Qed.

Lemma split_authority_spec `{HostChecks} (r1 n r2 : string) :
  split_authority r1 = Ok (n, r2) -> n <> "" ->
  str_all is_safe r1 = true ->
  str_all netloc_char n = true /\ brackets_ok n = true
  /\ str_all is_safe r2 = true /\ head_in is_netloc_delim r2
  /\ (contains "#" r1 = false -> contains "#" r2 = false).
Proof.
  unfold split_authority, _splitnetloc. intros E Hn Hs.
  destruct (startswith "//" r1) eqn:S1.
  - destruct (startswith_inv _ _ S1) as [x ->].
    change (drop 2 ("//" ++ x)) with x in E.
    destruct (span (fun c => negb (is_netloc_delim c)) x) as [a b] eqn:Sp.
    destruct (brackets_ok a) eqn:B; [|discriminate].
    inversion E; subst; clear E.
    destruct (span_spec _ _ _ _ Sp) as (-> & Ha & Hb).
    change ("//" ++ n ++ r2) with (String "/" (String "/" (n ++ r2))) in Hs.
    cbn [str_all] in Hs. apply andb_true_iff in Hs as [_ Hs].
    apply andb_true_iff in Hs as [_ Hs].
    rewrite str_all_app in Hs. apply andb_true_iff in Hs as [Hs1 Hs2].
    repeat split; try assumption.
    + clear -Ha Hs1. induction n as [|d n IH]; [reflexivity|].
      cbn [str_all] in *. apply andb_true_iff in Ha as [Hd Ha].
      apply andb_true_iff in Hs1 as [Hd1 Hs1].
      rewrite (IH Hs1 Ha), andb_true_r.
      apply negb_true_iff in Hd. now apply safe_split.
    + destruct r2 as [|d r2]; [exact I|]. cbn. now apply negb_false_iff in Hb.
    + rewrite !contains_app. intros Hx.
      apply orb_false_iff in Hx as [_ Hx].
      now apply orb_false_iff in Hx as [_ Hx].
  - inversion E; subst. congruence.
Qed.

Lemma split_at_spec (c : ascii) (x a b : string) :
  split_at c x = (a, b) ->
  contains c a = false /\ (x = a ++ String c b \/ (x = a /\ b = "")).
Proof.
  unfold split_at. destruct (partition c x) as [[a' b']|] eqn:P; intros E.
  - inversion E; subst; clear E.
    destruct (partition_some _ _ _ _ P) as [-> Ha]. auto.
  - inversion E; subst; clear E.
    apply partition_contains in P. auto.
Qed.

Lemma split_at_head (c : ascii) (P Q : ascii -> bool) (x a b : string) :
  split_at c x = (a, b) ->
  (forall d, P d = true -> Ascii.eqb d c = false -> Q d = true) ->
  head_in P x -> head_in Q a.
Proof.
  intros E HPQ Hx. destruct (split_at_spec _ _ _ _ E) as [Ha Hsh].
  destruct a as [|d a]; [exact I|]. cbn [contains] in Ha.
  apply orb_false_iff in Ha as [Hd _].
  destruct Hsh as [->|[-> _]]; cbn in Hx |- *; auto.
Qed.

Lemma split_at_safe (c : ascii) (P : ascii -> bool) (x a b : string) :
  split_at c x = (a, b) -> str_all P x = true ->
  str_all P a = true /\ str_all P b = true.
Proof.
  intros E Hx. destruct (split_at_spec _ _ _ _ E) as [_ [->|[-> ->]]].
  - rewrite str_all_app in Hx. apply andb_true_iff in Hx as [Ha Hb].
    cbn [str_all] in Hb. apply andb_true_iff in Hb as [_ Hb]. auto.
  - auto.
Qed.

Lemma split_at_rest (c e : ascii) (x a b : string) :
  split_at c x = (a, b) -> contains e x = false ->
  contains e a = false /\ contains e b = false.
Proof.
  intros E Hx. destruct (split_at_spec _ _ _ _ E) as [_ [->|[-> ->]]].
  - rewrite contains_app in Hx. apply orb_false_iff in Hx as [Ha Hb].
    cbn [contains] in Hb. apply orb_false_iff in Hb as [_ Hb]. auto.
  - auto.
Qed.

Lemma rpartition_contains (c : ascii) (s : string) :
  rpartition c s = None -> contains c s = false.
Proof.
  induction s as [|d s IH]; cbn [rpartition contains]; [reflexivity|].
  destruct (rpartition c s) as [[a b]|]; [discriminate|].
  destruct (Ascii.eqb d c); [discriminate|]. auto.
Qed.

Lemma split_params_stable (s u pa pr : string) :
  (u = "" \/ startswith "/" u = true) ->
  str_all path_char u = true ->
  split_params s u = (pa, pr) ->
  path_ok s pa pr = true.
Proof.
  intros Hu Hc E. unfold path_ok.
  assert (Hdone : forall pa' pr',
    (startswith "/" pa' || (negb (truthy pa') && negb (truthy pr'))) = true ->
    str_all path_char pa' = true -> str_all path_char pr' = true ->
    split_params s (join_params pa' pr') = (pa', pr') ->
    (startswith "/" pa' || (negb (truthy pa') && negb (truthy pr')))
    && str_all path_char pa' && str_all path_char pr'
    && pair_eqb (split_params s (join_params pa' pr')) (pa', pr') = true).
  { intros pa' pr' -> -> -> ->. now rewrite pair_eqb_refl. }
  assert (Hhead : (startswith "/" u || (negb (truthy u) && true)) = true).
  { destruct Hu as [->| ->]; reflexivity. }
  unfold split_params in E.
  destruct (mem s uses_params && contains ";" u) eqn:T.
  - unfold _splitparams in E.
    assert (Hne : startswith "/" u = true).
    { destruct Hu as [->|Hu]; [|assumption].
      cbn in T. now rewrite andb_false_r in T. }
    destruct (rpartition "/" u) as [[h t]|] eqn:R.
    + destruct (rpartition_some _ _ _ _ R) as [Eu Ht].
      destruct (partition ";" t) as [[t1 t2]|] eqn:P.
      * injection E as <- <-.
        destruct (partition_some _ _ _ _ P) as [Et Ht1].
        subst t. subst u.
        rewrite !str_all_app in Hc. cbn [str_all] in Hc.
        rewrite !str_all_app in Hc. cbn [str_all] in Hc.
        rewrite !andb_true_iff in Hc.
        destruct Hc as (Hh & Hsl & Ht1c & Hsc & Ht2c).
        apply Hdone.
        -- assert (Hpa : startswith "/" (h ++ String "/" t1) = true)
             by (destruct h; [reflexivity | exact Hne]).
           now rewrite Hpa.
        -- rewrite str_all_app. cbn [str_all].
           now rewrite Hh, Hsl, Ht1c.
        -- assumption.
        -- unfold join_params. destruct t2 as [|c2 t2]; cbn [truthy].
           ++ unfold split_params.
              destruct (mem s uses_params && contains ";" (h ++ String "/" t1));
                [|reflexivity].
              unfold _splitparams.
              rewrite contains_app in Ht. apply orb_false_iff in Ht as [Ht _].
              rewrite (rpartition_app "/" h t1 Ht).
              now rewrite (partition_none _ _ Ht1).
           ++ rewrite sapp_assoc. cbn [append].
              unfold split_params. rewrite T. unfold _splitparams.
              now rewrite R, P.
      * injection E as <- <-.
        apply Hdone; try assumption; try reflexivity.
        unfold join_params. cbn [truthy].
           unfold split_params. rewrite T. unfold _splitparams.
           now rewrite R, P.
    + apply rpartition_contains in R.
      destruct u as [|d u]; [discriminate|].
      apply startswith_char in Hne. subst d. discriminate.
  - injection E as <- <-.
    apply Hdone; try assumption; try reflexivity.
    unfold join_params. cbn [truthy]. unfold split_params. now rewrite T.
Qed.

Lemma path_chars_intro (s : string) :
  str_all is_safe s = true ->
  contains "?" s = false -> contains "#" s = false ->
  str_all path_char s = true.
Proof.
  induction s as [|d s IH]; [reflexivity|]. cbn [str_all contains].
  rewrite andb_true_iff, !orb_false_iff.
  intros [Hd Hs] [Hq1 Hq2] [Hf1 Hf2].
  rewrite (IH Hs Hq2 Hf2), andb_true_r. now apply safe_split.
Qed.

Lemma query_chars_intro (s : string) :
  str_all is_safe s = true -> contains "#" s = false ->
  str_all query_char s = true.
Proof.
  induction s as [|d s IH]; [reflexivity|]. cbn [str_all contains].
  rewrite andb_true_iff, !orb_false_iff.
  intros [Hd Hs] [Hf1 Hf2].
  rewrite (IH Hs Hf2), andb_true_r. now apply safe_split.
Qed.

Lemma head_slash (s : string) :
  head_in (fun d => Ascii.eqb d "/") s -> s = "" \/ startswith "/" s = true.
Proof.
  destruct s as [|d s]; [now left|]. cbn [head_in]. intros E.
  right. apply Ascii.eqb_eq in E. now subst d.
Qed.

(** Behind a network location, [urlparse] returns well-formed components. *)
Lemma urlparse_well_formed `{HostChecks} (u : string) (p : ParseResult) :
  urlparse u = Ok p -> netloc p <> "" ->
  well_formed (without_fragment p) = true.
Proof.
  intros Hp Hn.
  destruct (urlparse_inv u p Hp) as (r & Hr & Es & En & Eq & Ef & Epar).
  destruct (urlsplit_inv u r Hr) as (r1 & r2 & r3 & S1 & S2 & S3 & S4 & Hck & _).
  rewrite <- En in S2, Hck. rewrite <- Es in S1, Epar. rewrite <- Eq in S4.
  destruct (split_scheme_spec _ _ _ S1 (clean_url_safe u)) as (Hsch & Hr1 & _).
  destruct (split_authority_spec _ _ _ S2 Hn Hr1) as (Hnc & Hbr & Hr2 & Hh2 & _).
  destruct (split_at_spec _ _ _ _ S3) as [Hf3 _].
  destruct (split_at_safe _ is_safe _ _ _ S3 Hr2) as [Hr3 _].
  assert (Hh3 : head_in (fun d => Ascii.eqb d "/" || Ascii.eqb d "?") r3).
  { apply (split_at_head _ is_netloc_delim _ _ _ _ S3); [|exact Hh2].
    intros d. by_cases_on_char d. }
  destruct (split_at_spec _ _ _ _ S4) as [Hq4 _].
  destruct (split_at_safe _ is_safe _ _ _ S4 Hr3) as [Hpa Hqs].
  destruct (split_at_rest _ "#" _ _ _ S4 Hf3) as [Hpf Hqf].
  assert (Hh4 : head_in (fun d => Ascii.eqb d "/") (path r)).
  { apply (split_at_head _ (fun d => Ascii.eqb d "/" || Ascii.eqb d "?") _ _ _ _ S4);
      [|exact Hh3].
    intros d. by_cases_on_char d. }
  pose proof (path_chars_intro _ Hpa Hq4 Hpf) as Hpc.
  pose proof (query_chars_intro _ Hqs Hqf) as Hqc.
  pose proof (split_params_stable _ _ _ _ (head_slash _ Hh4) Hpc Epar) as Hpo.
  unfold well_formed, without_fragment, netloc_ok.
  cbn [scheme netloc path params query fragment].
  apply truthy_true in Hn.
  now rewrite Hsch, Hn, Hnc, Hbr, Hck, Hpo, Hqc.
Qed.

(** *** Lower case keeps a network location acceptable *)

Section Lowering.
Context `{HostChecks} {L : HostChecksLaws}.

Lemma check_bracketed_host_lower (h : string) :
  _check_bracketed_host h = true -> _check_bracketed_host (lower h) = true.
Proof.
  unfold _check_bracketed_host.
  destruct (startswith "v" h) eqn:V.
  - destruct h as [|c r]; [discriminate|].
    apply startswith_char in V. subst c.
    change (lower (String "v" r)) with (String "v" (lower r)).
    cbn [startswith]. rewrite Ascii.eqb_refl. cbn [andb].
    unfold ipvfuture_match. rewrite Ascii.eqb_refl. cbn [andb].
    rewrite (span_lower is_hex r is_hex_lower).
    destruct (span is_hex r) as [digits rest].
    rewrite lower_truthy. destruct (truthy digits); [|discriminate]. cbn [andb].
    destruct rest as [|d tail]; [discriminate|].
    change (lower (String d tail)) with (String (lower_char d) (lower tail)).
    cbv beta iota.
    rewrite (eqb_lower_char "." d eq_refl), lower_truthy.
    now rewrite (contains_lower (ascii_of_nat 10) tail eq_refl).
  - intros Hv. rewrite (ipv6_not_v h Hv). now apply ipv6_lower.
Qed.

Lemma check_host_and_port_lower (hp : string) :
  check_host_and_port hp = true -> check_host_and_port (lower hp) = true.
Proof.
  unfold check_host_and_port.
  rewrite (partition_lower "[" hp eq_refl).
  destruct (partition "[" hp) as [[before bracketed]|].
  - rewrite lower_truthy. destruct (truthy before); [discriminate|].
    rewrite (partition_lower "]" bracketed eq_refl).
    destruct (partition "]" bracketed) as [[h p]|].
    + rewrite lower_truthy, (startswith_lower ":" p eq_refl).
      destruct (truthy p && negb (startswith ":" p)); [discriminate|].
      apply check_bracketed_host_lower.
    + cbn [truthy andb]. apply check_bracketed_host_lower.
  - rewrite (partition_lower ":" hp eq_refl).
    destruct (partition ":" hp) as [[h p]|]; apply check_bracketed_host_lower.
Qed.

Lemma brackets_ok_lower (n : string) :
  brackets_ok n = true -> brackets_ok (lower n) = true.
Proof.
  unfold brackets_ok.
  rewrite (contains_lower "[" n eq_refl), (contains_lower "]" n eq_refl).
  destruct (contains "[" n), (contains "]" n); cbn; try discriminate; auto.
  unfold _check_bracketed_netloc, after_last_at.
  rewrite (rpartition_lower "@" n eq_refl).
  destruct (rpartition "@" n) as [[a b]|]; apply check_host_and_port_lower.
Qed.

Lemma checknetloc_lower (n : string) :
  _checknetloc n = true -> _checknetloc (lower n) = true.
Proof.
  unfold _checknetloc.
  rewrite lower_truthy, (str_all_lower is_ascii n is_ascii_lower).
  destruct (negb (truthy n) || str_all is_ascii n); [reflexivity|].
  apply nfkc_lower.
Qed.

Lemma netloc_ok_lower (n : string) :
  netloc_ok n = true -> netloc_ok (lower n) = true.
Proof.
  unfold netloc_ok. rewrite !andb_true_iff.
  intros [[[H1 H2] H3] H4].
  rewrite lower_truthy, (str_all_lower netloc_char n netloc_char_lower).
  now rewrite H1, H2, (brackets_ok_lower n H3), (checknetloc_lower n H4).
Qed.

Lemma well_formed_lowered (p : ParseResult) :
  well_formed (without_fragment p) = true -> well_formed (lowered p) = true.
Proof.
  unfold well_formed, without_fragment, lowered.
  cbn [scheme netloc path params query fragment].
  rewrite !andb_true_iff. intros [[[[Hs Hn] Hp] Hq] _].
  destruct (scheme_ok_chars _ Hs) as [_ Hl]. rewrite Hl.
  now rewrite Hs, (netloc_ok_lower _ Hn), Hp, Hq.
Qed.

End Lowering.

End UrlFacts.

(* ================================================================= *)
(** * Part IV: [util.py] *)
(* ================================================================= *)

Module UtilFacts.
Import Py PyFacts Urllib UrlSpec UrlFacts Util.

(** *** The filename extension *)

Lemma split_nosep (c : ascii) (x : string) :
  contains c x = false -> split c x = [x].
Proof.
  induction x as [|d x IH]; [reflexivity|]. cbn [contains split].
  intros Hx. apply orb_false_iff in Hx as [Hd Hx].
  now rewrite Hd, (IH Hx).
Qed.

Lemma split_last_app (c : ascii) (pre x : string) :
  contains c x = false ->
  exists l seg, split c (pre ++ x) = (l ++ [(seg ++ x)%string])%list.
Proof.
  intros Hx. induction pre as [|d pre IH].
  - exists [], "". cbn [append app]. now apply split_nosep.
  - destruct IH as (l & seg & E). cbn [append split]. rewrite E.
    destruct (Ascii.eqb d c).
    + now exists ("" :: l), seg.
    + destruct l as [|h t]; cbn [app].
      * now exists [], (String d seg).
      * now exists (String d h :: t), seg.
Qed.

Lemma span_app_stop (p : ascii -> bool) (c : ascii) (seg y : string) :
  p c = false ->
  exists a b, span p (seg ++ String c y) = (a, b ++ String c y).
Proof.
  intros Hc. induction seg as [|d seg IH]; cbn [append span].
  - rewrite Hc. now exists "", "".
  - destruct IH as (a & b & E). rewrite E.
    destruct (p d).
    + now exists (String d a), b.
    + now exists "", (String d seg).
Qed.

Lemma str_all_rev (P : ascii -> bool) (s : string) :
  str_all P (rev s) = str_all P s.
Proof.
  induction s as [|c s IH]; [reflexivity|].
  rewrite rev_cons, str_all_app, IH. cbn [str_all].
  now rewrite andb_true_r, andb_comm.
Qed.

Lemma ext_match_here_some (r g : string) :
  ext_match_here r = Some g ->
  truthy g = true /\ str_all is_alnum g = true.
Proof.
  unfold ext_match_here.
  destruct (span is_alnum r) as [run rest] eqn:S.
  destruct (span_spec _ _ _ _ S) as (_ & Hrun & _).
  destruct (truthy run) eqn:T; cbn [andb]; [|discriminate].
  destruct (_ || _); [|discriminate].
  intros E. injection E as <-. auto.
Qed.

Lemma ext_search_some (s g : string) :
  ext_search s = Some g ->
  truthy g = true /\ str_all is_alnum g = true.
Proof.
  induction s as [|d s IH]; cbn [ext_search]; [discriminate|].
  destruct (Ascii.eqb d "."); [|exact IH].
  destruct (ext_match_here s) as [g'|] eqn:M; [|exact IH].
  intros E. injection E as <-. exact (ext_match_here_some _ _ M).
Qed.

Lemma alnum_plain (c : ascii) :
  is_alnum c = true ->
  Ascii.eqb c "/" = false /\ Ascii.eqb c "." = false
  /\ Ascii.eqb c (ascii_of_nat 10) = false.
Proof. by_cases_on_char c. Qed.

Lemma ext_match_here_dot (seg g : string) :
  ext_match_here (seg ++ String "." g) = None.
Proof.
  unfold ext_match_here.
  destruct (span_app_stop is_alnum "." seg g eq_refl) as (a & b & E).
  rewrite E.
  assert (E1 : String.eqb (b ++ String "." g) "" = false) by now destruct b.
  assert (E2 : String.eqb (b ++ String "." g) (String (ascii_of_nat 10) "")
               = false).
  { destruct b as [|x b]; [reflexivity|]. cbn [append String.eqb].
    destruct (Ascii.eqb x (ascii_of_nat 10)); [|reflexivity]. now destruct b. }
  now rewrite E1, E2, andb_false_r.
Qed.

Lemma ext_match_here_run (g : string) :
  truthy g = true -> str_all is_alnum g = true -> ext_match_here g = Some g.
Proof.
  intros Hg Ha. unfold ext_match_here.
  rewrite <- (sapp_nil_r g) at 1. rewrite (span_app is_alnum g "" Ha I).
  now rewrite Hg.
Qed.

Lemma ext_search_dot (seg g : string) :
  truthy g = true -> str_all is_alnum g = true ->
  ext_search (seg ++ String "." g) = Some g.
Proof.
  intros Hg Ha. induction seg as [|d seg IH].
  - cbn [append ext_search]. change (Ascii.eqb "." ".") with true. cbv iota.
    now rewrite (ext_match_here_run g Hg Ha).
  - cbn [append ext_search]. rewrite ext_match_here_dot, IH.
    now destruct (Ascii.eqb d ".").
Qed.

Lemma str_all_not_in (P : ascii -> bool) (c : ascii) (s : string) :
  (forall d, P d = true -> Ascii.eqb d c = false) ->
  str_all P s = true -> contains c s = false.
Proof.
  intros HP. induction s as [|d s IH]; [reflexivity|].
  cbn [str_all contains]. rewrite andb_true_iff. intros [Hd Hs].
  now rewrite (HP d Hd), (IH Hs).
Qed.

Lemma extension_no_slash (g : string) :
  str_all is_alnum g = true -> contains "/" ("." ++ g) = false.
Proof.
  intros Ha. cbn [append contains].
  change (Ascii.eqb "." "/") with false. cbn [orb].
  apply (str_all_not_in is_alnum); [|exact Ha].
  intros d Hd. now apply alnum_plain in Hd.
Qed.

(** The last non-empty segment of a path ends with whatever follows the
    last slash. *)
Lemma segments_of_suffix (pre x : string) :
  contains "/" x = false -> truthy x = true ->
  exists ys seg,
    filter truthy (split "/" (pre ++ x)) = (ys ++ [(seg ++ x)%string])%list.
Proof.
  intros Hns Hx.
  destruct (split_last_app "/" pre x Hns) as (l & seg & E).
  exists (filter truthy l), seg. rewrite E, filter_app. cbn [filter].
  assert (Hs : truthy (seg ++ x) = true)
    by (destruct seg; [exact Hx | reflexivity]).
  now rewrite Hs.
Qed.

Lemma endswith_slash_alnum (pre g : string) :
  g <> "" -> str_all is_alnum g = true ->
  endswith "/" (pre ++ "." ++ g) = false.
Proof.
  intros Hg Ha. unfold endswith.
  change ("." ++ g) with (String "." g). change (rev "/") with "/".
  rewrite rev_app, rev_cons, sapp_assoc.
  rewrite <- (str_all_rev is_alnum g) in Ha.
  assert (Hr : rev g <> "").
  { intros E. apply Hg. rewrite <- (rev_involutive g), E. reflexivity. }
  destruct (rev g) as [|c r]; [congruence|].
  cbn [str_all] in Ha. apply andb_true_iff in Ha as [Hc _].
  cbn [append startswith].
  apply alnum_plain in Hc as [Hc _].
  rewrite Ascii.eqb_sym, Hc. reflexivity.
Qed.

Lemma split_nonempty (c : ascii) (s : string) : split c s <> [].
Proof.
  induction s as [|d s IH]; cbn [split]; [discriminate|].
  destruct (Ascii.eqb d c); [discriminate|].
  destruct (split c s); [congruence | discriminate].
Qed.

Lemma split_app_sep (c : ascii) (h t : string) :
  contains c t = false ->
  split c (h ++ String c t) = (split c h ++ [t])%list.
Proof.
  intros Ht. induction h as [|d h IH]; cbn [append split].
  - rewrite Ascii.eqb_refl. now rewrite (split_nosep c t Ht).
  - rewrite IH. destruct (Ascii.eqb d c); [reflexivity|].
    pose proof (split_nonempty c h) as Hn.
    destruct (split c h) as [|x xs]; [congruence | reflexivity].
Qed.

(** The last non-empty segment of a path that does not end in a slash is
    its file name. *)
Lemma last_segment (pth : string) :
  truthy pth = true -> endswith "/" pth = false ->
  exists ys, filter truthy (split "/" pth) = (ys ++ [file_name pth])%list.
Proof.
  intros Ht He. unfold file_name.
  destruct (rpartition "/" pth) as [[h t]|] eqn:R.
  - destruct (rpartition_some _ _ _ _ R) as [-> Hns].
    rewrite (split_app_sep "/" h t Hns), filter_app. cbn [filter].
    destruct t as [|x t].
    + change (h ++ String "/" "") with (h ++ "/") in He.
      rewrite endswith_app in He. discriminate.
    + cbn [truthy]. now exists (filter truthy (split "/" h)).
  - apply rpartition_contains in R. rewrite (split_nosep "/" pth R).
    cbn [filter]. rewrite Ht. now exists [].
Qed.

Lemma file_name_without (e : ascii) (pth : string) :
  contains e pth = false -> contains e (file_name pth) = false.
Proof.
  intros He. unfold file_name.
  destruct (rpartition "/" pth) as [[h t]|] eqn:R; [|exact He].
  destruct (rpartition_some _ _ _ _ R) as [-> _].
  rewrite contains_app in He. apply orb_false_iff in He as [_ He].
  cbn [contains] in He. now apply orb_false_iff in He.
Qed.

Lemma ext_search_nodot (s : string) :
  contains "." s = false -> ext_search s = None.
Proof.
  induction s as [|d s IH]; [reflexivity|]. cbn [contains ext_search].
  intros Hs. apply orb_false_iff in Hs as [Hd Hs]. rewrite Hd. auto.
Qed.

(** The search reaches the last dot, and no match starts before it. *)
Lemma ext_search_last_dot (a g : string) :
  contains "." g = false ->
  ext_search (a ++ String "." g) = ext_match_here g.
Proof.
  intros Hg. induction a as [|d a IH]; cbn [append ext_search].
  - change (Ascii.eqb "." ".") with true. cbv iota.
    rewrite (ext_search_nodot g Hg). now destruct (ext_match_here g).
  - rewrite ext_match_here_dot, IH. now destruct (Ascii.eqb d ".").
Qed.

Lemma ext_match_here_spec (g : string) :
  contains (ascii_of_nat 10) g = false ->
  ext_match_here g
  = if truthy g && str_all is_alnum g then Some g else None.
Proof.
  intros Hnl. unfold ext_match_here.
  destruct (span is_alnum g) as [run rest] eqn:S.
  destruct (span_spec _ _ _ _ S) as (-> & Hrun & Hrest).
  destruct rest as [|x rest].
  - rewrite sapp_nil_r, Hrun. cbn [String.eqb orb].
    rewrite !andb_true_r. now destruct (truthy run).
  - rewrite str_all_app, Hrun. cbn [str_all]. rewrite Hrest.
    cbn [andb]. rewrite andb_false_r.
    assert (E : String.eqb (String x rest) (String (ascii_of_nat 10) "")
                = false).
    { cbn [String.eqb].
      destruct (Ascii.eqb_spec x (ascii_of_nat 10)) as [->|]; [|reflexivity].
      rewrite contains_app in Hnl. cbn [contains] in Hnl.
      rewrite Ascii.eqb_refl, orb_true_r in Hnl. discriminate. }
    rewrite E. cbn [String.eqb orb]. now rewrite andb_false_r.
Qed.

(** On a name without a newline the pattern finds the extension of the
    name. *)
Lemma ext_search_extension (name : string) :
  contains (ascii_of_nat 10) name = false ->
  ext_search name = extension name.
Proof.
  intros Hnl. unfold extension.
  destruct (rpartition "." name) as [[a g]|] eqn:R.
  - destruct (rpartition_some _ _ _ _ R) as [-> Hg].
    rewrite (ext_search_last_dot a g Hg). apply ext_match_here_spec.
    rewrite contains_app in Hnl. apply orb_false_iff in Hnl as [_ Hnl].
    cbn [contains] in Hnl. now apply orb_false_iff in Hnl.
  - apply ext_search_nodot. now apply rpartition_contains.
Qed.

Lemma filename_extension_spec (pth : string) :
  truthy pth = true -> endswith "/" pth = false ->
  contains (ascii_of_nat 10) pth = false ->
  _filename_extension pth
  = match extension (file_name pth) with
    | Some g => "." ++ lower g
    | None => ""
    end.
Proof.
  intros Ht He Hnl. unfold _filename_extension. rewrite Ht. cbn [negb].
  destruct (last_segment pth Ht He) as [ys E]. rewrite E.
  destruct (ys ++ [file_name pth])%list as [|y ys'] eqn:F;
    [now destruct ys|].
  rewrite <- F, last_last.
  now rewrite (ext_search_extension _ (file_name_without _ _ Hnl)).
Qed.

(** The three tests that close [is_url_ok_to_follow], on a path without
    a newline, say that the path is the path of a page. *)
Lemma page_tests (pth : string) :
  contains (ascii_of_nat 10) pth = false ->
  (let path := if truthy pth then pth else "/" in
   if endswith "/" path then true
   else if String.eqb (_filename_extension path) "" then true
   else if String.eqb (_filename_extension path) ".html" then true
   else false)
  = page_path pth.
Proof.
  intros Hnl. unfold page_path. destruct pth as [|c pth]; [reflexivity|].
  cbn [truthy negb orb]. cbv zeta.
  destruct (endswith "/" (String c pth)) eqn:E; [reflexivity|].
  rewrite (filename_extension_spec (String c pth) eq_refl E Hnl). cbn [orb].
  destruct (extension (file_name (String c pth))) as [g|]; [|reflexivity].
  cbn [append String.eqb]. change (Ascii.eqb "." ".") with true. cbv iota.
  now destruct (String.eqb (lower g) "html").
Qed.

(** *** Characters that a parse neither adds nor keeps *)

Lemma remove_by_without (p : ascii -> bool) (e : ascii) (s : string) :
  contains e s = false -> contains e (remove_by p s) = false.
Proof.
  induction s as [|d s IH]; [reflexivity|]. cbn [contains remove_by].
  intros Hs. apply orb_false_iff in Hs as [Hd Hs].
  destruct (p d); cbn [contains]; rewrite ?Hd; auto.
Qed.

Lemma lstrip_by_without (p : ascii -> bool) (e : ascii) (s : string) :
  contains e s = false -> contains e (lstrip_by p s) = false.
Proof.
  induction s as [|d s IH]; [reflexivity|]. cbn [lstrip_by].
  intros Hs. destruct (p d); [|exact Hs].
  cbn [contains] in Hs. apply orb_false_iff in Hs as [_ Hs]. auto.
Qed.

Lemma drop_last_without (e : ascii) (s : string) :
  contains e s = false -> contains e (drop_last s) = false.
Proof.
  induction s as [|d s IH]; [reflexivity|]. cbn [contains drop_last].
  intros Hs. apply orb_false_iff in Hs as [Hd Hs].
  destruct s as [|d' s']; [reflexivity|].
  cbn [contains]. rewrite Hd. exact (IH Hs).
Qed.

Lemma split_params_without (e : ascii) (s url pa pr : string) :
  split_params s url = (pa, pr) -> contains e url = false ->
  contains e pa = false /\ contains e pr = false.
Proof.
  unfold split_params, _splitparams. intros E Hu.
  destruct (mem s uses_params && contains ";" url).
  - destruct (rpartition "/" url) as [[h t]|] eqn:R.
    + destruct (rpartition_some _ _ _ _ R) as [-> _].
      rewrite contains_app in Hu. apply orb_false_iff in Hu as [Hh Ht].
      cbn [contains] in Ht. apply orb_false_iff in Ht as [Hsl Ht].
      destruct (partition ";" t) as [[t1 t2]|] eqn:P.
      * destruct (partition_some _ _ _ _ P) as [-> _].
        rewrite contains_app in Ht. apply orb_false_iff in Ht as [Ht1 Ht2].
        cbn [contains] in Ht2. apply orb_false_iff in Ht2 as [_ Ht2].
        injection E as <- <-. split; [|exact Ht2].
        rewrite contains_app, Hh. cbn [append contains orb].
        now rewrite Hsl, Ht1.
      * injection E as <- <-. split; [|reflexivity].
        rewrite contains_app, Hh. cbn [contains orb]. now rewrite Hsl, Ht.
    + destruct (partition ";" url) as [[a b]|] eqn:P.
      * destruct (partition_some _ _ _ _ P) as [-> _].
        rewrite contains_app in Hu. apply orb_false_iff in Hu as [Ha Hb].
        cbn [contains] in Hb. apply orb_false_iff in Hb as [_ Hb].
        injection E as <- <-. auto.
      * injection E as <- <-. split; [now apply drop_last_without | exact Hu].
  - injection E as <- <-. auto.
Qed.

Lemma split_authority_parts `{HostChecks} (r1 n r2 : string) :
  split_authority r1 = Ok (n, r2) ->
  str_all (fun c => negb (is_netloc_delim c)) n = true
  /\ forall e, contains e r1 = false ->
               contains e n = false /\ contains e r2 = false.
Proof.
  unfold split_authority, _splitnetloc. intros E.
  destruct (startswith "//" r1) eqn:S1.
  - destruct (startswith_inv _ _ S1) as [x ->].
    change (drop 2 ("//" ++ x)) with x in E.
    destruct (span (fun c => negb (is_netloc_delim c)) x) as [a b] eqn:Sp.
    destruct (brackets_ok a); [|discriminate].
    injection E as <- <-.
    destruct (span_spec _ _ _ _ Sp) as (-> & Ha & _).
    split; [exact Ha|]. intros e He.
    rewrite !contains_app in He.
    apply orb_false_iff in He as [_ He]. now apply orb_false_iff in He.
  - injection E as <- <-. split; [reflexivity|]. intros e He. auto.
Qed.

Lemma split_scheme_without (e : ascii) (c s r1 : string) :
  is_alpha e = false ->
  split_scheme c = (s, r1) -> contains e c = false ->
  contains e s = false /\ contains e r1 = false.
Proof.
  unfold split_scheme. intros He E Hc.
  destruct (partition ":" c) as [[pre rest]|] eqn:P.
  - destruct (partition_some _ _ _ _ P) as [-> _].
    rewrite contains_app in Hc. apply orb_false_iff in Hc as [Hpre Hrest].
    cbn [contains] in Hrest. apply orb_false_iff in Hrest as [Hcolon Hrest].
    assert (Hall : contains e (pre ++ ":" ++ rest) = false).
    { rewrite contains_app, Hpre. cbn [append contains orb].
      now rewrite Hcolon, Hrest. }
    destruct pre as [|ch pre].
    + injection E as <- <-. split; [reflexivity | exact Hall].
    + destruct (is_alpha ch && str_all is_scheme_char (String ch pre)).
      * injection E as <- <-. split; [|exact Hrest].
        now rewrite (contains_lower e _ He).
      * injection E as <- <-. split; [reflexivity | exact Hall].
  - injection E as <- <-. auto.
Qed.

Lemma clean_url_without (e : ascii) (u : string) :
  contains e u = false -> contains e (clean_url u) = false.
Proof.
  intros Hu. unfold clean_url.
  now apply remove_by_without, lstrip_by_without.
Qed.

(** A character that is not a letter and does not occur in a URL once
    it is cleaned occurs in none of its components. *)
Lemma urlparse_without_clean `{HostChecks} (e : ascii) (u : string)
    (p : ParseResult) :
  is_alpha e = false ->
  urlparse u = Ok p -> contains e (clean_url u) = false ->
  contains e (scheme p) = false /\ contains e (netloc p) = false
  /\ contains e (path p) = false /\ contains e (params p) = false
  /\ contains e (query p) = false /\ contains e (fragment p) = false.
Proof.
  intros He Hp Hu.
  destruct (urlparse_inv u p Hp) as (r & Hr & Es & En & Eq & Ef & Epar).
  destruct (urlsplit_inv u r Hr) as (r1 & r2 & r3 & S1 & S2 & S3 & S4 & _).
  rewrite Es, En, Eq, Ef.
  destruct (split_scheme_without e _ _ _ He S1 Hu) as [Hs Hr1].
  destruct (split_authority_parts _ _ _ S2) as [_ Hparts].
  destruct (Hparts e Hr1) as [Hn Hr2].
  destruct (split_at_rest _ e _ _ _ S3 Hr2) as [Hr3 Hf].
  destruct (split_at_rest _ e _ _ _ S4 Hr3) as [Hpa Hq].
  destruct (split_params_without e _ _ _ _ Epar Hpa) as [Hpa' Hpr].
  auto 10.
Qed.

Lemma urlparse_without `{HostChecks} (e : ascii) (u : string) (p : ParseResult) :
  is_alpha e = false ->
  urlparse u = Ok p -> contains e u = false ->
  contains e (scheme p) = false /\ contains e (netloc p) = false
  /\ contains e (path p) = false /\ contains e (params p) = false
  /\ contains e (query p) = false /\ contains e (fragment p) = false.
Proof.
  intros He Hp Hu.
  exact (urlparse_without_clean e u p He Hp (clean_url_without e u Hu)).
Qed.

(** No path holds a newline: [urlsplit] removes them all. *)
Lemma urlparse_path_line `{HostChecks} (u : string) (p : ParseResult) :
  urlparse u = Ok p -> contains (ascii_of_nat 10) (path p) = false.
Proof.
  intros Hp.
  apply (urlparse_without_clean (ascii_of_nat 10) u p eq_refl Hp).
  apply (str_all_not_contains is_safe); [reflexivity | apply clean_url_safe].
Qed.

(** No component but the fragment holds a [#]. *)
Lemma urlparse_no_hash `{HostChecks} (u : string) (p : ParseResult) :
  urlparse u = Ok p ->
  contains "#" (scheme p) = false /\ contains "#" (netloc p) = false
  /\ contains "#" (path p) = false /\ contains "#" (params p) = false
  /\ contains "#" (query p) = false.
Proof.
  intros Hp.
  destruct (urlparse_inv u p Hp) as (r & Hr & Es & En & Eq & Ef & Epar).
  destruct (urlsplit_inv u r Hr) as (r1 & r2 & r3 & S1 & S2 & S3 & S4 & _).
  rewrite Es, En, Eq.
  destruct (split_scheme_spec _ _ _ S1 (clean_url_safe u)) as (Hsch & _ & _).
  destruct (scheme_ok_chars _ Hsch) as [Hsc _].
  destruct (split_authority_parts _ _ _ S2) as [Hnc _].
  destruct (split_at_spec _ _ _ _ S3) as [Hr3 _].
  destruct (split_at_rest _ "#" _ _ _ S4 Hr3) as [Hpa Hq].
  destruct (split_params_without "#" _ _ _ _ Epar Hpa) as [Hpa' Hpr].
  repeat split; try assumption.
  - now apply (str_all_not_contains is_scheme_char).
  - now apply (str_all_not_contains (fun c => negb (is_netloc_delim c))).
Qed.

(** Joining adds none of the characters outside [/ : ? ;]. *)
Lemma urlunparse_without (e : ascii) (p : ParseResult) :
  contains e "/:?;" = false ->
  fragment p = "" ->
  contains e (scheme p) = false -> contains e (netloc p) = false ->
  contains e (path p) = false -> contains e (params p) = false ->
  contains e (query p) = false ->
  contains e (urlunparse p) = false.
Proof.
  intros Hlit Hf Hs Hn Hpa Hpr Hq.
  cbn [contains] in Hlit. rewrite !orb_false_iff in Hlit.
  destruct Hlit as (H1 & H2 & H3 & H4 & _).
  rewrite Ascii.eqb_sym in H1, H2, H3, H4.
  assert (Hlits : forall x, contains e x = false ->
            contains e ("/" ++ x) = false /\ contains e (":" ++ x) = false
            /\ contains e ("?" ++ x) = false /\ contains e (";" ++ x) = false).
  { intros x Hx. cbn [append contains].
    rewrite (Ascii.eqb_sym "/"), (Ascii.eqb_sym ":"), (Ascii.eqb_sym "?"),
      (Ascii.eqb_sym ";"), H1, H2, H3, H4, Hx. auto. }
  assert (Hj : contains e (join_params (path p) (params p)) = false).
  { unfold join_params. destruct (truthy (params p)); [|exact Hpa].
    rewrite contains_app, Hpa. now apply Hlits. }
  unfold urlunparse, urlunsplit. rewrite Hf. cbn [truthy].
  set (u0 := join_params (path p) (params p)) in *.
  assert (Hu1 : contains e (if truthy u0 && negb (startswith "/" u0)
                            then "/" ++ u0 else u0) = false).
  { destruct (truthy u0 && negb (startswith "/" u0)); [|exact Hj].
    now apply Hlits. }
  set (u1 := if truthy u0 && negb (startswith "/" u0) then "/" ++ u0 else u0)
    in *.
  assert (Hu2 : contains e ("//" ++ netloc p ++ u1) = false).
  { change ("//" ++ netloc p ++ u1) with ("/" ++ "/" ++ netloc p ++ u1).
    apply Hlits, Hlits. now rewrite contains_app, Hn, Hu1. }
  set (u2 := if truthy (netloc p)
                || truthy (scheme p) && mem (scheme p) uses_netloc
                   && negb (startswith "//" u0)
             then "//" ++ netloc p ++ u1 else u0).
  assert (Hu2' : contains e u2 = false) by (unfold u2; now destruct (_ || _)).
  set (u3 := if truthy (scheme p) then scheme p ++ ":" ++ u2 else u2).
  assert (Hu3 : contains e u3 = false).
  { unfold u3. destruct (truthy (scheme p)); [|exact Hu2'].
    rewrite contains_app, Hs. now apply Hlits. }
  destruct (truthy (query p)); [|exact Hu3].
  rewrite contains_app, Hu3. now apply Hlits.
Qed.

(** *** Absolute URLs *)

Lemma urlparse_empty `{HostChecks} :
  urlparse "" = Ok (mkParseResult "" "" "" "" "" "").
Proof. reflexivity. Qed.

Lemma is_absolute_url_spec `{HostChecks} (url : string) (p : ParseResult) :
  urlparse url = Ok p ->
  is_absolute_url url
  = Ok (mem (scheme p) ["http"; "https"] && truthy (netloc p)).
Proof.
  intros Hp. unfold is_absolute_url. destruct url as [|c url].
  - rewrite urlparse_empty in Hp. now inversion Hp.
  - cbn [truthy negb]. now rewrite Hp.
Qed.

Lemma lower_letter_facts (c d : ascii) :
  lower_char c = d -> is_lower d = true ->
  is_alpha c = true /\ is_scheme_char c = true /\ is_unsafe c = false
  /\ is_c0_or_space c = false /\ Ascii.eqb c ":" = false.
Proof.
  intros <-.
  destruct c as [[] [] [] [] [] [] [] []]; vm_compute; intuition congruence.
Qed.

Lemma lower_colon (c : ascii) : lower_char c = ":"%char -> c = ":"%char.
Proof.
  destruct c as [[] [] [] [] [] [] [] []]; vm_compute; congruence.
Qed.

(** A URL written with the prefix [mailto:], in any case, has the scheme
    [mailto]. *)
Lemma mailto_scheme `{HostChecks} (url : string) (p : ParseResult) :
  startswith "mailto:" (lower url) = true ->
  urlparse url = Ok p -> scheme p = "mailto".
Proof.
  intros Hm Hp.
  destruct (urlparse_inv url p Hp) as (r & Hr & Es & _).
  rewrite Es. clear Es.
  destruct (urlsplit_inv url r Hr) as (r1 & r2 & r3 & S1 & _).
  destruct url as [|c1 [|c2 [|c3 [|c4 [|c5 [|c6 [|c7 rest]]]]]]];
    cbn [lower str_map startswith] in Hm;
    rewrite ?andb_false_r in Hm; try discriminate Hm.
  rewrite !andb_true_iff in Hm.
  destruct Hm as (E1 & E2 & E3 & E4 & E5 & E6 & E7 & _).
  apply Ascii.eqb_eq in E1, E2, E3, E4, E5, E6, E7.
  symmetry in E1, E2, E3, E4, E5, E6, E7.
  apply lower_colon in E7. subst c7.
  destruct (lower_letter_facts c1 _ E1 eq_refl) as (A1 & B1 & C1 & D1 & F1).
  destruct (lower_letter_facts c2 _ E2 eq_refl) as (_ & B2 & C2 & _ & F2).
  destruct (lower_letter_facts c3 _ E3 eq_refl) as (_ & B3 & C3 & _ & F3).
  destruct (lower_letter_facts c4 _ E4 eq_refl) as (_ & B4 & C4 & _ & F4).
  destruct (lower_letter_facts c5 _ E5 eq_refl) as (_ & B5 & C5 & _ & F5).
  destruct (lower_letter_facts c6 _ E6 eq_refl) as (_ & B6 & C6 & _ & F6).
  unfold clean_url in S1. cbn [lstrip_by] in S1. rewrite D1 in S1.
  cbn [remove_by] in S1. rewrite C1, C2, C3, C4, C5, C6 in S1.
  change (is_unsafe ":") with false in S1. cbv iota in S1.
  unfold split_scheme in S1. cbn [partition] in S1.
  rewrite F1, F2, F3, F4, F5, F6 in S1.
  change (Ascii.eqb ":" ":") with true in S1. cbv iota in S1.
  cbn [str_all] in S1. rewrite A1, B1, B2, B3, B4, B5, B6 in S1.
  cbn [andb lower str_map] in S1.
  rewrite E1, E2, E3, E4, E5, E6 in S1.
  now inversion S1.
Qed.

Lemma str_lower_ascii `{Unicode} (s : string) :
  str_all is_ascii s = true -> str_lower s = lower s.
Proof. intros Hs. unfold str_lower. now rewrite Hs. Qed.

Lemma c0_facts (c : ascii) :
  is_c0_or_space c = true ->
  is_ascii c = true /\ lower_char c = c /\ c <> "m"%char.
Proof. by_cases_on_char c. Qed.

Lemma not_c0_safe (c : ascii) :
  is_c0_or_space c = false -> is_unsafe c = false.
Proof. by_cases_on_char c. Qed.

Lemma alpha_ascii (c : ascii) : is_alpha c = true -> is_ascii c = true.
Proof. by_cases_on_char c. Qed.

(** The first character of a URL with a scheme is blank, or it is the
    letter that opens the scheme. *)
Lemma url_head `{HostChecks} (c : ascii) (u : string) (p : ParseResult) :
  urlparse (String c u) = Ok p -> scheme p <> "" ->
  is_c0_or_space c = true
  \/ (is_alpha c = true /\ exists s, scheme p = String (lower_char c) s).
Proof.
  intros Hp Hs.
  destruct (urlparse_inv _ p Hp) as (r & Hr & Es & _).
  destruct (urlsplit_inv _ r Hr) as (r1 & r2 & r3 & S1 & _).
  rewrite <- Es in S1.
  destruct (is_c0_or_space c) eqn:Hc; [now left|]. right.
  unfold clean_url in S1. cbn [lstrip_by] in S1. rewrite Hc in S1.
  cbn [remove_by] in S1. rewrite (not_c0_safe c Hc) in S1.
  unfold split_scheme in S1. cbn [partition] in S1.
  destruct (Ascii.eqb c ":").
  { injection S1 as E _. congruence. }
  destruct (partition ":" (remove_by is_unsafe u)) as [[a b]|].
  - destruct (is_alpha c && str_all is_scheme_char (String c a)) eqn:A.
    + injection S1 as E _. apply andb_true_iff in A as [A _].
      split; [exact A|]. exists (lower a). now rewrite <- E.
    + injection S1 as E _. congruence.
  - injection S1 as E _. congruence.
Qed.

(** The test for [mailto:] refuses no URL whose scheme is [http] or
    [https]. *)
Lemma http_not_mailto `{HostChecks} `{Unicode} {L : UnicodeLaws}
    (url : string) (p : ParseResult) :
  urlparse url = Ok p -> mem (scheme p) ["http"; "https"] = true ->
  startswith "mailto:" (str_lower url) = false.
Proof.
  intros Hp Hs.
  assert (Hsch : scheme p = "http" \/ scheme p = "https").
  { apply mem_in in Hs. cbn [In] in Hs. intuition auto. }
  destruct (startswith "mailto:" (str_lower url)) eqn:M; [|reflexivity].
  exfalso. unfold str_lower in M.
  destruct (str_all is_ascii url) eqn:A.
  - pose proof (mailto_scheme _ _ M Hp) as E. destruct Hsch; congruence.
  - destruct url as [|c u]; [discriminate A|].
    assert (Hne : scheme p <> "") by (destruct Hsch; congruence).
    assert (Hc : is_ascii c = true /\ lower_char c <> "m"%char).
    { destruct (url_head c u p Hp Hne) as [Hc|[Hc [s E]]].
      - destruct (c0_facts c Hc) as (H1 & H2 & H3). rewrite H2. auto.
      - split; [now apply alpha_ascii|]. intros Em. rewrite Em in E.
        destruct Hsch; congruence. }
    destruct Hc as [Hc Hm].
    destruct (unicode_lower_head c u Hc) as [r E]. rewrite E in M.
    cbn [startswith] in M. apply andb_true_iff in M as [M _].
    apply Ascii.eqb_eq in M. congruence.
Qed.

(** *** The filter as one expression *)

Lemma is_url_ok_to_follow_eq `{HostChecks} `{Unicode} (url domain : string)
    (p : ParseResult) :
  urlparse url = Ok p ->
  is_url_ok_to_follow url domain
  = Ok (mem (scheme p) ["http"; "https"] && truthy (netloc p)
        && negb (contains "@" url || startswith "mailto:" (str_lower url))
        && in_domain (netloc p) domain
        && page_path (path p)).
Proof.
  intros Hp. unfold is_url_ok_to_follow.
  rewrite (is_absolute_url_spec _ _ Hp). cbn [bind].
  destruct (mem (scheme p) ["http"; "https"] && truthy (netloc p));
    [|reflexivity].
  cbn [negb andb].
  destruct (contains "@" url || startswith "mailto:" (str_lower url));
    [reflexivity|].
  cbn [negb andb]. rewrite Hp. cbn [bind]. fold (in_domain (netloc p) domain).
  destruct (in_domain (netloc p) domain); [|reflexivity].
  cbn [negb andb]. rewrite <- (page_tests _ (urlparse_path_line _ _ Hp)).
  cbv zeta.
  destruct (endswith "/" _); [reflexivity|].
  destruct (String.eqb (_filename_extension _) ""); [reflexivity|].
  now destruct (String.eqb (_filename_extension _) ".html").
Qed.

Lemma is_url_ok_to_follow_parses `{HostChecks} `{Unicode}
    (url domain : string) :
  is_url_ok_to_follow url domain = Ok true ->
  exists p, urlparse url = Ok p.
Proof.
  unfold is_url_ok_to_follow, is_absolute_url.
  destruct url as [|c url]; [discriminate|]. cbn [truthy negb].
  destruct (urlparse (String c url)) as [p|e]; [|discriminate].
  intros _. now exists p.
Qed.

(** A path that ends in [.html] has the extension [html]. *)
Lemma extension_html (pth : string) :
  endswith ".html" pth = true -> extension (file_name pth) = Some "html".
Proof.
  intros He. destruct (endswith_inv _ _ He) as [pre ->].
  unfold file_name.
  destruct (rpartition "/" (pre ++ ".html")) as [[h t]|] eqn:R.
  - destruct (rpartition_some _ _ _ _ R) as [E Hns].
    assert (Ht : exists a, t = a ++ ".html").
    { clear R He. revert h t E Hns. induction pre as [|d pre IH]; intros h t E Hns.
      - cbn [append] in E. destruct h as [|x h].
        + cbn [append] in E. injection E as E _. discriminate.
        + cbn [append] in E. injection E as _ E.
          exfalso. clear -E Hns.
          assert (C : contains "/" (h ++ String "/" t) = true).
          { rewrite contains_app. cbn [contains].
            rewrite Ascii.eqb_refl. apply orb_true_r. }
          rewrite <- E in C. discriminate.
      - destruct h as [|x h].
        + cbn [append] in E. injection E as _ E. exists pre. now symmetry.
        + cbn [append] in E. injection E as _ E. exact (IH h t E Hns). }
    destruct Ht as [a ->]. unfold extension.
    change (a ++ ".html") with (a ++ String "." "html").
    now rewrite (rpartition_app "." a "html" eq_refl).
  - unfold extension. change (pre ++ ".html") with (pre ++ String "." "html").
    now rewrite (rpartition_app "." pre "html" eq_refl).
Qed.

(** *** The normal form *)

Lemma clean_url_contains (c : ascii) (u : string) :
  is_unsafe c = false -> is_c0_or_space c = false ->
  contains c (clean_url u) = contains c u.
Proof.
  intros H1 H2. unfold clean_url.
  now rewrite (remove_by_contains _ c _ H1), (lstrip_by_contains _ c _ H2).
Qed.

Lemma urlparse_fragment_free `{HostChecks} (u : string) (p : ParseResult) :
  urlparse u = Ok p -> netloc p <> "" ->
  contains "#" u = false -> fragment p = "".
Proof.
  intros Hp Hn Hu.
  destruct (urlparse_inv u p Hp) as (r & Hr & _ & En & _ & Ef & _).
  destruct (urlsplit_inv u r Hr) as (r1 & r2 & r3 & S1 & S2 & S3 & _).
  rewrite Ef. rewrite <- En in S2.
  destruct (split_scheme_spec _ _ _ S1 (clean_url_safe u)) as (_ & Hr1 & Hc1).
  rewrite (clean_url_contains "#" u eq_refl eq_refl) in Hc1.
  destruct (split_authority_spec _ _ _ S2 Hn Hr1) as (_ & _ & _ & _ & Hc2).
  pose proof (Hc2 (Hc1 Hu)) as Hf.
  destruct (split_at_spec _ _ _ _ S3) as [_ [E|[_ E]]]; [|exact E].
  rewrite E, contains_app in Hf. cbn [contains] in Hf.
  rewrite Ascii.eqb_refl, orb_true_r in Hf. discriminate.
Qed.

(** On a URL with an ASCII network location, [normalize_url] returns
    the six components joined again, scheme and network location in
    lower case and the fragment gone. *)
Lemma normalize_url_formula `{HostChecks} `{Unicode} {L : HostChecksLaws}
    (u : string) (p : ParseResult) :
  urlparse u = Ok p -> netloc p <> "" ->
  str_all is_ascii (netloc p) = true ->
  normalize_url u = Ok (urlunparse (lowered p)).
Proof.
  intros Hp Hn Ha.
  assert (Hsc : str_all is_scheme_char (scheme p) = true
                /\ lower (scheme p) = scheme p).
  { pose proof (urlparse_well_formed _ _ Hp Hn) as Hwf.
    unfold well_formed in Hwf. rewrite !andb_true_iff in Hwf.
    destruct Hwf as [[[[Hsch _] _] _] _]. cbn [without_fragment scheme] in Hsch.
    exact (scheme_ok_chars _ Hsch). }
  destruct Hsc as [Hc Hl].
  assert (Hs : str_lower (scheme p) = scheme p).
  { rewrite str_lower_ascii; [exact Hl|].
    revert Hc. apply str_all_impl. intros c Hc. revert Hc. by_cases_on_char c. }
  unfold normalize_url.
  destruct u as [|c u].
  { rewrite urlparse_empty in Hp. inversion Hp; subst. now contradict Hn. }
  cbn [truthy negb]. unfold remove_fragment, urldefrag. cbn [truthy negb].
  unfold lowered. rewrite Hl.
  destruct (contains "#" (String c u)) eqn:C.
  - rewrite Hp. cbn [bind].
    change (mkParseResult (scheme p) (netloc p) (path p) (params p) (query p) "")
      with (without_fragment p).
    rewrite (urlparse_unparse _ (urlparse_well_formed _ _ Hp Hn)).
    cbn [bind without_fragment scheme netloc path params query fragment].
    now rewrite Hs, (str_lower_ascii _ Ha).
  - cbn [bind]. rewrite Hp. cbn [bind].
    now rewrite (urlparse_fragment_free _ _ Hp Hn C), Hs,
      (str_lower_ascii _ Ha).
Qed.

Lemma sample_checks_laws : @HostChecksLaws sample_checks.
Proof.
  split; cbn [is_ipv6_address nfkc_netloc_ok sample_checks].
  - intros h Hh. now rewrite lower_idem.
  - intros h Hh. apply mem_in in Hh.
    destruct Hh as [<-|[<-|[]]]; reflexivity.
  - reflexivity.
Qed.

Lemma latin_unicode_laws : @UnicodeLaws latin_unicode.
Proof.
  split; cbn [unicode_lower latin_unicode].
  - intros s. destruct s as [|a [|b r]]; [reflexivity | reflexivity|].
    cbn [latin_lower]. now destruct (_ && _).
  - intros c s Hc. destruct s as [|b r].
    + now exists "".
    + cbn [latin_lower].
      assert (E : Nat.eqb (nat_of_ascii c) 195 = false).
      { revert Hc. by_cases_on_char c. }
      rewrite E. cbn [andb]. now exists (latin_lower (String b r)).
Qed.

(** *** The properties of the URL filter and normaliser *)

(** C1, as amended.  Take a URL that [urlparse] accepts with the scheme
    [http] or [https], that holds no [@], and whose network location is
    a host name and nothing else.  If the host, in lower case, is the
    domain in lower case or ends with a dot followed by it, then
    [is_url_ok_to_follow] returns whether the path is that of a page.
    So it returns [True] when the path is empty or ends in [/], when the
    file name has no extension, and when the path ends in [.html]. *)
Theorem is_url_ok_to_follow_accepts `{HostChecks} `{Unicode} {L : UnicodeLaws}
    (url domain : string) (p : ParseResult) :
  urlparse url = Ok p ->
  mem (scheme p) ["http"; "https"] = true ->
  netloc p <> "" -> is_host (netloc p) = true ->
  contains "@" url = false ->
  in_domain (netloc p) domain = true ->
  is_url_ok_to_follow url domain = Ok (page_path (path p))
  /\ (path p = "" \/ endswith "/" (path p) = true
      \/ extension (file_name (path p)) = None
      \/ endswith ".html" (path p) = true ->
      is_url_ok_to_follow url domain = Ok true).
Proof.
  intros Hp Hs Hn _ Hat Hd.
  assert (E : is_url_ok_to_follow url domain = Ok (page_path (path p))).
  { rewrite (is_url_ok_to_follow_eq _ domain _ Hp).
    apply truthy_true in Hn.
    now rewrite Hs, Hn, Hat, (http_not_mailto _ _ Hp Hs), Hd. }
  split; [exact E|].
  intros Hpath. rewrite E. f_equal. unfold page_path.
  destruct Hpath as [Hpath|[Hpath|[Hpath|Hpath]]].
  - now rewrite Hpath.
  - rewrite Hpath. now rewrite orb_true_r.
  - rewrite Hpath. now rewrite orb_true_r.
  - rewrite (extension_html _ Hpath). now rewrite orb_true_r.
Qed.

Lemma is_url_ok_to_follow_accepts_witness :
  @is_url_ok_to_follow sample_checks latin_unicode
    "https://Cursos.EXÁMPLE.com/lista/intro.html" "exámple.COM" = Ok true.
Proof.
  apply (@is_url_ok_to_follow_accepts sample_checks latin_unicode
           latin_unicode_laws
           "https://Cursos.EXÁMPLE.com/lista/intro.html" "exámple.COM"
           (mkParseResult "https" "Cursos.EXÁMPLE.com" "/lista/intro.html"
                          "" "" "")).
  - reflexivity.
  - reflexivity.
  - discriminate.
  - reflexivity.
  - reflexivity.
  - reflexivity.
  - right. right. right. reflexivity.
Defined.

(** C1 as it is stated fails: the host is the domain and the path ends
    in [/], yet a URL with another scheme and one that holds an [@] are
    refused. *)
Lemma is_url_ok_to_follow_needs_http :
  @urlparse strict_checks "ftp://example.com/"
  = Ok (mkParseResult "ftp" "example.com" "/" "" "" "")
  /\ @is_url_ok_to_follow strict_checks latin_unicode
       "ftp://example.com/" "example.com" = Ok false
  /\ @urlparse strict_checks "http://example.com/a@b/"
     = Ok (mkParseResult "http" "example.com" "/a@b/" "" "" "")
  /\ @is_url_ok_to_follow strict_checks latin_unicode
       "http://example.com/a@b/" "example.com" = Ok false.
Proof. repeat split; reflexivity. Qed.

(** C2, as amended.  Take a URL that [urlparse] accepts.  If it holds an
    [@], or starts with [mailto:] in any case, or its scheme is not [http]
    or [https] ([mailto] among them), or it has no network location, then
    [is_url_ok_to_follow] returns [False], whatever the domain. *)
Theorem is_url_ok_to_follow_rejects `{HostChecks} `{Unicode}
    (url domain : string) (p : ParseResult) :
  urlparse url = Ok p ->
  (contains "@" url = true
   \/ startswith "mailto:" (str_lower url) = true
   \/ mem (scheme p) ["http"; "https"] = false
   \/ netloc p = "") ->
  is_url_ok_to_follow url domain = Ok false.
Proof.
  intros Hp Hbad. unfold is_url_ok_to_follow.
  rewrite (is_absolute_url_spec _ _ Hp). cbn [bind].
  destruct (mem (scheme p) ["http"; "https"]) eqn:Hs; [|reflexivity].
  destruct (truthy (netloc p)) eqn:Hn; [|reflexivity].
  cbn [andb negb].
  destruct Hbad as [E|[E|[E|E]]].
  - now rewrite E.
  - now rewrite E, orb_true_r.
  - discriminate.
  - rewrite E in Hn. discriminate.
Qed.

Lemma is_url_ok_to_follow_rejects_witness :
  @is_url_ok_to_follow strict_checks latin_unicode
    "http://user@example.com/" "example.com" = Ok false
  /\ @is_url_ok_to_follow strict_checks latin_unicode
       "MailTo:someone" "example.com" = Ok false
  /\ @is_url_ok_to_follow strict_checks latin_unicode
       "//example.com/a" "example.com" = Ok false
  /\ @is_url_ok_to_follow strict_checks latin_unicode
       "http:///a" "example.com" = Ok false.
Proof.
  split; [|split; [|split]].
  - apply (@is_url_ok_to_follow_rejects strict_checks latin_unicode _ _
             (mkParseResult "http" "user@example.com" "/" "" "" ""));
      [reflexivity | left; reflexivity].
  - apply (@is_url_ok_to_follow_rejects strict_checks latin_unicode _ _
             (mkParseResult "mailto" "" "someone" "" "" ""));
      [reflexivity | right; left; reflexivity].
  - apply (@is_url_ok_to_follow_rejects strict_checks latin_unicode _ _
             (mkParseResult "" "example.com" "/a" "" "" ""));
      [reflexivity | right; right; left; reflexivity].
  - apply (@is_url_ok_to_follow_rejects strict_checks latin_unicode _ _
             (mkParseResult "http" "" "/a" "" "" ""));
      [reflexivity | right; right; right; reflexivity].
Defined.

(** An exception of [urlparse] leaves [is_url_ok_to_follow] as it is. *)
Lemma is_url_ok_to_follow_propagates `{HostChecks} `{Unicode}
    (url domain : string) (e : exn) :
  urlparse url = Raise e -> is_url_ok_to_follow url domain = Raise e.
Proof.
  intros Hp. unfold is_url_ok_to_follow, is_absolute_url.
  destruct url as [|c url].
  - rewrite urlparse_empty in Hp. discriminate.
  - cbn [truthy negb]. now rewrite Hp.
Qed.

(** A URL whose network location opens a bracket and does not close it
    makes [urlsplit] raise, and the filter with it. *)
Lemma unmatched_bracket_raises `{HostChecks} `{Unicode} (domain : string) :
  is_url_ok_to_follow "http://[@" domain = Raise ValueError.
Proof. reflexivity. Qed.

(** C2 as it is stated fails: this URL holds an [@], and the call raises
    [ValueError] instead of returning [False]. *)
Lemma is_url_ok_to_follow_raises :
  contains "@" "http://[@" = true
  /\ @is_url_ok_to_follow strict_checks latin_unicode "http://[@" "example.com"
     = Raise ValueError.
Proof. split; [reflexivity | apply unmatched_bracket_raises]. Qed.

(** C3.  [normalize_url] does not do what it documents on the URL
    [http://////a], whatever the two library validations and the case
    mapping: it returns [http:////a], so the path [////a] is not kept as
    it is, and applied to that result it returns [http://a], so it is
    not idempotent. *)
Theorem normalize_url_slashes `{HostChecks} `{Unicode} :
  urlparse "http://////a" = Ok (mkParseResult "http" "" "////a" "" "" "")
  /\ normalize_url "http://////a" = Ok "http:////a"
  /\ urlparse "http:////a" = Ok (mkParseResult "http" "" "//a" "" "" "")
  /\ normalize_url "http:////a" = Ok "http://a".
Proof. repeat split; reflexivity. Qed.

End UtilFacts.

(* ================================================================= *)
(** * Part V: [compare.py] *)
(* ================================================================= *)

Module CompareFacts.
Import Py PyFacts Db Compare CompareSpec.

(** *** The clamp *)

Lemma clamp_in_unit_interval (sim : spec_float) :
  sim <> S754_nan ->
  in_unit_interval
    (let s1 := if SFltb sim float_0 then float_0 else sim in
     if SFltb float_1 s1 then float_1 else s1).
Proof.
  intros Hnan. unfold in_unit_interval, float_0, float_1.
  destruct sim as [s|s| |s m e]; try congruence.
  - destruct s; split; reflexivity.
  - destruct s; split; reflexivity.
  - destruct s; [split; reflexivity|].
    change (SFltb (S754_finite false m e) (S754_zero false)) with false.
    cbv iota zeta.
    destruct (SFltb (S754_finite false 4503599627370496 (-52))
                    (S754_finite false m e)) eqn:C; [split; reflexivity|].
    split; [reflexivity|].
    unfold SFltb, SFleb, SFcompare in *.
    rewrite (Z.compare_antisym (-52) e).
    pose proof (Pos.compare_cont_antisym 4503599627370496 m Eq) as A.
    cbn [CompOpp] in A. rewrite <- A. clear A.
    destruct (-52 ?= e)%Z; cbn [CompOpp] in *; try reflexivity; try discriminate.
    destruct (Pos.compare_cont Eq 4503599627370496 m); cbn [CompOpp] in *;
      try reflexivity; discriminate.
Qed.

Lemma tfidf_cosine_empty `{Tfidf} (a b : string) :
  strip a = "" \/ strip b = "" -> _tfidf_cosine a b = float_0.
Proof.
  unfold _tfidf_cosine. intros [E|E]; rewrite E; cbn [truthy negb andb orb].
  - now destruct (truthy (strip b)).
  - destruct (truthy (strip a)); reflexivity.
Qed.

(** C4.  [compare_texts] returns a float between 0 and 1 for every pair
    of strings, the library's cosine being a number; it returns 0.0 when
    one input or both are empty once stripped, and when the vectoriser
    raises [ValueError]. *)
Theorem compare_texts_in_unit_interval `{Tfidf} (a b : string) :
  cosine_is_a_number ->
  in_unit_interval (compare_texts a b)
  /\ (strip a = "" \/ strip b = "" -> compare_texts a b = float_0)
  /\ (fit_transform_cosine (strip a) (strip b) = None ->
      compare_texts a b = float_0).
Proof.
  intros Hnum. unfold compare_texts. split; [|split].
  - unfold _tfidf_cosine.
    destruct (negb (truthy (strip a)) && negb (truthy (strip b)));
      [split; reflexivity|].
    destruct (negb (truthy (strip a)) || negb (truthy (strip b)));
      [split; reflexivity|].
    destruct (fit_transform_cosine (strip a) (strip b)) as [sim|] eqn:E;
      [|split; reflexivity].
    apply clamp_in_unit_interval. intros ->. exact (Hnum _ _ E).
  - apply tfidf_cosine_empty.
  - intros E. unfold _tfidf_cosine. rewrite E.
    destruct (negb (truthy (strip a)) && negb (truthy (strip b)));
      [reflexivity|].
    now destruct (negb (truthy (strip a)) || negb (truthy (strip b))).
Qed.

Lemma compare_texts_in_unit_interval_witness :
  in_unit_interval (@compare_texts constant_tfidf "curso de python" "python")
  /\ @compare_texts constant_tfidf "" "" = float_0
  /\ @compare_texts constant_tfidf "a" "  " = float_0.
Proof.
  assert (Hnum : @cosine_is_a_number constant_tfidf) by (intros a b; discriminate).
  split; [|split].
  - exact (proj1 (@compare_texts_in_unit_interval constant_tfidf _ _ Hnum)).
  - apply (proj1 (proj2 (@compare_texts_in_unit_interval constant_tfidf "" "" Hnum))).
    left. reflexivity.
  - apply (proj1 (proj2 (@compare_texts_in_unit_interval constant_tfidf "a" "  " Hnum))).
    right. reflexivity.
Defined.

(** *** The selectors *)

Lemma find_none_iff {A : Type} (f : A -> bool) (l : list A) :
  find f l = None <-> forall x, In x l -> f x = false.
Proof.
  split; [apply find_none|].
  induction l as [|y l IH]; [reflexivity|]. intros Hl. cbn [find].
  rewrite (Hl y (or_introl eq_refl)). apply IH. intros x Hx. apply Hl. now right.
Qed.

Lemma select_id_by_url_none (con : Connection) (u : string) :
  select_id_by_url con u = None
  <-> forall c, In c (courses con) -> url c <> u.
Proof.
  unfold select_id_by_url.
  destruct (find (fun c => String.eqb (url c) u) (courses con)) as [c|] eqn:F.
  - split; [discriminate|]. intros Hno. exfalso.
    destruct (find_some _ _ F) as [Hin Heq].
    apply String.eqb_eq in Heq. exact (Hno c Hin Heq).
  - split; [|reflexivity]. intros _ c Hc.
    apply String.eqb_neq. exact (find_none _ _ F c Hc).
Qed.

Lemma min_by_id_none (cs : list Course) : min_by_id cs = None <-> cs = [].
Proof.
  destruct cs as [|c cs]; [split; reflexivity|].
  cbn [min_by_id]. split; [|discriminate].
  destruct (min_by_id cs) as [m|]; [|discriminate].
  destruct (Nat.ltb (course_id m) (course_id c)); discriminate.
Qed.

Lemma filter_nil_iff {A : Type} (f : A -> bool) (l : list A) :
  filter f l = [] <-> forall x, In x l -> f x = false.
Proof.
  induction l as [|y l IH]; cbn [filter].
  - split; [intros _ x [] | reflexivity].
  - destruct (f y) eqn:Fy.
    + split; [discriminate|]. intros Hl.
      rewrite (Hl y (or_introl eq_refl)) in Fy. discriminate.
    + rewrite IH. split.
      * intros Hl x [<-|Hx]; auto.
      * intros Hl x Hx. apply Hl. now right.
Qed.

Lemma select_id_by_title_fits (con : Connection) (x : string) :
  pattern_fits x ->
  select_id_by_title con x
  = Ok (option_map course_id
          (min_by_id
             (filter (fun c => like_nullable ("%" ++ x ++ "%")
                                             (title (fields c)))
                     (courses con)))).
Proof.
  unfold select_id_by_title, pattern_fits. intros Hf.
  destruct (courses con) as [|c cs]; [reflexivity|].
  now rewrite N.ltb_antisym, Hf.
Qed.

Lemma select_id_by_title_none (con : Connection) (x : string) :
  pattern_fits x ->
  (select_id_by_title con x = Ok None
   <-> forall c, In c (courses con) ->
                 like_nullable ("%" ++ x ++ "%") (title (fields c)) = false).
Proof.
  intros Hf. rewrite (select_id_by_title_fits con x Hf).
  rewrite <- filter_nil_iff, <- min_by_id_none.
  destruct (min_by_id _); cbn [option_map]; split; congruence.
Qed.

Lemma select_id_by_title_empty (con : Connection) (x : string) :
  courses con = [] -> select_id_by_title con x = Ok None.
Proof. unfold select_id_by_title. now intros ->. Qed.

Lemma select_id_by_title_long (con : Connection) (x : string) :
  courses con <> [] -> ~ pattern_fits x ->
  select_id_by_title con x = Raise OperationalError.
Proof.
  unfold select_id_by_title, pattern_fits. intros Hc Hf.
  destruct (courses con) as [|c cs]; [congruence|].
  rewrite N.ltb_antisym.
  destruct (N.leb _ max_like_pattern_length); [congruence | reflexivity].
Qed.

Lemma select_id_by_title_total (con : Connection) (x : string) :
  pattern_fits x -> exists r, select_id_by_title con x = Ok r.
Proof. intros Hf. rewrite (select_id_by_title_fits con x Hf). eauto. Qed.

(** *** The characters of a pattern *)

Lemma c_str_id (s : string) :
  contains (ascii_of_nat 0) s = false -> c_str s = s.
Proof.
  induction s as [|c s IH]; [reflexivity|]. cbn [contains c_str].
  intros Hs. apply orb_false_iff in Hs as [Hc Hs].
  assert (E : Nat.eqb (nat_of_ascii c) 0 = false).
  { destruct (Nat.eqb_spec (nat_of_ascii c) 0) as [E|]; [|reflexivity].
    rewrite <- (ascii_nat_embedding c), E in Hc.
    rewrite Ascii.eqb_refl in Hc. discriminate. }
  now rewrite E, (IH Hs).
Qed.

Lemma plain_no_nul (x : string) :
  str_all is_plain x = true -> contains (ascii_of_nat 0) x = false.
Proof.
  apply str_all_not_contains. reflexivity.
Qed.

Lemma plain_byte (c : ascii) :
  is_plain c = true -> plain_char (N_of_ascii c) = true.
Proof. by_cases_on_char c. Qed.

(** What [utf8_replace] returns is no ASCII character. *)
Lemma utf8_replace_plain (c : N) : plain_char (utf8_replace c) = true.
Proof.
  unfold utf8_replace, plain_char.
  destruct (N.ltb_spec c 128) as [Hlt|Hge]; cbn [orb]; [reflexivity|].
  destruct (_ || _); [reflexivity|].
  destruct (N.eqb_spec c 37) as [->|_]; [lia|].
  destruct (N.eqb_spec c 95) as [->|_]; [lia | reflexivity].
Qed.

Lemma utf8_chars_plain (x : string) (pending : option N) :
  str_all is_plain x = true ->
  forallb plain_char (utf8_chars pending x) = true.
Proof.
  revert pending. induction x as [|b x IH]; intros pending Hx.
  - destruct pending as [c|]; cbn [utf8_chars forallb]; [|reflexivity].
    now rewrite utf8_replace_plain.
  - cbn [str_all] in Hx. apply andb_true_iff in Hx as [Hb Hx].
    cbn [utf8_chars].
    assert (Hstart :
      forallb plain_char
        (if N.ltb (N_of_ascii b) 192
         then N_of_ascii b :: utf8_chars None x
         else utf8_chars (Some (utf8_trans1 (N_of_ascii b))) x) = true).
    { destruct (N.ltb (N_of_ascii b) 192); [|now apply IH].
      cbn [forallb]. now rewrite (plain_byte b Hb), (IH None Hx). }
    destruct pending as [c|]; [|exact Hstart].
    destruct (N.eqb (N.land (N_of_ascii b) 192) 128); [now apply IH|].
    cbn [forallb]. now rewrite utf8_replace_plain, Hstart.
Qed.

(** A percent sign behind a text is one more character. *)
Lemma utf8_chars_percent (x : string) (pending : option N) :
  utf8_chars pending (x ++ "%") = (utf8_chars pending x ++ [37%N])%list.
Proof.
  revert pending. induction x as [|b x IH]; intros pending.
  - destruct pending; reflexivity.
  - cbn [append utf8_chars].
    rewrite (IH None), (IH (Some (utf8_trans1 (N_of_ascii b)))).
    destruct pending as [c|].
    + rewrite (IH (Some (utf8_push c (N_of_ascii b)))).
      destruct (N.eqb (N.land (N_of_ascii b) 192) 128); [reflexivity|].
      now destruct (N.ltb (N_of_ascii b) 192).
    + now destruct (N.ltb (N_of_ascii b) 192).
Qed.

(** *** [LIKE] between two percent signs is containment *)

Lemma like_chars_percent (p s : list N) :
  like_chars (37%N :: p) s
  = like_chars p s || match s with
                      | [] => false
                      | _ :: r => like_chars (37%N :: p) r
                      end.
Proof. destruct s; reflexivity. Qed.

Lemma like_chars_plain (c : N) (p s : list N) :
  plain_char c = true ->
  like_chars (c :: p) s
  = match s with
    | [] => false
    | c2 :: r => same_char c c2 && like_chars p r
    end.
Proof.
  unfold plain_char. intros Hc. apply andb_true_iff in Hc as [H1 H2].
  apply negb_true_iff in H1, H2. cbn [like_chars]. rewrite H1.
  destruct s as [|c2 r]; [reflexivity|].
  unfold like_char, same_char. now rewrite H2, orb_false_r.
Qed.

Lemma like_chars_trailing_percent (s : list N) : like_chars [37%N] s = true.
Proof.
  induction s as [|d s IH]; [reflexivity|].
  rewrite like_chars_percent, IH. apply orb_true_r.
Qed.

Lemma like_chars_prefix (p s : list N) :
  forallb plain_char p = true ->
  like_chars (p ++ [37%N]) s = chars_prefix p s.
Proof.
  revert s. induction p as [|c p IH]; intros s Hp.
  - cbn [app chars_prefix]. apply like_chars_trailing_percent.
  - cbn [forallb] in Hp. apply andb_true_iff in Hp as [Hc Hp].
    cbn [app]. rewrite (like_chars_plain c _ s Hc).
    destruct s as [|d s]; [reflexivity|].
    cbn [chars_prefix]. now rewrite (IH s Hp).
Qed.

Lemma like_chars_infix (p s : list N) :
  forallb plain_char p = true ->
  like_chars (37%N :: p ++ [37%N]) s = chars_infix p s.
Proof.
  intros Hp. induction s as [|d s IH].
  - rewrite like_chars_percent, (like_chars_prefix p [] Hp).
    cbn [chars_infix]. reflexivity.
  - rewrite like_chars_percent, (like_chars_prefix p _ Hp), IH.
    reflexivity.
Qed.

(** For a text without wildcards and without NUL, the pattern made from
    it matches the titles that contain it. *)
Lemma like_contains (x t : string) :
  str_all is_plain x = true ->
  like ("%" ++ x ++ "%") t = contains_ci x t.
Proof.
  intros Hx. unfold like, contains_ci.
  assert (Hn : contains (ascii_of_nat 0) ("%" ++ x ++ "%") = false).
  { cbn [append contains]. rewrite contains_app, (plain_no_nul x Hx).
    reflexivity. }
  rewrite (c_str_id _ Hn), (c_str_id x (plain_no_nul x Hx)).
  change (utf8_chars None ("%" ++ x ++ "%"))
    with (37%N :: utf8_chars None (x ++ "%")).
  rewrite utf8_chars_percent.
  apply like_chars_infix. now apply utf8_chars_plain.
Qed.

(** The wildcard [_] stands for one character, of one byte or of more;
    letters outside ASCII are compared as they are; the text ends at its
    first NUL. *)
Example like_reads_characters :
  like "a_o nuevo" "Año nuevo" = true
  /\ like "a__o nuevo" "Año nuevo" = false
  /\ like "%álgebra%" "Álgebra lineal" = false
  /\ like "%ÁLGEBRA%" "Álgebra lineal" = true
  /\ like "%lineal%" ("Álgebra" ++ String (ascii_of_nat 0) "lineal") = false.
Proof. repeat split; reflexivity. Qed.

(** *** No match, no score *)

(** C10, as amended.  [compare_course_urls] returns 0.0 when no stored
    row has one of the two urls.  [compare_course_titles_contains]
    returns 0.0, and raises nothing, when the table is empty, and when
    the two [LIKE] patterns are short enough and no stored title matches
    one of them; for a text without [%], [_] and NUL that is: when no
    stored title contains it, the case of ASCII letters apart.  On a
    table that is not empty a pattern that is too long makes it raise
    [OperationalError]. *)
Theorem compare_course_no_match `{Tfidf} (con : Connection) (a b : string) :
  ((forall c, In c (courses con) -> url c <> a)
   \/ (forall c, In c (courses con) -> url c <> b) ->
   compare_course_urls con a b = float_0)
  /\ (courses con = [] ->
      compare_course_titles_contains con a b = Ok float_0)
  /\ (pattern_fits a -> pattern_fits b ->
      (forall c, In c (courses con) ->
         like_nullable ("%" ++ a ++ "%") (title (fields c)) = false)
      \/ (forall c, In c (courses con) ->
            like_nullable ("%" ++ b ++ "%") (title (fields c)) = false) ->
      compare_course_titles_contains con a b = Ok float_0)
  /\ (pattern_fits a -> pattern_fits b ->
      str_all is_plain a = true -> str_all is_plain b = true ->
      (forall c, In c (courses con) -> title_contains a c = false)
      \/ (forall c, In c (courses con) -> title_contains b c = false) ->
      compare_course_titles_contains con a b = Ok float_0)
  /\ (courses con <> [] -> ~ pattern_fits a \/ ~ pattern_fits b ->
      compare_course_titles_contains con a b = Raise OperationalError).
Proof.
  assert (Htitles :
    pattern_fits a -> pattern_fits b ->
    (forall c, In c (courses con) ->
       like_nullable ("%" ++ a ++ "%") (title (fields c)) = false)
    \/ (forall c, In c (courses con) ->
          like_nullable ("%" ++ b ++ "%") (title (fields c)) = false) ->
    compare_course_titles_contains con a b = Ok float_0).
  { unfold compare_course_titles_contains. intros Fa Fb [Hno|Hno].
    - apply (select_id_by_title_none con a Fa) in Hno. rewrite Hno.
      cbn [bind]. destruct (select_id_by_title_total con b Fb) as [rb ->].
      reflexivity.
    - apply (select_id_by_title_none con b Fb) in Hno. rewrite Hno.
      destruct (select_id_by_title_total con a Fa) as [ra ->].
      cbn [bind]. now destruct ra. }
  split; [|split; [|split; [|split]]].
  - unfold compare_course_urls. intros [Hno|Hno];
      apply select_id_by_url_none in Hno; rewrite Hno;
      [reflexivity | now destruct (select_id_by_url con a)].
  - intros He. unfold compare_course_titles_contains.
    now rewrite !(select_id_by_title_empty con _ He).
  - exact Htitles.
  - intros Fa Fb Ha Hb Hno. apply (Htitles Fa Fb).
    destruct Hno as [Hno|Hno]; [left|right]; intros c Hc;
      specialize (Hno c Hc); unfold title_contains in Hno;
      unfold like_nullable; destruct (title (fields c)); auto.
    + now rewrite (like_contains a s Ha).
    + now rewrite (like_contains b s Hb).
  - intros Hc Hlong. unfold compare_course_titles_contains.
    destruct (select_id_by_title con a) as [ra|e] eqn:Ea.
    + destruct Hlong as [Hl|Hl].
      * rewrite (select_id_by_title_long con a Hc Hl) in Ea. discriminate.
      * cbn [bind]. now rewrite (select_id_by_title_long con b Hc Hl).
    + cbn [bind]. unfold select_id_by_title in Ea.
      destruct (courses con); [discriminate|].
      destruct (N.ltb _ _); now inversion Ea.
Qed.

Lemma compare_course_no_match_witness :
  @compare_course_urls constant_tfidf sample_con
    "https://e.example/cursos/python" "https://e.example/cursos/quimica"
  = float_0
  /\ @compare_course_titles_contains constant_tfidf sample_con
       "python" "química" = Ok float_0.
Proof.
  destruct (@compare_course_no_match constant_tfidf sample_con
              "https://e.example/cursos/python"
              "https://e.example/cursos/quimica") as (Hurl & _).
  destruct (@compare_course_no_match constant_tfidf sample_con
              "python" "química") as (_ & _ & _ & Htitle & _).
  split.
  - apply Hurl. right. intros c [<-|[<-|[]]]; discriminate.
  - apply Htitle; [reflexivity | reflexivity | reflexivity | reflexivity |].
    right. intros c [<-|[<-|[]]]; reflexivity.
Defined.

(** C10 as it is stated fails: no stored title contains [p_thon], in
    any case of the letters, yet the selector finds the course titled
    "Python para todos", and the score is that of the two rows. *)
Lemma compare_course_wildcard :
  (forall c, In c (courses sample_con) -> title_contains "p_thon" c = false)
  /\ (forall c t, In c (courses sample_con) -> title (fields c) = Some t ->
                  infix "p_thon" t = false)
  /\ select_id_by_title sample_con "p_thon" = Ok (Some 1)
  /\ @compare_course_titles_contains constant_tfidf sample_con
       "p_thon" "Artificial" = Ok float_1
  /\ float_1 <> float_0.
Proof.
  split; [|split; [|split; [|split]]].
  - intros c [<-|[<-|[]]]; reflexivity.
  - intros c t [<-|[<-|[]]] E; injection E as <-; reflexivity.
  - reflexivity.
  - reflexivity.
  - discriminate.
Qed.

(** Two selectors that match are scored by the texts of their rows. *)
Example compare_course_titles_match :
  @compare_course_titles_contains constant_tfidf sample_con "PYTHON" "artificial"
  = Ok float_1.
Proof. reflexivity. Qed.

End CompareFacts.

(* ================================================================= *)
(** * Part VI: [search.py] *)
(* ================================================================= *)

Module SearchFacts.
Import Py PyFacts Db Search CompareSpec SearchSpec.

(** *** Synonyms and parts *)

Lemma fold_add_synonym_in `{Unicode} (rows : list (nat * option string))
    (acc : set string) (p : string) :
  In p (fold_left add_synonym rows acc)
  <-> In p acc
      \/ exists n syn, In (n, Some syn) rows /\ syn <> ""
                       /\ p = str_lower (strip syn).
Proof.
  revert acc. induction rows as [|[n o] rows IH]; intros acc; cbn [fold_left].
  - split; [auto|]. intros [Hp|(n & syn & [] & _)]. exact Hp.
  - rewrite IH. unfold add_synonym. cbn [snd].
    destruct o as [syn|]; [destruct (truthy syn) eqn:T|].
    + rewrite set_add_iff. apply truthy_true in T. split.
      * intros [[->|Hp]|(n' & syn' & Hin & Hne & ->)];
          [found n syn | auto | found n' syn'].
      * intros [Hp|(n' & syn' & [E|Hin] & Hne & ->)];
          [auto | inversion E; subst; auto | found n' syn'].
    + apply truthy_false in T. subst syn. split.
      * intros [Hp|(n' & syn' & Hin & Hne & ->)]; [auto | found n' syn'].
      * intros [Hp|(n' & syn' & [E|Hin] & Hne & ->)];
          [auto | inversion E; subst; congruence | found n' syn'].
    + split.
      * intros [Hp|(n' & syn' & Hin & Hne & ->)]; [auto | found n' syn'].
      * intros [Hp|(n' & syn' & [E|Hin] & Hne & ->)];
          [auto | discriminate | found n' syn'].
Qed.

Lemma fold_add_synonym_nodup `{Unicode} (rows : list (nat * option string))
    (acc : set string) :
  NoDup acc -> NoDup (fold_left add_synonym rows acc).
Proof.
  revert acc. induction rows as [|[n o] rows IH]; intros acc Hacc;
    cbn [fold_left]; [assumption|].
  apply IH. unfold add_synonym. cbn [snd].
  destruct o as [syn|]; [|assumption].
  destruct (truthy syn); [|assumption]. now apply set_add_nodup.
Qed.

Lemma get_synonyms_spec `{Unicode} (con : Connection) (t p : string) :
  In p (fst (get_synonyms con t))
  <-> exists syn, stored_synonym con t syn /\ p = str_lower (strip syn).
Proof.
  unfold get_synonyms, stored_synonym.
  destruct (find _ (terms con)) as [[term_id term]|] eqn:F; cbn [fst].
  - rewrite fold_add_synonym_in. split.
    + intros [[]|(n & syn & Hin & Hne & ->)].
      apply filter_In in Hin as [Hin Hn]. cbn [fst] in Hn.
      apply Nat.eqb_eq in Hn. subst n.
      exists syn. split; [|reflexivity]. exists term_id, term. auto.
    + intros (syn & (id' & term' & E & Hin & Hne) & ->).
      inversion E; subst id' term'.
      right. exists term_id, syn. repeat split; auto.
      apply filter_In. split; [assumption|]. cbn [fst]. apply Nat.eqb_refl.
  - split; [intros []|].
    intros (syn & (id' & term' & E & _) & _). discriminate.
Qed.

Lemma get_synonyms_nodup `{Unicode} (con : Connection) (t : string) :
  NoDup (fst (get_synonyms con t)).
Proof.
  unfold get_synonyms.
  destruct (find _ (terms con)) as [[term_id term]|]; cbn [fst].
  - apply fold_add_synonym_nodup. constructor.
  - constructor.
Qed.

Lemma fold_add_lower_in `{Unicode} (l : list string) (acc : set string)
    (p : string) :
  In p (fold_left (fun acc s => set_add string_dec (str_lower s) acc) l acc)
  <-> In p acc \/ exists s, In s l /\ p = str_lower s.
Proof.
  revert acc. induction l as [|x l IH]; intros acc; cbn [fold_left].
  - split; [auto|]. intros [Hp|(s & [] & _)]. exact Hp.
  - rewrite IH, set_add_iff. split.
    + intros [[->|Hp]|(s & Hs & ->)]; auto;
        right; [exists x | exists s]; cbn [In]; auto.
    + intros [Hp|(s & [<-|Hs] & ->)]; auto.
      right. exists s. auto.
Qed.

Lemma fold_add_lower_nodup `{Unicode} (l : list string) (acc : set string) :
  NoDup acc ->
  NoDup (fold_left (fun acc s => set_add string_dec (str_lower s) acc) l acc).
Proof.
  revert acc. induction l as [|x l IH]; intros acc Hacc; cbn [fold_left];
    [assumption|].
  apply IH. now apply set_add_nodup.
Qed.

Lemma written_quote_part (p : string) : written p (quote_part p).
Proof.
  unfold written, quote_part. destruct (contains " " p); auto.
Qed.

Lemma written_map (ps : list string) :
  Forall2 written ps (map quote_part ps).
Proof.
  induction ps as [|p ps IH]; cbn [map]; constructor;
    [apply written_quote_part | exact IH].
Qed.

Section WithSetOrder.
Context `{Unicode} `{SetOrder} {L : SetOrderLaws}.

Lemma iter_order_in (l : list string) (x : string) :
  In x (iter_order l) <-> In x l.
Proof.
  split; apply Permutation_in;
    [apply iter_order_perm | apply Permutation_sym, iter_order_perm].
Qed.

Lemma iter_order_nodup (l : list string) : NoDup l -> NoDup (iter_order l).
Proof.
  apply Permutation_NoDup, Permutation_sym, iter_order_perm.
Qed.

Lemma parts_of_in (t : string) (syns : set string) (p : string) :
  In p (parts_of t syns)
  <-> p = str_lower t \/ exists s, In s syns /\ p = str_lower s.
Proof.
  unfold parts_of. rewrite set_union_iff, set_add_iff, fold_add_lower_in.
  cbn [empty_set In]. split.
  - intros [[->|[]]|[[]|(s & Hs & ->)]]; auto.
    right. exists s. split; [|reflexivity]. now apply iter_order_in.
  - intros [->|(s & Hs & ->)]; auto.
    right. right. exists s. split; [|reflexivity]. now apply iter_order_in.
Qed.

Lemma parts_of_nodup (t : string) (syns : set string) :
  NoDup (parts_of t syns).
Proof.
  unfold parts_of. apply set_union_nodup.
  - apply set_add_nodup. constructor.
  - apply fold_add_lower_nodup. constructor.
Qed.

(** The group the loop builds for a stripped term is the group of that
    term. *)
Lemma group_of_is_group (con : Connection) (t : string) :
  is_group con t (group_of (parts_of t (fst (get_synonyms con t)))).
Proof.
  exists (iter_order (parts_of t (fst (get_synonyms con t)))),
         (map quote_part (iter_order (parts_of t (fst (get_synonyms con t))))).
  split; [|split; [|split]].
  - apply iter_order_nodup, parts_of_nodup.
  - intros p. rewrite iter_order_in, parts_of_in. unfold is_part.
    split; (intros [->|Hs]; [now left|right]).
    + destruct Hs as (s & Hs & ->).
      apply get_synonyms_spec in Hs as (syn & Hsyn & ->).
      exists syn. split; [assumption | reflexivity].
    + destruct Hs as (syn & Hsyn & ->).
      exists (str_lower (strip syn)). split; [|reflexivity].
      apply get_synonyms_spec. now exists syn.
  - apply written_map.
  - reflexivity.
Qed.

Lemma build_loop_groups (con : Connection) (terms : list string)
    (gs0 : list string) (log0 : list statement) :
  exists gs log,
    fold_left (build_step con) terms (gs0, log0)
    = ((gs0 ++ gs)%list, (log0 ++ log)%list)
    /\ Forall2 (is_group con) (map strip (filter not_blank terms)) gs.
Proof.
  revert gs0 log0. induction terms as [|t terms IH]; intros gs0 log0.
  - exists [], []. cbn [fold_left filter map]. rewrite !app_nil_r.
    split; [reflexivity | constructor].
  - cbn [fold_left filter]. unfold build_step at 2, not_blank.
    destruct (truthy (strip t)) eqn:T; cbn [negb].
    + destruct (get_synonyms con (strip t)) as [syns executed] eqn:G.
      destruct (IH (gs0 ++ [group_of (parts_of (strip t) syns)])%list
                   (log0 ++ executed)%list) as (gs & log & E & F).
      exists (group_of (parts_of (strip t) syns) :: gs), (executed ++ log)%list.
      rewrite E, <- !app_assoc. split; [reflexivity|].
      cbn [map]. constructor; [|exact F].
      replace syns with (fst (get_synonyms con (strip t))) by now rewrite G.
      apply group_of_is_group.
    + destruct (IH gs0 log0) as (gs & log & E & F).
      exists gs, log. auto.
Qed.

End WithSetOrder.

Lemma join_nonempty (g : string) (gs : list string) :
  truthy g = true -> truthy (join " OR " (g :: gs)) = true.
Proof.
  intros Hg. cbn [join]. destruct gs; [assumption|]. now apply truthy_app_l.
Qed.

Lemma build_all_blank `{Unicode} `{SetOrder} (con : Connection)
    (terms : list string) :
  (forall t, In t terms -> strip t = "") ->
  build_fts_query terms con = ("", []).
Proof.
  intros Hb. unfold build_fts_query.
  assert (E : forall acc, fold_left (build_step con) terms acc = acc).
  { induction terms as [|t terms IH]; intros acc; [reflexivity|].
    cbn [fold_left]. unfold build_step at 2. destruct acc as [gs log].
    rewrite (Hb t (or_introl eq_refl)). cbn [truthy negb].
    apply IH. intros t' Ht'. apply Hb. now right. }
  now rewrite E.
Qed.

(** *** The properties of the query builder and of the search *)

Lemma insertion_order_laws : @SetOrderLaws insertion_order.
Proof. split. intros l. apply Permutation_refl. Qed.

Lemma reverse_order_laws : @SetOrderLaws reverse_order.
Proof. split. intros l. apply Permutation_sym, Permutation_rev. Qed.

(** C5.  The group [build_fts_query] builds for a term misses the
    synonyms of the term when the stored term holds a capital letter
    outside ASCII.  The store holds the term [Álgebra] with the synonym
    [mate], and the term [Algebra] with the synonym [lineal].  For the
    interest [Algebra] the group holds the term in lower case and its
    synonym; for the interest [Álgebra], and for [álgebra], it holds the
    term alone, whatever the order of iteration: the query compares the
    interest, which Python has put in lower case, with the stored term
    as SQLite puts it in lower case, and SQLite changes ASCII letters
    only. *)
Theorem build_fts_query_misses_synonym `{SetOrder} {L : SetOrderLaws} :
  stored_synonym (H := UrlSpec.latin_unicode) algebra_con "Algebra" "lineal"
  /\ (fst (@build_fts_query UrlSpec.latin_unicode _ ["Algebra"] algebra_con)
      = "(algebra OR lineal)"
      \/ fst (@build_fts_query UrlSpec.latin_unicode _ ["Algebra"] algebra_con)
         = "(lineal OR algebra)")
  /\ In (1, "Álgebra") (terms algebra_con)
  /\ In (1, Some "mate") (synonyms algebra_con)
  /\ fst (@build_fts_query UrlSpec.latin_unicode _ ["Álgebra"] algebra_con)
     = "(álgebra)"
  /\ fst (@build_fts_query UrlSpec.latin_unicode _ ["álgebra"] algebra_con)
     = "(álgebra)".
Proof.
  pose proof (iter_order_perm ["lineal"]) as P1.
  apply Permutation_sym, Permutation_length_1_inv in P1.
  pose proof (iter_order_perm ["algebra"; "lineal"]) as P2.
  apply Permutation_sym, Permutation_length_2_inv in P2.
  pose proof (iter_order_perm ["álgebra"]) as P3.
  apply Permutation_sym, Permutation_length_1_inv in P3.
  pose proof (iter_order_perm (@nil string)) as P0.
  apply Permutation_sym, Permutation_nil in P0.
  split; [|split; [|split; [|split; [|split]]]].
  - exists 2, "Algebra". split; [reflexivity|].
    split; [right; left; reflexivity | discriminate].
  - unfold build_fts_query. cbn [fold_left]. unfold build_step.
    change (strip "Algebra") with "Algebra". cbn [truthy negb].
    change (@get_synonyms UrlSpec.latin_unicode algebra_con "Algebra")
      with (["lineal"], [SelectTermId "algebra"; SelectSynonyms 2]).
    unfold parts_of. rewrite P1.
    change (set_union string_dec
              (set_add string_dec (@str_lower UrlSpec.latin_unicode "Algebra")
                       (empty_set string))
              (fold_left (fun acc s =>
                            set_add string_dec (@str_lower UrlSpec.latin_unicode s) acc)
                         ["lineal"] (empty_set string)))
      with ["algebra"; "lineal"].
    unfold group_of. destruct P2 as [-> | ->]; [left | right]; reflexivity.
  - left. reflexivity.
  - left. reflexivity.
  - unfold build_fts_query. cbn [fold_left]. unfold build_step.
    change (strip "Álgebra") with "Álgebra". cbn [truthy negb].
    change (@get_synonyms UrlSpec.latin_unicode algebra_con "Álgebra")
      with (@nil string, [SelectTermId "álgebra"]).
    unfold parts_of. rewrite P0.
    change (set_union string_dec
              (set_add string_dec (@str_lower UrlSpec.latin_unicode "Álgebra")
                       (empty_set string))
              (fold_left (fun acc s =>
                            set_add string_dec (@str_lower UrlSpec.latin_unicode s) acc)
                         [] (empty_set string)))
      with ["álgebra"].
    unfold group_of. rewrite P3. reflexivity.
  - unfold build_fts_query. cbn [fold_left]. unfold build_step.
    change (strip "álgebra") with "álgebra". cbn [truthy negb].
    change (@get_synonyms UrlSpec.latin_unicode algebra_con "álgebra")
      with (@nil string, [SelectTermId "álgebra"]).
    unfold parts_of. rewrite P0.
    change (set_union string_dec
              (set_add string_dec (@str_lower UrlSpec.latin_unicode "álgebra")
                       (empty_set string))
              (fold_left (fun acc s =>
                            set_add string_dec (@str_lower UrlSpec.latin_unicode s) acc)
                         [] (empty_set string)))
      with ["álgebra"].
    unfold group_of. rewrite P3. reflexivity.
Qed.

Lemma build_fts_query_misses_synonym_witness :
  fst (@build_fts_query UrlSpec.latin_unicode reverse_order ["Álgebra"] algebra_con)
  = "(álgebra)".
Proof.
  exact (proj1 (proj2 (proj2 (proj2 (proj2
           (@build_fts_query_misses_synonym reverse_order
              reverse_order_laws)))))).
Defined.

(** C9.  With a match expression that is not empty, [search] returns the
    rows of the ranked query when that query succeeds; when it raises
    [OperationalError], [search] runs the unranked query with the same
    match expression and limit and returns what that query returns.
    With blank interests only, the match expression is empty and
    [search] returns the empty list without executing a statement. *)
Theorem search_falls_back `{Unicode} `{SetOrder} `{Fts}
    (con : Connection) (interests : list string) (top : Z) :
  let m := fst (build_fts_query interests con) in
  let log := snd (build_fts_query interests con) in
  (m <> "" -> forall rows, select_ranked con m top = Ok rows ->
     search con interests top = (Ok rows, (log ++ [SelectRanked m top])%list))
  /\ (m <> "" -> select_ranked con m top = Raise OperationalError ->
      search con interests top
      = (select_unranked con m top,
         (log ++ [SelectRanked m top; SelectUnranked m top])%list))
  /\ ((forall t, In t interests -> strip t = "") ->
      m = "" /\ search con interests top = (Ok [], [])).
Proof.
  intros m log. subst m log. unfold search.
  split; [|split].
  - intros Hm rows Hr.
    destruct (build_fts_query interests con) as [m log]. cbn [fst snd] in *.
    apply truthy_true in Hm. rewrite Hm, Hr. reflexivity.
  - intros Hm Hr.
    destruct (build_fts_query interests con) as [m log]. cbn [fst snd] in *.
    apply truthy_true in Hm. rewrite Hm, Hr. reflexivity.
  - intros Hb. rewrite (build_all_blank con interests Hb). split; reflexivity.
Qed.

Lemma search_falls_back_witness :
  @search UrlSpec.latin_unicode insertion_order no_bm25 sample_con ["python"] 20
  = (Ok [("https://e.example/cursos/python", Some "Python para todos", RowId 1)],
     [SelectTermId "python"; SelectRanked "(python)" 20;
      SelectUnranked "(python)" 20])
  /\ @search UrlSpec.latin_unicode insertion_order no_bm25 sample_con [" "; ""] 20
     = (Ok [], []).
Proof.
  destruct (@search_falls_back UrlSpec.latin_unicode insertion_order no_bm25
              sample_con ["python"] 20)
    as (_ & Hfall & _).
  destruct (@search_falls_back UrlSpec.latin_unicode insertion_order no_bm25
              sample_con [" "; ""] 20)
    as (_ & _ & Hblank).
  split.
  - apply Hfall; [discriminate | reflexivity].
  - apply Hblank. intros t [<-|[<-|[]]]; reflexivity.
Defined.

End SearchFacts.

(* ================================================================= *)
(** * Part VII: [crawler.py] *)
(* ================================================================= *)

Module CrawlerFacts.
Import Py PyFacts Db Crawler CompareSpec CrawlerSpec.

(** *** Upsert *)

Lemma existsb_url_false (cs : list Course) (u : string) :
  existsb (fun c => String.eqb (url c) u) cs = false <-> ~ In u (map url cs).
Proof.
  induction cs as [|c cs IH]; cbn [existsb map In]; [tauto|].
  rewrite orb_false_iff, IH, String.eqb_neq. tauto.
Qed.

Lemma rows_at_absent (cs : list Course) (u : string) :
  ~ In u (map url cs) -> rows_at u cs = [].
Proof.
  unfold rows_at. induction cs as [|c cs IH]; cbn [map In filter]; [reflexivity|].
  intros Hn. destruct (String.eqb_spec (url c) u) as [E|E]; [tauto|].
  apply IH. tauto.
Qed.

Lemma insert_keeps_urls (cs : list Course) (u : string) (f : CourseFields) :
  existsb (fun c => String.eqb (url c) u) cs = true ->
  map url (insert_on_conflict_update cs u f) = map url cs.
Proof.
  unfold insert_on_conflict_update. intros ->.
  rewrite map_map. apply map_ext. intros c.
  now destruct (String.eqb (url c) u).
Qed.

Lemma insert_nodup (cs : list Course) (u : string) (f : CourseFields) :
  NoDup (map url cs) -> NoDup (map url (insert_on_conflict_update cs u f)).
Proof.
  intros Hnd.
  destruct (existsb (fun c => String.eqb (url c) u) cs) eqn:E.
  - now rewrite (insert_keeps_urls cs u f E).
  - unfold insert_on_conflict_update. rewrite E, map_app. cbn [map url].
    apply existsb_url_false in E.
    apply NoDup_app; [assumption | repeat constructor; auto | ].
    intros x Hx [<-|[]]. contradiction.
Qed.

Lemma insert_lookup (cs : list Course) (u : string) (f : CourseFields) :
  NoDup (map url cs) ->
  exists id, rows_at u (insert_on_conflict_update cs u f) = [mkCourse id u f].
Proof.
  intros Hnd. unfold insert_on_conflict_update.
  destruct (existsb (fun c => String.eqb (url c) u) cs) eqn:E.
  - induction cs as [|c cs IH]; [discriminate|].
    cbn [map] in Hnd. inversion Hnd as [|x xs Hx Hnd']; subst.
    cbn [existsb] in E. cbn [map]. unfold rows_at. cbn [filter].
    destruct (String.eqb_spec (url c) u) as [Eu|Eu].
    + cbn [url]. rewrite Eu, String.eqb_refl.
      exists (course_id c). f_equal.
      assert (Hmap : map (fun c0 => if String.eqb (url c0) u
                                    then mkCourse (course_id c0) (url c0) f
                                    else c0) cs = cs).
      { rewrite <- (map_id cs) at 2. apply map_ext_in. intros c0 Hc0.
        destruct (String.eqb_spec (url c0) u) as [E0|E0]; [|reflexivity].
        exfalso. apply Hx. rewrite Eu, <- E0. now apply in_map. }
      rewrite Hmap. apply rows_at_absent. now rewrite <- Eu.
    + apply String.eqb_neq in Eu. rewrite Eu in *. cbn [orb] in E.
      destruct (IH Hnd' E) as [id Hid]. exists id. exact Hid.
  - apply existsb_url_false in E. unfold rows_at. rewrite filter_app.
    fold (rows_at u cs). rewrite (rows_at_absent cs u E).
    cbn [filter url app]. rewrite String.eqb_refl. now eexists.
Qed.

(** C7.  In a table where no two rows share a url, upserting two rows
    with the same url, one after the other, leaves exactly one row under
    that url, and the row holds every field of the second upsert. *)
Theorem upsert_course_twice (con : Connection) (r1 r2 : Row) :
  NoDup (map url (courses con)) ->
  row_url r1 = row_url r2 ->
  let con2 := upsert_course (upsert_course con r1) r2 in
  (exists id, rows_at (row_url r2) (courses con2)
              = [mkCourse id (row_url r2) (row_fields r2)])
  /\ NoDup (map url (courses con2)).
Proof.
  intros Hnd Hu con2. subst con2. unfold upsert_course.
  cbn [courses with_courses].
  pose proof (insert_nodup (courses con) (row_url r1) (row_fields r1) Hnd) as H1.
  split.
  - apply insert_lookup. exact H1.
  - apply insert_nodup. exact H1.
Qed.

Lemma upsert_course_twice_witness :
  exists id,
    rows_at "https://e.example/cursos/python"
      (courses
         (upsert_course
            (upsert_course sample_con
               (mkRow "https://e.example/cursos/python"
                      (sample_fields "Python I" "primera version")))
            (mkRow "https://e.example/cursos/python"
                   (sample_fields "Python II" "segunda version"))))
    = [mkCourse id "https://e.example/cursos/python"
         (sample_fields "Python II" "segunda version")].
Proof.
  refine (proj1 (@upsert_course_twice sample_con
            (mkRow "https://e.example/cursos/python"
                   (sample_fields "Python I" "primera version"))
            (mkRow "https://e.example/cursos/python"
                   (sample_fields "Python II" "segunda version")) _ _)).
  - repeat constructor; cbn; intuition discriminate.
  - reflexivity.
Defined.

(** *** The detail loop *)

Lemma insert_in (cs : list Course) (u : string) (f : CourseFields) (c : Course) :
  In c (insert_on_conflict_update cs u f) -> In c cs \/ fields c = f.
Proof.
  unfold insert_on_conflict_update.
  destruct (existsb (fun c0 => String.eqb (url c0) u) cs).
  - rewrite in_map_iff. intros (c0 & E & Hc0).
    destruct (String.eqb (url c0) u); subst c; auto.
  - rewrite in_app_iff. cbn [In]. intros [Hc|[<-|[]]]; auto.
Qed.

Lemma title_present (row : Row) :
  title_missing row = false ->
  exists t, title (row_fields row) = Some t /\ t <> "".
Proof.
  unfold title_missing. destruct (title (row_fields row)) as [t|]; [|discriminate].
  rewrite negb_false_iff, truthy_true. intros Ht. now exists t.
Qed.

Section WithBrowser.
Context `{Dom} {W : Type} `{Browser W}.

Lemma visit_link_keeps (args : Args) (total : nat)
    (st : Connection * W * nat * list event) (link : string) (c : Course) :
  In c (courses (state_con (visit_link args total st link))) ->
  In c (courses (state_con st)) \/ titled c.
Proof.
  destruct st as [[[con w] visited] out]. unfold visit_link, state_con.
  destruct (driver_get link w) as [w1 loaded].
  destruct loaded; cbn [negb fst]; [|auto].
  destruct (sleep (delay args) w1) as [w2 [e|]]; cbn [fst]; [auto|].
  destruct (page_source w2) as [html|e]; cbn [fst]; [|auto].
  destruct (title_missing _) eqn:T; cbn [fst]; [auto|].
  unfold upsert_course. cbn [courses with_courses].
  intros Hc. apply insert_in in Hc as [Hc|Hc]; [auto|].
  right. unfold titled. rewrite Hc. now apply title_present.
Qed.

Lemma visit_loop_keeps (args : Args) (total : nat) (links : list string)
    (st : Connection * W * nat * list event) (c : Course) :
  In c (courses (state_con (fold_left (visit_link args total) links st))) ->
  In c (courses (state_con st)) \/ titled c.
Proof.
  revert st. induction links as [|l links IH]; intros st; cbn [fold_left]; [auto|].
  intros Hc. apply IH in Hc as [Hc|Hc]; [|auto].
  now apply visit_link_keeps in Hc.
Qed.

End WithBrowser.

(** C6.  Every row in the store after a run of [crawl] was there before
    the run or has a title that is not empty.  On a detail page whose
    extracted title is empty, the loop leaves the store and the count as
    they are and prints the skip line, not the error line. *)
Theorem crawl_skips_untitled `{HostChecks} `{UrlJoin} `{Unicode} `{Dom}
    {W : Type} `{Browser W} (args : Args) (con : Connection) (w : W) :
  (forall c, In c (courses (final_con (crawl args con w))) ->
             In c (courses con) \/ titled c)
  /\ (forall total con0 w0 w1 w2 html visited out link,
        driver_get link w0 = (w1, true) ->
        sleep (delay args) w1 = (w2, None) ->
        page_source w2 = Ok html ->
        title (row_fields (parse_course_detail html link)) = Some "" ->
        visit_link args total (con0, w0, visited, out) link
        = (con0, w2, visited, (out ++ [Skipped link])%list)).
Proof.
  split.
  - intros c. unfold crawl.
    destruct (iterate_pages_and_collect_links w (start args) (pages args)
                                              (delay args))
      as [[w1 out] [links|e]]; cbn [final_con]; [|auto].
    destruct (fold_left _ _ _) as [[[con1 w2] visited] out1] eqn:F.
    cbn [final_con]. intros Hc.
    apply (visit_loop_keeps args (List.length links) (sorted links)
             (con, w1, 0, (out ++ [TotalLinks (List.length links)])%list) c).
    now rewrite F.
  - intros total con0 w0 w1 w2 html visited out link Hget Hsleep Hsrc Ht.
    unfold visit_link. rewrite Hget. cbn [negb]. rewrite Hsleep, Hsrc.
    unfold title_missing, stamp. cbn [row_fields title].
    now rewrite Ht.
Qed.

Lemma crawl_skips_untitled_witness :
  (forall c,
     In c (courses (final_con
             (@crawl strict_checks UrlSpec.keep_reference
                     UrlSpec.latin_unicode sample_dom string sample_browser
                     sample_args sample_con "about:blank"))) ->
     In c (courses sample_con) \/ titled c)
  /\ @visit_link sample_dom string sample_browser sample_args 3
       (sample_con, "catalog/p2", 2, []) "https://e.example/c"
     = (sample_con, "https://e.example/c", 2, [Skipped "https://e.example/c"]).
Proof.
  destruct (@crawl_skips_untitled strict_checks UrlSpec.keep_reference
              UrlSpec.latin_unicode sample_dom string sample_browser
              sample_args sample_con "about:blank") as [Hkeep Hskip].
  split; [exact Hkeep|].
  apply (Hskip 3 sample_con "catalog/p2" "https://e.example/c"
               "https://e.example/c" "https://e.example/c");
    reflexivity.
Defined.

(** *** The pagination loop *)


Section Cards.
Context `{HostChecks} `{UrlJoin} `{Unicode}.

(** What one card adds to the link set. *)
Lemma collect_card_spec (start_url : string) (card : Card)
    (links links1 : set string) (n n1 : nat) :
  collect_card start_url (links, n) card = Ok (links1, n1) ->
  forall l,
    In l links1
    <-> In l links
        \/ (is_course_card card = true
            /\ extract_course_link_from_card card start_url = Ok (Some l)
            /\ l <> "").
Proof.
  unfold collect_card.
  destruct (is_course_card card); cbn [negb].
  - destruct (extract_course_link_from_card card start_url) as [[link|]|e];
      cbn [bind]; [| |discriminate].
    + destruct (truthy link) eqn:T; intros E; injection E as <- <-; intros l.
      * rewrite set_add_iff. apply truthy_true in T. split.
        -- intros [-> | Hl]; auto.
        -- intros [Hl | (_ & E & _)]; [auto|]. injection E as ->. auto.
      * apply truthy_false in T. split; [auto|].
        intros [Hl | (_ & E & Hne)]; [auto|]. injection E as ->.
        congruence.
    + intros E; injection E as <- <-; intros l.
      split; [auto|]. intros [Hl | (_ & E & _)]; [auto | discriminate].
  - intros E; injection E as <- <-; intros l.
    split; [auto|]. intros [Hl | (E & _)]; [auto | discriminate].
Qed.





End Cards.

Section Walker.
Context `{HostChecks} `{UrlJoin} `{Unicode} `{Dom} {W : Type} `{Browser W}.

Lemma page_step_shape (start_url : string) (delay : spec_float) (w : W)
    (links : set string) (last : string) (out : list event) (i : nat) :
  page_step start_url delay (w, links, last, out) i
  = match page_links start_url (fst (click_and_wait i delay last w)) links with
    | Ok (links1, n) =>
        inl (pause (fst (click_and_wait i delay last w)), links1,
             snd (click_and_wait i delay last w),
             (out ++ [PageLine i n (List.length links1)])%list)
    | Raise e => inr (fst (click_and_wait i delay last w), out, e)
    end.
Proof.
  unfold page_step, page_links.
  destruct (click_and_wait i delay last w) as [w1 last1]. cbn [fst snd].
  destruct (get_cards_on_page w1) as [cards|e]; cbn [bind]; [|reflexivity].
  now destruct (collect_cards start_url cards (links, 0)) as [[l n]|e].
Qed.





End Walker.





End CrawlerFacts.

(* ================================================================= *)
(** * Part VIII: further properties of [util.py] *)
(* ================================================================= *)

Module MoreUtilFacts.
Import Py PyFacts StripFacts Urllib UrlSpec UrlFacts Util UtilFacts MoreSpec.

(** *** What the filter accepts *)

(** X1.  [is_url_ok_to_follow] returns [True] exactly for a URL that
    parses with the scheme [http] or [https] and a network location,
    holds no [@], has its network location in the domain, and has the
    path of a page: empty, ending in [/], with a file name without
    extension, or with the extension [html]. *)
Theorem is_url_ok_to_follow_only `{HostChecks} `{Unicode} {L : UnicodeLaws}
    (url domain : string) :
  is_url_ok_to_follow url domain = Ok true
  <-> exists p,
        urlparse url = Ok p
        /\ mem (scheme p) ["http"; "https"] = true
        /\ netloc p <> ""
        /\ contains "@" url = false
        /\ in_domain (netloc p) domain = true
        /\ page_path (path p) = true.
Proof.
  split.
  - intros Hok. destruct (is_url_ok_to_follow_parses _ _ Hok) as [p Hp].
    rewrite (is_url_ok_to_follow_eq _ domain _ Hp) in Hok.
    injection Hok as Hok. rewrite !andb_true_iff in Hok.
    destruct Hok as [[[[Hs Hn] Hat] Hd] Hpl].
    apply negb_true_iff, orb_false_iff in Hat as [Hat _].
    exists p. repeat split; try assumption. now apply truthy_true.
  - intros (p & Hp & Hs & Hn & Hat & Hd & Hpl).
    rewrite (is_url_ok_to_follow_eq _ domain _ Hp).
    apply truthy_true in Hn.
    now rewrite Hs, Hn, Hat, (http_not_mailto _ _ Hp Hs), Hd, Hpl.
Qed.

Lemma is_url_ok_to_follow_only_witness :
  exists p,
    @urlparse strict_checks "https://cursos.example.com/a/b" = Ok p
    /\ mem (scheme p) ["http"; "https"] = true
    /\ netloc p <> ""
    /\ contains "@" "https://cursos.example.com/a/b" = false
    /\ @in_domain latin_unicode (netloc p) "example.com" = true
    /\ page_path (path p) = true.
Proof.
  apply (proj1 (@is_url_ok_to_follow_only strict_checks latin_unicode
                  latin_unicode_laws "https://cursos.example.com/a/b"
                  "example.com")).
  reflexivity.
Defined.

(** *** Extensions *)

Lemma lower_alnum (c : ascii) :
  is_alnum c = true -> is_lower_alnum (lower_char c) = true.
Proof. by_cases_on_char c. Qed.

Lemma str_all_lower_alnum (g : string) :
  str_all is_alnum g = true -> str_all is_lower_alnum (lower g) = true.
Proof.
  induction g as [|c g IH]; [reflexivity|].
  change (lower (String c g)) with (String (lower_char c) (lower g)).
  cbn [str_all]. rewrite andb_true_iff. intros [Hc Hg].
  now rewrite (lower_alnum c Hc), (IH Hg).
Qed.

(** X2.  The extension that [_filename_extension] returns is empty, or a
    dot followed by at least one character, each an ASCII lower-case
    letter or a digit. *)
Theorem filename_extension_shape (path : string) :
  _filename_extension path = ""
  \/ exists g, _filename_extension path = "." ++ g
               /\ g <> "" /\ str_all is_lower_alnum g = true.
Proof.
  unfold _filename_extension.
  destruct (negb (truthy path)); [now left|].
  destruct (filter truthy (split "/" path)) as [|seg segs]; [now left|].
  destruct (ext_search (last (seg :: segs) "")) as [g|] eqn:E; [|now left].
  right. destruct (ext_search_some _ _ E) as [Hg Ha].
  exists (lower g). split; [reflexivity|]. split.
  - apply truthy_true. now rewrite lower_truthy.
  - now apply str_all_lower_alnum.
Qed.

(** X3.  A path that ends in a dot and a run of ASCII letters and digits
    has that run, in lower case, as its extension, whatever comes
    before. *)
Theorem filename_extension_of_suffix (pre g : string) :
  g <> "" -> str_all is_alnum g = true ->
  _filename_extension (pre ++ "." ++ g) = "." ++ lower g.
Proof.
  intros Hg Ha. apply truthy_true in Hg.
  unfold _filename_extension.
  assert (Ht : truthy (pre ++ "." ++ g) = true) by now destruct pre.
  rewrite Ht. cbn [negb].
  destruct (segments_of_suffix pre ("." ++ g) (extension_no_slash g Ha)
              eq_refl) as (ys & seg & E).
  rewrite E.
  destruct (ys ++ [(seg ++ "." ++ g)%string])%list as [|y ys'] eqn:F.
  - now destruct ys.
  - rewrite <- F, last_last.
    change (seg ++ "." ++ g) with (seg ++ String "." g).
    now rewrite (ext_search_dot seg g Hg Ha).
Qed.

Lemma filename_extension_of_suffix_witness :
  _filename_extension "/docs/v1.2/Informe.Final.PDF" = ".pdf".
Proof.
  apply (filename_extension_of_suffix "/docs/v1.2/Informe.Final" "PDF").
  - discriminate.
  - reflexivity.
Defined.

(** X4.  A URL that passes the other tests of [is_url_ok_to_follow] and
    whose path ends in a file extension (a dot and ASCII letters or
    digits) is followed exactly when the extension is [html], in any
    letter case. *)
Theorem is_url_ok_to_follow_extension `{HostChecks} `{Unicode}
    {L : UnicodeLaws} (url domain : string) (p : ParseResult)
    (pre g : string) :
  urlparse url = Ok p ->
  is_absolute_url url = Ok true ->
  contains "@" url = false ->
  in_domain (netloc p) domain = true ->
  path p = pre ++ "." ++ g ->
  g <> "" -> str_all is_alnum g = true ->
  is_url_ok_to_follow url domain = Ok (String.eqb (lower g) "html").
Proof.
  intros Hp Habs Hat Hd Hpath Hg Ha.
  unfold is_url_ok_to_follow. rewrite Habs. cbn [bind negb].
  rewrite (is_absolute_url_spec _ _ Hp) in Habs.
  injection Habs as Habs. apply andb_true_iff in Habs as [Hs _].
  rewrite Hat, (http_not_mailto _ _ Hp Hs). cbn [orb].
  rewrite Hp. cbn [bind]. fold (in_domain (netloc p) domain).
  rewrite Hd. cbn [negb]. rewrite Hpath.
  assert (Ht : truthy (pre ++ "." ++ g) = true) by now destruct pre.
  rewrite Ht, (endswith_slash_alnum pre g Hg Ha).
  unfold _filename_extension. rewrite Ht. cbn [negb].
  destruct (segments_of_suffix pre ("." ++ g) (extension_no_slash g Ha)
              eq_refl) as (ys & seg & E).
  rewrite E.
  destruct (ys ++ [(seg ++ "." ++ g)%string])%list as [|y ys'] eqn:F;
    [now destruct ys|].
  rewrite <- F, last_last.
  change (seg ++ "." ++ g) with (seg ++ String "." g).
  apply truthy_true in Hg. rewrite (ext_search_dot seg g Hg Ha).
  cbn [append String.eqb].
  change (Ascii.eqb "." ".") with true. cbv iota.
  now destruct (String.eqb (lower g) "html").
Qed.

Lemma is_url_ok_to_follow_extension_witness :
  @is_url_ok_to_follow strict_checks latin_unicode
    "http://example.com/a/Folleto.PDF" "example.com" = Ok false
  /\ @is_url_ok_to_follow strict_checks latin_unicode
       "http://example.com/a/Index.HTML" "example.com" = Ok true.
Proof.
  split.
  - apply (@is_url_ok_to_follow_extension strict_checks latin_unicode
             latin_unicode_laws _ _
             (mkParseResult "http" "example.com" "/a/Folleto.PDF" "" "" "")
             "/a/Folleto" "PDF"); (reflexivity || discriminate).
  - apply (@is_url_ok_to_follow_extension strict_checks latin_unicode
             latin_unicode_laws _ _
             (mkParseResult "http" "example.com" "/a/Index.HTML" "" "" "")
             "/a/Index" "HTML"); (reflexivity || discriminate).
Defined.

(** *** Fragments and the normal form *)

(** X5.  What [remove_fragment] returns holds no [#], and
    [remove_fragment] returns it unchanged when applied again; a URL
    without [#] comes back as it is. *)
Theorem remove_fragment_idempotent `{HostChecks} (u v : string) :
  remove_fragment u = Ok v ->
  contains "#" v = false
  /\ remove_fragment v = Ok v
  /\ (contains "#" u = false -> v = u).
Proof.
  intros Hv.
  assert (Hfix : forall x, contains "#" x = false -> remove_fragment x = Ok x).
  { intros x Hx. unfold remove_fragment, urldefrag.
    destruct x; [reflexivity|]. cbn [truthy negb]. now rewrite Hx. }
  assert (Hno : contains "#" v = false).
  { unfold remove_fragment, urldefrag in Hv.
    destruct u as [|c u]; [injection Hv as <-; reflexivity|].
    cbn [truthy negb] in Hv.
    destruct (contains "#" (String c u)) eqn:C.
    - destruct (urlparse (String c u)) as [p|e] eqn:Hp; [|discriminate].
      cbn [bind] in Hv. injection Hv as <-.
      destruct (urlparse_no_hash _ _ Hp) as (H1 & H2 & H3 & H4 & H5).
      now apply urlunparse_without.
    - injection Hv as <-. exact C. }
  split; [exact Hno|]. split; [now apply Hfix|].
  intros Hu. rewrite (Hfix u Hu) in Hv. now injection Hv.
Qed.

Lemma remove_fragment_idempotent_witness :
  contains "#" "http:////a?x" = false
  /\ @remove_fragment strict_checks "http:////a?x" = Ok "http:////a?x".
Proof.
  destruct (@remove_fragment_idempotent strict_checks
              "http://////a?x#frag#more" "http:////a?x" eq_refl)
    as (Hno & Hagain & _).
  split; [exact Hno | exact Hagain].
Defined.

Lemma lower_ascii (s : string) :
  str_all is_ascii (lower s) = str_all is_ascii s.
Proof.
  unfold lower. induction s as [|c s IH]; [reflexivity|].
  cbn [str_map str_all]. rewrite IH. f_equal. by_cases_on_char c.
Qed.

Lemma in_domain_lower `{Unicode} (n d : string) :
  str_all is_ascii n = true -> in_domain (lower n) d = in_domain n d.
Proof.
  intros Hn. unfold in_domain.
  rewrite (str_lower_ascii n Hn), str_lower_ascii
    by now rewrite lower_ascii.
  now rewrite lower_idem.
Qed.

(** X6.  A URL with an ASCII network location that
    [is_url_ok_to_follow] accepts is still accepted, for the same
    domain, after [normalize_url]. *)
Theorem normalize_url_keeps_accepted `{HostChecks} `{Unicode}
    {L : HostChecksLaws} {U : UnicodeLaws}
    (u domain : string) (p : ParseResult) :
  urlparse u = Ok p -> str_all is_ascii (netloc p) = true ->
  is_url_ok_to_follow u domain = Ok true ->
  exists v, normalize_url u = Ok v
            /\ is_url_ok_to_follow v domain = Ok true.
Proof.
  intros Hp Hascii Hok.
  rewrite (is_url_ok_to_follow_eq _ domain _ Hp) in Hok.
  injection Hok as Hok. rewrite !andb_true_iff in Hok.
  destruct Hok as [[[[Hs Hn] Hat] Hd] Hpl].
  apply negb_true_iff, orb_false_iff in Hat as [Hat _].
  assert (Hne : netloc p <> "") by now apply truthy_true.
  exists (urlunparse (lowered p)).
  split; [now apply normalize_url_formula|].
  pose proof (urlparse_well_formed _ _ Hp Hne) as Hwf.
  pose proof (urlparse_unparse _ (well_formed_lowered _ Hwf)) as Hv.
  rewrite (is_url_ok_to_follow_eq _ domain _ Hv). f_equal.
  assert (Hsl : lower (scheme p) = scheme p).
  { unfold well_formed in Hwf. rewrite !andb_true_iff in Hwf.
    destruct Hwf as [[[[Hsch _] _] _] _]. cbn [without_fragment scheme] in Hsch.
    now apply scheme_ok_chars in Hsch. }
  assert (Hat' : contains "@" (urlunparse (lowered p)) = false).
  { destruct (urlparse_without "@" u p eq_refl Hp Hat)
      as (A1 & A2 & A3 & A4 & A5 & _).
    apply urlunparse_without; cbn [lowered scheme netloc path params query
                                   fragment]; try reflexivity; try assumption.
    - now rewrite contains_lower.
    - now rewrite contains_lower. }
  assert (Hs' : mem (scheme (lowered p)) ["http"; "https"] = true).
  { cbn [lowered scheme]. now rewrite Hsl. }
  rewrite Hat', (http_not_mailto _ _ Hv Hs'), Hs'.
  cbn [lowered netloc path].
  now rewrite lower_truthy, Hn, Hpl, (in_domain_lower _ _ Hascii), Hd.
Qed.

Lemma normalize_url_keeps_accepted_witness :
  exists v,
    @normalize_url sample_checks latin_unicode
      "HTTPS://WWW.Example.COM/Cursos/?p=1#lista" = Ok v
    /\ @is_url_ok_to_follow sample_checks latin_unicode v "example.com"
       = Ok true.
Proof.
  apply (@normalize_url_keeps_accepted sample_checks latin_unicode
           sample_checks_laws latin_unicode_laws
           "HTTPS://WWW.Example.COM/Cursos/?p=1#lista" "example.com"
           (mkParseResult "https" "WWW.Example.COM" "/Cursos/" "" "p=1"
                          "lista"));
    reflexivity.
Defined.

(** X26.  On a URL with a network location that is ASCII,
    [normalize_url] returns the URL joined from its components with
    scheme and network location in lower case, path, params and query
    as they are, and no fragment.  Normalising that result returns it
    again, and parsing it gives back those components.  Every other
    such URL whose components agree up to the fragment and the case of
    the network location normalises to the same string. *)
Theorem normalize_url_idempotent `{HostChecks} `{Unicode} {L : HostChecksLaws}
    (u : string) (p : ParseResult) :
  urlparse u = Ok p -> netloc p <> "" ->
  str_all is_ascii (netloc p) = true ->
  normalize_url u = Ok (urlunparse (lowered p))
  /\ normalize_url (urlunparse (lowered p)) = Ok (urlunparse (lowered p))
  /\ urlparse (urlunparse (lowered p)) = Ok (lowered p)
  /\ (forall u' p', urlparse u' = Ok p' -> lowered p' = lowered p ->
                    normalize_url u' = normalize_url u).
Proof.
  intros Hp Hn Ha.
  pose proof (normalize_url_formula u p Hp Hn Ha) as Hu.
  pose proof (urlparse_unparse _
                (well_formed_lowered _ (urlparse_well_formed _ _ Hp Hn))) as Hv.
  assert (Hln : netloc (lowered p) <> "").
  { cbn [lowered netloc]. intros E. apply Hn.
    apply truthy_false. rewrite <- lower_truthy. now apply truthy_false. }
  assert (Hla : str_all is_ascii (netloc (lowered p)) = true).
  { cbn [lowered netloc]. now rewrite lower_ascii. }
  split; [|split; [|split]].
  - exact Hu.
  - rewrite (normalize_url_formula _ _ Hv Hln Hla). f_equal. f_equal.
    unfold lowered. cbn [scheme netloc path params query fragment].
    now rewrite !lower_idem.
  - exact Hv.
  - intros u' p' Hp' E. rewrite Hu, <- E.
    assert (En : lower (netloc p') = lower (netloc p)).
    { change (netloc (lowered p') = netloc (lowered p)). now rewrite E. }
    apply normalize_url_formula; [exact Hp'| |].
    + intros E'. apply Hln. cbn [lowered netloc]. rewrite <- En, E'.
      reflexivity.
    + rewrite <- lower_ascii, En, lower_ascii. exact Ha.
Qed.

Lemma normalize_url_idempotent_witness :
  @normalize_url sample_checks latin_unicode
    "HTTP://[2001:DB8::A]:8080/Cursos/a.html;v=1?Q=1#top"
  = Ok "http://[2001:db8::a]:8080/Cursos/a.html;v=1?Q=1"
  /\ @normalize_url sample_checks latin_unicode
       "http://[2001:db8::a]:8080/Cursos/a.html;v=1?Q=1"
     = Ok "http://[2001:db8::a]:8080/Cursos/a.html;v=1?Q=1".
Proof.
  destruct (@normalize_url_idempotent sample_checks latin_unicode
              sample_checks_laws
              "HTTP://[2001:DB8::A]:8080/Cursos/a.html;v=1?Q=1#top"
              (mkParseResult "http" "[2001:DB8::A]:8080" "/Cursos/a.html"
                             "v=1" "Q=1" "top")
              eq_refl) as (A & B & _).
  - discriminate.
  - reflexivity.
  - split; [exact A | exact B].
Defined.

(** *** Links found on a page *)

Lemma lower_letter (c : ascii) :
  is_lower c = true ->
  is_alpha c = true /\ is_scheme_char c = true /\ is_unsafe c = false
  /\ is_c0_or_space c = false /\ lower_char c = c.
Proof. by_cases_on_char c. Qed.

Lemma lower_word (s : string) : str_all is_lower s = true -> lower s = s.
Proof.
  unfold lower. induction s as [|c s IH]; [reflexivity|].
  cbn [str_all str_map]. intros Hs. apply andb_true_iff in Hs as [Hc Hs].
  destruct (lower_letter c Hc) as (_ & _ & _ & _ & ->). now rewrite (IH Hs).
Qed.

Lemma remove_by_app (p : ascii -> bool) (a b : string) :
  remove_by p (a ++ b) = remove_by p a ++ remove_by p b.
Proof.
  induction a as [|c a IH]; [reflexivity|]. cbn [append remove_by].
  destruct (p c); cbn [append]; now rewrite IH.
Qed.

(** A URL that starts with a word of lower-case letters and a colon has
    that word as its scheme. *)
Lemma lower_word_scheme `{HostChecks} (s rest : string) (p : ParseResult) :
  s <> "" -> str_all is_lower s = true ->
  urlparse (s ++ ":" ++ rest) = Ok p -> scheme p = s.
Proof.
  intros Hne Hs Hp.
  destruct (urlparse_inv _ p Hp) as (r & Hr & Es & _).
  rewrite Es. clear Es.
  destruct (urlsplit_inv _ r Hr) as (r1 & r2 & r3 & S1 & _).
  assert (Hc : clean_url (s ++ ":" ++ rest)
               = s ++ String ":" (remove_by is_unsafe rest)).
  { unfold clean_url. rewrite lstrip_by_id.
    - rewrite remove_by_app. f_equal.
      apply remove_by_id. revert Hs. apply str_all_impl.
      intros c Hc. now destruct (lower_letter c Hc) as (_ & _ & -> & _).
    - destruct s as [|c s]; [congruence|]. cbn [append].
      cbn [str_all] in Hs. apply andb_true_iff in Hs as [Hc _].
      now destruct (lower_letter c Hc) as (_ & _ & _ & -> & _). }
  rewrite Hc in S1. unfold split_scheme in S1.
  rewrite partition_app in S1
    by now apply (str_all_not_contains is_lower).
  destruct s as [|c s]; [congruence|].
  assert (Hall : is_alpha c && str_all is_scheme_char (String c s) = true).
  { apply andb_true_iff. split.
    - cbn [str_all] in Hs. apply andb_true_iff in Hs as [Hc' _].
      now destruct (lower_letter c Hc') as (-> & _).
    - revert Hs. apply str_all_impl.
      intros d Hd. now destruct (lower_letter d Hd) as (_ & -> & _). }
  rewrite Hall in S1. injection S1 as <- _. now apply lower_word.
Qed.

Lemma absolute_not_discarded `{HostChecks} (u : string) :
  is_absolute_url u = Ok true ->
  startswith_any ["javascript:"; "tel:"; "mailto:"] u = false.
Proof.
  intros Habs. unfold is_absolute_url in Habs.
  destruct (negb (truthy u)); [discriminate|].
  destruct (urlparse u) as [p|e] eqn:Hp; [|discriminate].
  cbn [bind] in Habs.
  assert (Hs : scheme p = "http" \/ scheme p = "https").
  { destruct (mem (scheme p) ["http"; "https"]) eqn:M; [|discriminate].
    apply mem_in in M. cbn [In] in M. intuition auto. }
  assert (Hno : forall w, str_all is_lower w = true -> w <> "" ->
                  w <> "http" -> w <> "https" ->
                  startswith (w ++ ":") u = false).
  { intros w Hw Hne H1 H2. destruct (startswith (w ++ ":") u) eqn:S;
      [|reflexivity].
    destruct (startswith_inv _ _ S) as [rest ->].
    rewrite sapp_assoc in Hp.
    pose proof (lower_word_scheme w rest p Hne Hw Hp) as E.
    destruct Hs; congruence. }
  assert (J : startswith ("javascript" ++ ":") u = false)
    by (apply Hno; (reflexivity || discriminate)).
  assert (T : startswith ("tel" ++ ":") u = false)
    by (apply Hno; (reflexivity || discriminate)).
  assert (M : startswith ("mailto" ++ ":") u = false)
    by (apply Hno; (reflexivity || discriminate)).
  cbn [append] in J, T, M.
  unfold startswith_any. cbn [existsb]. now rewrite J, T, M.
Qed.

(** X7.  Whatever [convert_if_relative_url] returns, other than [None],
    is an absolute URL in the sense of [is_absolute_url]: it parses, its
    scheme is http or https and it has a host. *)
Theorem convert_if_relative_url_absolute `{HostChecks} `{UrlJoin}
    (page_url discovered_url v : string) :
  convert_if_relative_url page_url discovered_url = Some v ->
  is_absolute_url v = Ok true.
Proof.
  unfold convert_if_relative_url, resolve. intros Hv.
  destruct (negb (truthy discovered_url)); [discriminate|].
  destruct (startswith_any _ _); [discriminate|].
  destruct (is_absolute_url (strip discovered_url)) as [a|e]; [|discriminate].
  cbn [bind] in Hv.
  destruct (if a then Ok (strip discovered_url)
            else urljoin page_url (strip discovered_url)) as [abs_url|e];
    [|discriminate].
  cbn [bind] in Hv.
  destruct (urlparse abs_url) as [p|e] eqn:Hp; [|discriminate].
  cbn [bind] in Hv.
  destruct (mem (scheme p) ["http"; "https"] && truthy (netloc p)) eqn:Hb;
    [|discriminate].
  injection Hv as <-.
  rewrite (is_absolute_url_spec _ _ Hp). now rewrite Hb.
Qed.

Lemma convert_if_relative_url_absolute_witness :
  @convert_if_relative_url strict_checks append_reference
    "http://cursos.example.com/" " diplomado.html "
  = Some "http://cursos.example.com/diplomado.html"
  /\ @is_absolute_url strict_checks "http://cursos.example.com/diplomado.html"
     = Ok true.
Proof.
  split; [reflexivity|].
  apply (@convert_if_relative_url_absolute strict_checks append_reference
           "http://cursos.example.com/" " diplomado.html ").
  reflexivity.
Defined.

(** X8.  A link that is already absolute once stripped of surrounding
    whitespace is returned stripped and otherwise unchanged, whatever the
    page URL, and without joining. *)
Theorem convert_if_relative_url_keeps_absolute `{HostChecks} `{UrlJoin}
    (page_url discovered_url : string) :
  is_absolute_url (strip discovered_url) = Ok true ->
  convert_if_relative_url page_url discovered_url
  = Some (strip discovered_url).
Proof.
  intros Habs. unfold convert_if_relative_url, resolve.
  destruct discovered_url as [|c d]; [discriminate Habs|].
  cbn [truthy negb].
  rewrite (absolute_not_discarded _ Habs), Habs. cbn [bind].
  unfold is_absolute_url in Habs.
  destruct (negb (truthy (strip (String c d)))); [discriminate|].
  destruct (urlparse (strip (String c d))) as [p|e]; [|discriminate].
  cbn [bind] in Habs |- *.
  destruct (mem (scheme p) ["http"; "https"] && truthy (netloc p));
    [reflexivity | discriminate].
Qed.

Lemma convert_if_relative_url_keeps_absolute_witness :
  @convert_if_relative_url strict_checks append_reference
    "http://otra.example.org/lista" "  https://cursos.example.com/a?b=1 "
  = Some "https://cursos.example.com/a?b=1".
Proof.
  apply (@convert_if_relative_url_keeps_absolute strict_checks append_reference
           "http://otra.example.org/lista"
           "  https://cursos.example.com/a?b=1 ").
  reflexivity.
Defined.

End MoreUtilFacts.

(* ================================================================= *)
(** * Part IX: more about [compare.py] *)
(* ================================================================= *)

Module MoreCompareFacts.
Import Py PyFacts StripFacts Db Compare CompareSpec CompareFacts.







(** *** The row a title selector picks *)

Lemma min_by_id_spec (cs : list Course) (m : Course) :
  min_by_id cs = Some m ->
  In m cs /\ forall c, In c cs -> course_id m <= course_id c.
Proof.
  revert m. induction cs as [|c cs IH]; intros m; [discriminate|].
  cbn [min_by_id]. destruct (min_by_id cs) as [m0|] eqn:M.
  - destruct (IH m0 eq_refl) as [Hin Hmin].
    destruct (Nat.ltb_spec (course_id m0) (course_id c)) as [Hlt|Hge];
      intros E; injection E as <-.
    + split; [now right|]. intros c' [<-|Hc']; [lia | auto].
    + split; [now left|]. intros c' [<-|Hc']; [lia|].
      specialize (Hmin c' Hc'). lia.
  - intros E. injection E as <-. apply min_by_id_none in M. subst cs.
    split; [now left|]. intros c' [<-|[]]. lia.
Qed.

(** X11.  For a substring without [%], [_] and NUL, the title selector
    of [compare_course_titles_contains] picks a stored course whose
    title contains the substring, the case of ASCII letters apart, and
    no such course has a smaller [course_id]. *)
Theorem select_id_by_title_smallest (con : Connection) (x : string) (i : nat) :
  str_all is_plain x = true ->
  select_id_by_title con x = Ok (Some i) ->
  (exists c, In c (courses con) /\ course_id c = i
             /\ title_contains x c = true)
  /\ forall c, In c (courses con) -> title_contains x c = true ->
               i <= course_id c.
Proof.
  intros Hx. unfold select_id_by_title.
  assert (Hlike : forall c,
            like_nullable ("%" ++ x ++ "%") (title (fields c))
            = title_contains x c).
  { intros c. unfold like_nullable, title_contains.
    destruct (title (fields c)); [now apply like_contains | reflexivity]. }
  destruct (courses con) as [|c0 cs] eqn:Ec; [discriminate|].
  destruct (N.ltb _ _); [discriminate|].
  destruct (min_by_id _) as [m|] eqn:M; [|discriminate].
  cbn [option_map]. intros E. injection E as <-.
  destruct (min_by_id_spec _ _ M) as [Hin Hmin].
  apply filter_In in Hin as [Hin Hm]. rewrite Hlike in Hm.
  split; [now exists m|].
  intros c Hc Ht. apply Hmin. apply filter_In. now rewrite Hlike.
Qed.

Lemma select_id_by_title_smallest_witness :
  (exists c, In c (courses sample_con) /\ course_id c = 1
             /\ title_contains "TODOS" c = true)
  /\ forall c, In c (courses sample_con) -> title_contains "TODOS" c = true ->
               1 <= course_id c.
Proof.
  apply (select_id_by_title_smallest sample_con "TODOS" 1); reflexivity.
Defined.

(** X12.  White space around the two texts does not change the score of
    [compare_texts]. *)
Theorem compare_texts_strip `{Tfidf} (a b : string) :
  compare_texts (strip a) (strip b) = compare_texts a b.
Proof.
  unfold compare_texts, _tfidf_cosine. now rewrite !strip_idem.
Qed.

End MoreCompareFacts.

(* ================================================================= *)
(** * Part X: more about [search.py] *)
(* ================================================================= *)

Module MoreSearchFacts.
Import Py PyFacts StripFacts Db Search SearchSpec SearchFacts MoreSpec.

Lemma str_lower_truthy `{Unicode} {U : UrlSpec.UnicodeLaws} (s : string) :
  truthy (str_lower s) = truthy s.
Proof.
  unfold str_lower. destruct (str_all is_ascii s).
  - apply lower_truthy.
  - apply UrlSpec.unicode_lower_truthy.
Qed.

Lemma get_synonyms_same `{Unicode} (con : Connection) (a b : string) :
  same_interest a b -> get_synonyms con a = get_synonyms con b.
Proof. unfold same_interest, get_synonyms. now intros ->. Qed.

Section WithOrder.
Context `{Unicode} `{SetOrder}.

Lemma build_step_same {U : UrlSpec.UnicodeLaws} (con : Connection)
    (acc : list string * list statement) (a b : string) :
  same_interest a b -> build_step con acc a = build_step con acc b.
Proof.
  intros Hab. unfold build_step. destruct acc as [gs log].
  assert (Ht : truthy (strip a) = truthy (strip b)).
  { rewrite <- (str_lower_truthy (strip a)), <- (str_lower_truthy (strip b)).
    now rewrite Hab. }
  rewrite Ht. destruct (truthy (strip b)); [|reflexivity]. cbn [negb].
  assert (Hs : get_synonyms con (strip a) = get_synonyms con (strip b)).
  { apply get_synonyms_same. unfold same_interest. now rewrite !strip_idem. }
  rewrite Hs. destruct (get_synonyms con (strip b)) as [syns executed].
  unfold parts_of. unfold same_interest in Hab. now rewrite Hab.
Qed.

Lemma build_fts_query_same {U : UrlSpec.UnicodeLaws} (con : Connection)
    (ts ts' : list string) :
  Forall2 same_interest ts ts' ->
  build_fts_query ts con = build_fts_query ts' con.
Proof.
  intros Hs. unfold build_fts_query.
  assert (E : forall acc, fold_left (build_step con) ts acc
                          = fold_left (build_step con) ts' acc).
  { induction Hs as [|a b ts ts' Hab Hs IH]; intros acc; [reflexivity|].
    cbn [fold_left]. now rewrite (build_step_same con acc a b Hab). }
  now rewrite E.
Qed.

Lemma build_step_app (con : Connection) (gs0 : list string)
    (log0 : list statement) (t : string) :
  build_step con (gs0, log0) t
  = ((gs0 ++ fst (build_step con ([], []) t))%list,
     (log0 ++ snd (build_step con ([], []) t))%list).
Proof.
  unfold build_step. destruct (negb (truthy (strip t))).
  - cbn [fst snd]. now rewrite !app_nil_r.
  - now destruct (get_synonyms con (strip t)) as [syns executed].
Qed.

(** The loop started from any groups and log adds what it produces when
    started from nothing. *)
Lemma build_loop_app (con : Connection) (ts : list string)
    (gs0 : list string) (log0 : list statement) :
  fold_left (build_step con) ts (gs0, log0)
  = ((gs0 ++ fst (fold_left (build_step con) ts ([], [])))%list,
     (log0 ++ snd (fold_left (build_step con) ts ([], [])))%list).
Proof.
  revert gs0 log0. induction ts as [|t ts IH]; intros gs0 log0.
  - cbn [fold_left fst snd]. now rewrite !app_nil_r.
  - cbn [fold_left]. rewrite build_step_app, IH.
    destruct (build_step con ([], []) t) as [g l]. cbn [fst snd].
    rewrite (IH g l). cbn [fst snd]. now rewrite <- !app_assoc.
Qed.

Lemma build_loop_facts (con : Connection) (ts : list string) :
  let r := fold_left (build_step con) ts ([], []) in
  Forall (fun g => truthy g = true) (fst r)
  /\ Forall (fun s => is_lookup s = true) (snd r)
  /\ (fst r = [] <-> forall t, In t ts -> strip t = "").
Proof.
  induction ts as [|t ts IH]; cbn zeta.
  - cbn [fold_left fst snd].
    split; [constructor | split; [constructor|]].
    split; [intros _ t [] | reflexivity].
  - cbn zeta in IH. destruct IH as (Hg & Hl & Hnil).
    cbn [fold_left].
    destruct (build_step con ([], []) t) as [g l] eqn:S.
    rewrite build_loop_app. cbn [fst snd].
    unfold build_step in S.
    destruct (truthy (strip t)) eqn:T; cbn [negb] in S.
    + destruct (get_synonyms con (strip t)) as [syns executed] eqn:G.
      injection S as <- <-. cbn [app].
      split; [|split].
      * constructor; [reflexivity | exact Hg].
      * apply Forall_app. split; [|exact Hl].
        unfold get_synonyms in G.
        destruct (find _ (terms con)) as [[term_id term]|];
          injection G as _ <-; repeat constructor.
      * split; [discriminate|]. intros Hb.
        rewrite (Hb t (or_introl eq_refl)) in T. discriminate.
    + injection S as <- <-. cbn [app].
      split; [exact Hg|]. split; [exact Hl|].
      rewrite Hnil. apply truthy_false in T. split.
      * intros Hb t' [<-|Ht']; auto.
      * intros Hb t' Ht'. apply Hb. now right.
Qed.

Lemma join_truthy (gs : list string) :
  Forall (fun g => truthy g = true) gs -> gs <> [] ->
  truthy (join " OR " gs) = true.
Proof.
  intros Hg Hne. destruct gs as [|g gs]; [congruence|].
  inversion Hg; subst. now apply join_nonempty.
Qed.

Lemma join_app (sep : string) (gs1 gs2 : list string) :
  gs1 <> [] -> gs2 <> [] ->
  join sep (gs1 ++ gs2)%list = join sep gs1 ++ sep ++ join sep gs2.
Proof.
  intros H1 H2. induction gs1 as [|g gs1 IH]; [congruence|].
  destruct gs1 as [|g' gs1].
  - cbn [app]. destruct gs2 as [|h gs2]; [congruence|]. reflexivity.
  - change (join sep ((g :: g' :: gs1) ++ gs2)%list)
      with (g ++ sep ++ join sep ((g' :: gs1) ++ gs2)%list).
    rewrite IH by discriminate.
    change (join sep (g :: g' :: gs1)) with (g ++ sep ++ join sep (g' :: gs1)).
    now rewrite !sapp_assoc.
Qed.

Lemma build_fts_query_unfold (ts : list string) (con : Connection) :
  build_fts_query ts con
  = (join " OR " (fst (fold_left (build_step con) ts ([], []))),
     snd (fold_left (build_step con) ts ([], []))).
Proof.
  unfold build_fts_query.
  destruct (fold_left _ _ _) as [gs log]. cbn [fst snd]. now destruct gs.
Qed.

Lemma build_fts_query_blank_iff (ts : list string) (con : Connection) :
  fst (build_fts_query ts con) = ""
  <-> forall t, In t ts -> strip t = "".
Proof.
  rewrite build_fts_query_unfold. cbn [fst].
  destruct (build_loop_facts con ts) as (Hg & _ & Hnil). cbn zeta in *.
  rewrite <- Hnil. split.
  - intros E. destruct (fst (fold_left _ _ _)) as [|g gs] eqn:F; [reflexivity|].
    assert (T : truthy (join " OR " (g :: gs)) = true)
      by (apply join_truthy; [assumption | discriminate]).
    rewrite E in T. discriminate.
  - now intros ->.
Qed.

End WithOrder.

(** X13.  [search] depends on each interest only through its stripped,
    lower-case form: two lists of interests that agree in that form give
    the same match expression, the same statements and the same rows. *)
Theorem search_same_interests `{Unicode} {U : UrlSpec.UnicodeLaws}
    `{SetOrder} `{Fts} (con : Connection)
    (interests interests' : list string) (top : Z) :
  Forall2 same_interest interests interests' ->
  build_fts_query interests con = build_fts_query interests' con
  /\ search con interests top = search con interests' top.
Proof.
  intros Hs. pose proof (build_fts_query_same con _ _ Hs) as E.
  split; [exact E|]. unfold search. now rewrite E.
Qed.

Lemma search_same_interests_witness :
  @build_fts_query UrlSpec.latin_unicode insertion_order
    ["  Python "; "IA"] CompareSpec.sample_con
  = @build_fts_query UrlSpec.latin_unicode insertion_order
      ["python"; " ia"] CompareSpec.sample_con
  /\ @search UrlSpec.latin_unicode insertion_order with_bm25
       CompareSpec.sample_con ["  Python "; "IA"] 20
     = @search UrlSpec.latin_unicode insertion_order with_bm25
         CompareSpec.sample_con ["python"; " ia"] 20.
Proof.
  apply (@search_same_interests UrlSpec.latin_unicode
           UtilFacts.latin_unicode_laws insertion_order with_bm25).
  repeat constructor.
Defined.

(** X14.  [search] runs the ranked query exactly when some interest is
    not blank, and then with the match expression of [build_fts_query],
    which is not empty. *)
Theorem search_queries_engine `{Unicode} `{SetOrder} `{Fts} (con : Connection)
    (interests : list string) (top : Z) :
  ((exists t, In t interests /\ strip t <> "") ->
   fst (build_fts_query interests con) <> ""
   /\ In (SelectRanked (fst (build_fts_query interests con)) top)
         (snd (search con interests top)))
  /\ (forall m k, In (SelectRanked m k) (snd (search con interests top)) ->
        exists t, In t interests /\ strip t <> "").
Proof.
  assert (Hlog : forall m k,
            ~ In (SelectRanked m k) (snd (build_fts_query interests con))).
  { intros m k Hin. rewrite build_fts_query_unfold in Hin. cbn [snd] in Hin.
    destruct (build_loop_facts con interests) as (_ & Hl & _). cbn zeta in Hl.
    rewrite Forall_forall in Hl. specialize (Hl _ Hin). discriminate. }
  split.
  - intros (t & Hin & Ht).
    assert (Hm : fst (build_fts_query interests con) <> "").
    { intros E. rewrite build_fts_query_blank_iff in E. auto. }
    split; [exact Hm|]. unfold search.
    destruct (build_fts_query interests con) as [m log]. cbn [fst] in *.
    apply truthy_true in Hm. rewrite Hm. cbn [negb].
    destruct (select_ranked con m top) as [rows|[]]; cbn [snd];
      apply in_or_app; right; now left.
  - intros m k Hin.
    destruct (fst (build_fts_query interests con)) as [|c m0] eqn:M.
    + exfalso. pose proof (Hlog m k) as Hno. unfold search in Hin.
      destruct (build_fts_query interests con) as [m1 log]. cbn [fst snd] in *.
      subst m1. cbn [truthy negb snd] in Hin. contradiction.
    + assert (Hne : fst (build_fts_query interests con) <> "")
        by (rewrite M; discriminate).
      rewrite build_fts_query_blank_iff in Hne.
      clear - Hne. induction interests as [|t ts IH].
      * exfalso. apply Hne. intros t [].
      * destruct (string_dec (strip t) "") as [E|E].
        -- destruct IH as (t' & Hin' & Ht').
           { intros Hb. apply Hne. intros t' [<-|Ht']; auto. }
           exists t'. split; [now right | assumption].
        -- exists t. split; [now left | assumption].
Qed.

Lemma search_queries_engine_witness :
  fst (@build_fts_query UrlSpec.latin_unicode insertion_order
         ["  "; "python"] CompareSpec.sample_con)
  <> ""
  /\ In (SelectRanked
           (fst (@build_fts_query UrlSpec.latin_unicode insertion_order
                   ["  "; "python"] CompareSpec.sample_con)) 5)
        (snd (@search UrlSpec.latin_unicode insertion_order no_bm25
                CompareSpec.sample_con ["  "; "python"] 5)).
Proof.
  apply (proj1 (@search_queries_engine UrlSpec.latin_unicode insertion_order
                  no_bm25 CompareSpec.sample_con ["  "; "python"] 5)).
  exists "python". split; [right; left; reflexivity | discriminate].
Defined.

(** X15.  The match expression of two lists of terms put one after the
    other is the two match expressions joined by [OR], or the one that
    is not empty; the statements executed are those of the first list
    followed by those of the second. *)
Theorem build_fts_query_app `{Unicode} `{SetOrder} (ts1 ts2 : list string)
    (con : Connection) :
  let m1 := fst (build_fts_query ts1 con) in
  let m2 := fst (build_fts_query ts2 con) in
  fst (build_fts_query (ts1 ++ ts2)%list con)
  = (if truthy m1 then if truthy m2 then m1 ++ " OR " ++ m2 else m1 else m2)
  /\ snd (build_fts_query (ts1 ++ ts2)%list con)
     = (snd (build_fts_query ts1 con) ++ snd (build_fts_query ts2 con))%list.
Proof.
  cbn zeta. rewrite !build_fts_query_unfold. cbn [fst snd].
  rewrite fold_left_app.
  destruct (fold_left (build_step con) ts1 ([], [])) as [gs1 log1] eqn:F1.
  rewrite build_loop_app. cbn [fst snd].
  split; [|reflexivity].
  destruct (build_loop_facts con ts1) as (Hg1 & _ & _).
  destruct (build_loop_facts con ts2) as (Hg2 & _ & _).
  cbn zeta in Hg1, Hg2. rewrite F1 in Hg1. cbn [fst] in Hg1.
  set (gs2 := fst (fold_left (build_step con) ts2 ([], []))) in *.
  destruct gs1 as [|g1 gs1]; [reflexivity|].
  rewrite (join_truthy _ Hg1) by discriminate.
  destruct gs2 as [|g2 gs2].
  - now rewrite app_nil_r.
  - rewrite (join_truthy _ Hg2) by discriminate.
    apply join_app; discriminate.
Qed.

(** X27.  The match expression [build_fts_query] returns is the groups
    of the terms that are not blank, in their order, joined by [OR].
    The group of a term holds the term in lower case and each synonym
    the lookup finds for it, stripped and in lower case, once each and
    in some order, a part with a space in double quotes, inside one pair
    of parentheses.  A blank term adds no group, and a list of blank
    terms gives the empty expression. *)
Theorem build_fts_query_groups `{Unicode} `{SetOrder} {L : SetOrderLaws}
    (ts : list string) (con : Connection) :
  (exists gs,
     Forall2 (is_group con) (map strip (filter not_blank ts)) gs
     /\ fst (build_fts_query ts con) = join " OR " gs)
  /\ fst (build_fts_query ts con)
     = fst (build_fts_query (filter not_blank ts) con)
  /\ ((forall t, In t ts -> strip t = "") ->
      fst (build_fts_query ts con) = "").
Proof.
  assert (Hfilter : forall l acc,
    fold_left (build_step con) (filter not_blank l) acc
    = fold_left (build_step con) l acc).
  { induction l as [|t l IH]; intros acc; [reflexivity|].
    cbn [filter fold_left]. unfold not_blank at 1.
    destruct (truthy (strip t)) eqn:T.
    - cbn [fold_left]. apply IH.
    - rewrite IH. f_equal. unfold build_step. destruct acc as [gs log].
      now rewrite T. }
  split; [|split].
  - unfold build_fts_query.
    destruct (build_loop_groups con ts [] []) as (gs & log & E & F).
    exists gs. rewrite E. cbn [app fst]. split; [exact F | now destruct gs].
  - unfold build_fts_query. now rewrite Hfilter.
  - intros Hb. now rewrite (build_all_blank con ts Hb).
Qed.

Lemma build_fts_query_groups_witness :
  (exists g,
     @is_group UrlSpec.latin_unicode CompareSpec.sample_con "IA" g
     /\ fst (@build_fts_query UrlSpec.latin_unicode reverse_order
               [" IA "; "  "; ""] CompareSpec.sample_con) = g)
  /\ fst (@build_fts_query UrlSpec.latin_unicode reverse_order
            [" IA "; "  "; ""] CompareSpec.sample_con)
     = "(" ++ dquote ++ "inteligencia artificial" ++ dquote ++ " OR ia)".
Proof.
  split; [|reflexivity].
  destruct (@build_fts_query_groups UrlSpec.latin_unicode reverse_order
              reverse_order_laws [" IA "; "  "; ""] CompareSpec.sample_con)
    as ((gs & F & E) & _).
  change (map strip (filter not_blank [" IA "; "  "; ""])) with ["IA"] in F.
  inversion F as [|t g l gs' Hg Hrest]; subst.
  inversion Hrest; subst.
  exists g. split; [exact Hg | exact E].
Defined.

(** The example of the specification: the term [ia] with the synonym
    [inteligencia artificial] gives one of the two orders of the group. *)
Lemma build_fts_query_example `{SetOrder} {L : SetOrderLaws} :
  fst (@build_fts_query UrlSpec.latin_unicode _ ["ia"] CompareSpec.sample_con)
  = "(ia OR " ++ dquote ++ "inteligencia artificial" ++ dquote ++ ")"
  \/ fst (@build_fts_query UrlSpec.latin_unicode _ ["ia"]
            CompareSpec.sample_con)
     = "(" ++ dquote ++ "inteligencia artificial" ++ dquote ++ " OR ia)".
Proof.
  pose proof (iter_order_perm ["inteligencia artificial"]) as P1.
  apply Permutation_sym, Permutation_length_1_inv in P1.
  pose proof (iter_order_perm ["ia"; "inteligencia artificial"]) as P2.
  apply Permutation_sym, Permutation_length_2_inv in P2.
  unfold build_fts_query. cbn [fold_left]. unfold build_step.
  change (strip "ia") with "ia". cbn [truthy negb].
  change (@get_synonyms UrlSpec.latin_unicode CompareSpec.sample_con "ia")
    with (["inteligencia artificial"], [SelectTermId "ia"; SelectSynonyms 1]).
  unfold parts_of. rewrite P1.
  change (set_union string_dec
            (set_add string_dec (@str_lower UrlSpec.latin_unicode "ia")
                     (empty_set string))
            (fold_left (fun acc s =>
                          set_add string_dec
                                  (@str_lower UrlSpec.latin_unicode s) acc)
                       ["inteligencia artificial"] (empty_set string)))
    with ["ia"; "inteligencia artificial"].
  unfold group_of. destruct P2 as [-> | ->]; [left | right]; reflexivity.
Qed.

End MoreSearchFacts.

(* ================================================================= *)
(** * Part XI: more about [crawler.py] *)
(* ================================================================= *)

Module MoreCrawlerFacts.
Import Py PyFacts Db Crawler CompareSpec CrawlerSpec CrawlerFacts MoreSpec.

(** *** Upsert *)

Lemma existsb_url_in (cs : list Course) (u : string) (c : Course) :
  existsb (fun c0 => String.eqb (url c0) u) cs = false ->
  In c cs -> String.eqb (url c) u = false.
Proof.
  intros E Hc. apply existsb_url_false in E. apply String.eqb_neq.
  intros Eu. apply E. rewrite <- Eu. now apply in_map.
Qed.

Lemma insert_idem (cs : list Course) (u : string) (f : CourseFields) :
  insert_on_conflict_update (insert_on_conflict_update cs u f) u f
  = insert_on_conflict_update cs u f.
Proof.
  destruct (existsb (fun c => String.eqb (url c) u) cs) eqn:E.
  - pose proof (insert_keeps_urls cs u f E) as Hurls.
    assert (E' : existsb (fun c => String.eqb (url c) u)
                   (insert_on_conflict_update cs u f) = true).
    { destruct (existsb _ (insert_on_conflict_update cs u f)) eqn:E';
        [reflexivity|].
      apply existsb_url_false in E'. rewrite Hurls in E'.
      apply existsb_url_false in E'. congruence. }
    unfold insert_on_conflict_update at 1. rewrite E'.
    unfold insert_on_conflict_update. rewrite E, map_map.
    apply map_ext. intros c.
    destruct (String.eqb (url c) u) eqn:Hc; cbn [url course_id];
      now rewrite Hc.
  - unfold insert_on_conflict_update at 2. rewrite E.
    unfold insert_on_conflict_update.
    rewrite existsb_app, E. cbn [existsb url orb].
    rewrite String.eqb_refl. cbn [orb]. rewrite map_app. f_equal.
    + rewrite <- (map_id cs) at 2. apply map_ext_in. intros c Hc.
      now rewrite (existsb_url_in cs u c E Hc).
    + cbn [map url course_id]. now rewrite String.eqb_refl.
Qed.

(** X16.  Upserting the same row a second time changes nothing. *)
Theorem upsert_course_idempotent (con : Connection) (row : Row) :
  upsert_course (upsert_course con row) row = upsert_course con row.
Proof.
  unfold upsert_course, with_courses. cbn [courses terms synonyms].
  now rewrite insert_idem.
Qed.

Lemma insert_other (cs : list Course) (u v : string) (f : CourseFields) :
  v <> u -> rows_at v (insert_on_conflict_update cs u f) = rows_at v cs.
Proof.
  intros Hv. unfold insert_on_conflict_update, rows_at.
  destruct (existsb (fun c => String.eqb (url c) u) cs).
  - induction cs as [|c cs IH]; [reflexivity|]. cbn [map filter].
    destruct (String.eqb_spec (url c) u) as [Eu|Eu]; cbn [url].
    + destruct (String.eqb_spec (url c) v) as [Ev|Ev]; [congruence|].
      exact IH.
    + now rewrite IH.
  - rewrite filter_app. cbn [filter url].
    destruct (String.eqb_spec u v) as [Ev|Ev]; [congruence|].
    now rewrite app_nil_r.
Qed.

(** X17.  [upsert_course] leaves the rows stored under every other url,
    and the tables of terms and synonyms, as they are. *)
Theorem upsert_course_frame (con : Connection) (row : Row) (v : string) :
  v <> row_url row ->
  rows_at v (courses (upsert_course con row)) = rows_at v (courses con)
  /\ terms (upsert_course con row) = terms con
  /\ synonyms (upsert_course con row) = synonyms con.
Proof.
  intros Hv. unfold upsert_course, with_courses. cbn [courses terms synonyms].
  split; [now apply insert_other | split; reflexivity].
Qed.

Lemma upsert_course_frame_witness :
  rows_at "https://e.example/cursos/ia"
    (courses (upsert_course sample_con
                (mkRow "https://e.example/cursos/python"
                       (sample_fields "Python II" "segunda version"))))
  = rows_at "https://e.example/cursos/ia" (courses sample_con).
Proof.
  refine (proj1 (upsert_course_frame sample_con
            (mkRow "https://e.example/cursos/python"
                   (sample_fields "Python II" "segunda version"))
            "https://e.example/cursos/ia" _)).
  discriminate.
Defined.

Lemma next_course_id_fresh (cs : list Course) :
  ~ In (next_course_id cs) (map course_id cs).
Proof.
  unfold next_course_id. intros Hin.
  assert (Hle : Forall (fun k => k <= list_max (map course_id cs))
                       (map course_id cs))
    by now apply list_max_le.
  rewrite Forall_forall in Hle. specialize (Hle _ Hin). lia.
Qed.

Lemma insert_ids (cs : list Course) (u : string) (f : CourseFields) :
  map course_id (insert_on_conflict_update cs u f) = map course_id cs
  \/ map course_id (insert_on_conflict_update cs u f)
     = (map course_id cs ++ [next_course_id cs])%list.
Proof.
  unfold insert_on_conflict_update.
  destruct (existsb (fun c => String.eqb (url c) u) cs).
  - left. rewrite map_map. apply map_ext. intros c.
    now destruct (String.eqb (url c) u).
  - right. now rewrite map_app.
Qed.

(** X18.  [upsert_course] keeps the [course_id]s distinct, and every row
    stored before is still stored under the same [course_id] and url. *)
Theorem upsert_course_keeps_ids (con : Connection) (row : Row) :
  (NoDup (map course_id (courses con)) ->
   NoDup (map course_id (courses (upsert_course con row))))
  /\ forall c, In c (courses con) ->
       exists c', In c' (courses (upsert_course con row))
                  /\ course_id c' = course_id c /\ url c' = url c.
Proof.
  unfold upsert_course, with_courses. cbn [courses]. split.
  - intros Hnd.
    destruct (insert_ids (courses con) (row_url row) (row_fields row))
      as [-> | ->]; [assumption|].
    apply NoDup_app; [assumption | repeat constructor; auto | ].
    intros x Hx [<-|[]]. now apply next_course_id_fresh in Hx.
  - intros c Hc. unfold insert_on_conflict_update.
    destruct (existsb _ (courses con)).
    + exists (if String.eqb (url c) (row_url row)
              then mkCourse (course_id c) (url c) (row_fields row) else c).
      split; [|now destruct (String.eqb (url c) (row_url row))].
      apply in_map_iff. now exists c.
    + exists c. split; [|split; reflexivity]. apply in_or_app. now left.
Qed.

Lemma upsert_course_keeps_ids_witness :
  NoDup (map course_id
           (courses (upsert_course sample_con
                       (mkRow "https://e.example/cursos/quimica"
                              (sample_fields "Quimica" "Curso de quimica"))))).
Proof.
  apply (proj1 (upsert_course_keeps_ids sample_con
                  (mkRow "https://e.example/cursos/quimica"
                         (sample_fields "Quimica" "Curso de quimica")))).
  repeat constructor; cbn; intuition discriminate.
Defined.

(** *** The detail loop, step by step *)

Lemma insert_urls (cs : list Course) (u : string) (f : CourseFields) :
  map url (insert_on_conflict_update cs u f) = map url cs
  \/ map url (insert_on_conflict_update cs u f) = (map url cs ++ [u])%list.
Proof.
  destruct (existsb (fun c => String.eqb (url c) u) cs) eqn:E.
  - left. now apply insert_keeps_urls.
  - right. unfold insert_on_conflict_update. now rewrite E, map_app.
Qed.

Lemma insert_sorted_in (x y : string) (l : list string) :
  In x (insert_sorted y l) <-> x = y \/ In x l.
Proof.
  induction l as [|z l IH]; cbn [insert_sorted In]; [intuition auto|].
  destruct (String.leb y z); cbn [In]; [intuition auto|].
  rewrite IH. intuition auto.
Qed.

Lemma sorted_in (x : string) (l : list string) : In x (sorted l) <-> In x l.
Proof.
  unfold sorted. induction l as [|y l IH]; cbn [fold_right In]; [tauto|].
  rewrite insert_sorted_in, IH. intuition auto.
Qed.

Lemma insert_sorted_length (y : string) (l : list string) :
  List.length (insert_sorted y l) = S (List.length l).
Proof.
  induction l as [|z l IH]; cbn [insert_sorted List.length]; [reflexivity|].
  destruct (String.leb y z); cbn [List.length]; now rewrite ?IH.
Qed.

Lemma sorted_length (l : list string) :
  List.length (sorted l) = List.length l.
Proof.
  unfold sorted. induction l as [|y l IH]; cbn [fold_right List.length];
    [reflexivity|].
  now rewrite insert_sorted_length, IH.
Qed.

Lemma unsaved_app (out : list event) (e : event) :
  unsaved (out ++ [e])
  = unsaved out + (if is_skipped e || is_failed e then 1 else 0).
Proof.
  unfold unsaved. rewrite filter_app, length_app. cbn [filter].
  now destruct (is_skipped e || is_failed e).
Qed.

Section Visits.
Context `{Dom} {W : Type} `{Browser W}.

(** The three ways a turn of the detail loop can end. *)
Lemma visit_link_cases (args : Args) (total : nat) (con : Connection) (w : W)
    (visited : nat) (out : list event) (link : string) :
  exists con' w' v' out',
    visit_link args total (con, w, visited, out) link = (con', w', v', out')
    /\ ((con' = con /\ v' = visited
         /\ (out' = (out ++ [Failed link])%list
             \/ out' = (out ++ [Skipped link])%list))
        \/ (exists f, stamped (save_html args) f
                      /\ con' = upsert_course con (mkRow link f)
                      /\ v' = S visited
                      /\ (out' = out
                          \/ out' = (out ++ [Saved (S visited) total])%list))).
Proof.
  unfold visit_link.
  destruct (driver_get link w) as [w1 loaded].
  destruct loaded; cbn [negb];
    [|do 4 eexists; split; [reflexivity|]; left; auto].
  destruct (sleep (delay args) w1) as [w2 [e|]];
    [do 4 eexists; split; [reflexivity|]; left; auto|].
  destruct (page_source w2) as [html|e];
    [|do 4 eexists; split; [reflexivity|]; left; auto].
  destruct (title_missing _) eqn:T.
  - do 4 eexists. split; [reflexivity|]. left. auto.
  - do 4 eexists. split; [reflexivity|]. right.
    eexists. split; [|split; [reflexivity|split; [reflexivity|]]].
    + unfold stamped. cbn [modality location last_crawled_at raw_html].
      split; [reflexivity|]. split; [reflexivity|].
      split; [now eexists|]. now intros ->.
    + destruct (Nat.eqb _ 0); auto.
Qed.

(** A property of the store that every upsert of the loop keeps holds
    after the loop. *)
Lemma visit_loop_con (I : Connection -> Prop) (args : Args) (total : nat)
    (links : list string) :
  (forall con link f, In link links -> stamped (save_html args) f ->
                      I con -> I (upsert_course con (mkRow link f))) ->
  forall st, I (state_con st) ->
             I (state_con (fold_left (visit_link args total) links st)).
Proof.
  induction links as [|l links IH]; intros HU st Hst; cbn [fold_left];
    [exact Hst|].
  apply IH; [intros con link f Hin; apply HU; now right|].
  destruct st as [[[con w] visited] out].
  destruct (visit_link_cases args total con w visited out l)
    as (con' & w' & v' & out' & E & [(-> & _)|(f & Hf & -> & _)]);
    rewrite E; unfold state_con in *; cbn [fst] in *; [exact Hst|].
  apply HU; [now left | assumption | assumption].
Qed.

Lemma visit_loop_counts (args : Args) (total : nat) (links : list string)
    (con : Connection) (w : W) (visited : nat) (out : list event) :
  exists con' w' v' out',
    fold_left (visit_link args total) links (con, w, visited, out)
    = (con', w', v', out')
    /\ v' + unsaved out' = visited + unsaved out + List.length links.
Proof.
  revert con w visited out.
  induction links as [|l links IH]; intros con w visited out; cbn [fold_left].
  - do 4 eexists. split; [reflexivity|]. cbn [List.length]. lia.
  - destruct (visit_link_cases args total con w visited out l)
      as (con1 & w1 & v1 & out1 & E & Hc).
    rewrite E.
    destruct (IH con1 w1 v1 out1) as (con' & w' & v' & out' & F & Hn).
    exists con', w', v', out'. split; [exact F|].
    cbn [List.length].
    destruct Hc as [(_ & -> & [-> | ->])|(f & _ & _ & -> & [-> | ->])];
      rewrite ?unsaved_app in Hn; cbn [is_skipped is_failed orb] in Hn; lia.
Qed.

End Visits.

Section Runs.
Context `{HostChecks} `{UrlJoin} `{Unicode} `{Dom} {W : Type} `{Browser W}.

(** The walker prints lines of pages only, whether it returns or
    raises. *)
Lemma page_loop_lines (start_url : string) (d : spec_float) (idxs : list nat)
    (w : W) (links : set string) (last : string) (out : list event) :
  forallb is_page_line out = true ->
  match page_loop start_url d idxs (w, links, last, out) with
  | inl (_, _, _, out') => forallb is_page_line out' = true
  | inr (_, out', _) => forallb is_page_line out' = true
  end.
Proof.
  revert w links last out.
  induction idxs as [|i idxs IH]; intros w links last out Hout;
    cbn [page_loop]; [exact Hout|].
  rewrite page_step_shape.
  destruct (page_links start_url _ links) as [[links1 n]|e]; [|exact Hout].
  apply IH. rewrite forallb_app, Hout. reflexivity.
Qed.

Lemma iterate_lines (w : W) (start_url : string) (n : Z) (d : spec_float) :
  forallb is_page_line
          (snd (fst (iterate_pages_and_collect_links w start_url n d)))
  = true.
Proof.
  unfold iterate_pages_and_collect_links.
  destruct (driver_get start_url w) as [wa loaded].
  destruct loaded; cbn [negb]; [|reflexivity].
  destruct (wait_results_loaded wa) as [wb present].
  destruct present; cbn [negb]; [|reflexivity].
  destruct (sleep d wb) as [wc [e|]]; [reflexivity|].
  destruct (_first_card_title_text wc) as [t|e]; [|reflexivity].
  pose proof (page_loop_lines start_url d (seq 1 (Z.to_nat n)) wc
                (empty_set string) t [] eq_refl) as L.
  destruct (page_loop _ _ _ _) as [[[[w4 links4] last4] out4]|[[w4 out4] e]];
    exact L.
Qed.

Lemma page_lines_unsaved (out : list event) :
  forallb is_page_line out = true -> unsaved out = 0.
Proof.
  unfold unsaved. induction out as [|e out IH]; [reflexivity|].
  cbn [forallb filter]. intros Ho. apply andb_true_iff in Ho as [He Ho].
  destruct e; try discriminate He. cbn [is_skipped is_failed orb]. auto.
Qed.

Lemma iterate_unsaved (w w1 : W) (start_url : string) (n : Z) (d : spec_float)
    (r : result (set string)) (out : list event) :
  iterate_pages_and_collect_links w start_url n d = (w1, out, r) ->
  unsaved out = 0.
Proof.
  intros E. apply page_lines_unsaved.
  pose proof (iterate_lines w start_url n d) as L.
  now rewrite E in L.
Qed.

(** A run whose catalog walk returned is the detail loop over the
    sorted links. *)
Lemma crawl_ok (args : Args) (con : Connection) (w w1 : W)
    (links : set string) (out0 : list event) :
  iterate_pages_and_collect_links w (start args) (pages args) (delay args)
  = (w1, out0, Ok links) ->
  exists con1 w2 v out1,
    fold_left (visit_link args (List.length links)) (sorted links)
              (con, w1, 0, (out0 ++ [TotalLinks (List.length links)])%list)
    = (con1, w2, v, out1)
    /\ crawl args con w = mkOutcome con1 w2 (out1 ++ [Finished v])%list None.
Proof.
  intros E. unfold crawl. rewrite E.
  destruct (fold_left _ _ _) as [[[con1 w2] v] out1].
  now exists con1, w2, v, out1.
Qed.

(** A property of the store that every upsert keeps holds after a run. *)
Lemma crawl_con (I : Connection -> Prop) (args : Args) (con : Connection)
    (w : W) :
  (forall con0 link f, stamped (save_html args) f -> I con0 ->
                       I (upsert_course con0 (mkRow link f))) ->
  I con -> I (final_con (crawl args con w)).
Proof.
  intros HU Hcon.
  destruct (iterate_pages_and_collect_links w (start args) (pages args)
                                            (delay args))
    as [[w1 out0] [links|e]] eqn:E.
  - destruct (crawl_ok args con w w1 links out0 E)
      as (con1 & w2 & v & out1 & F & ->).
    cbn [final_con].
    pose proof (visit_loop_con I args (List.length links) (sorted links)
                  (fun con0 link f _ => HU con0 link f)
                  (con, w1, 0, (out0 ++ [TotalLinks (List.length links)])%list)
                  Hcon) as Hend.
    now rewrite F in Hend.
  - unfold crawl. rewrite E. exact Hcon.
Qed.

End Runs.


(** *** What a run does to the store *)

(** X19.  A run of [crawl] removes no url from the store, keeps the
    urls distinct if they were, and leaves the tables of terms and
    synonyms as they are. *)
Theorem crawl_keeps_urls `{HostChecks} `{UrlJoin} `{Unicode} `{Dom}
    {W : Type} `{Browser W} (args : Args) (con : Connection) (w : W) :
  incl (map url (courses con))
       (map url (courses (final_con (crawl args con w))))
  /\ (NoDup (map url (courses con)) ->
      NoDup (map url (courses (final_con (crawl args con w)))))
  /\ terms (final_con (crawl args con w)) = terms con
  /\ synonyms (final_con (crawl args con w)) = synonyms con.
Proof.
  apply (crawl_con
           (fun c => incl (map url (courses con)) (map url (courses c))
                     /\ (NoDup (map url (courses con)) ->
                         NoDup (map url (courses c)))
                     /\ terms c = terms con
                     /\ synonyms c = synonyms con)).
  - intros con0 link f _ (Hincl & Hnd & Ht & Hs).
    unfold upsert_course, with_courses. cbn [courses terms synonyms row_url
                                              row_fields].
    split; [|split; [|split; assumption]].
    + destruct (insert_urls (courses con0) link f) as [-> | ->];
        [assumption|].
      intros u Hu. apply in_or_app. left. now apply Hincl.
    + intros Hc. apply insert_nodup. now apply Hnd.
  - split; [apply incl_refl | split; [auto | split; reflexivity]].
Qed.

Lemma crawl_keeps_urls_witness :
  NoDup (map url
           (courses (final_con
              (@crawl strict_checks UrlSpec.keep_reference
                      UrlSpec.latin_unicode sample_dom string sample_browser
                      sample_args sample_con "about:blank")))).
Proof.
  apply (proj1 (proj2 (@crawl_keeps_urls strict_checks UrlSpec.keep_reference
                         UrlSpec.latin_unicode sample_dom string
                         sample_browser sample_args sample_con
                         "about:blank"))).
  repeat constructor; cbn; intuition discriminate.
Defined.

(** X20.  Every row in the store after a run of [crawl] was there before
    the run, or has no modality, no location, a time stamp that ends in
    [Z] and, unless [save_html] is set, no page source. *)
Theorem crawl_rows_stamped `{HostChecks} `{UrlJoin} `{Unicode} `{Dom}
    {W : Type} `{Browser W} (args : Args) (con : Connection) (w : W)
    (c : Course) :
  In c (courses (final_con (crawl args con w))) ->
  In c (courses con) \/ stamped (save_html args) (fields c).
Proof.
  revert c.
  apply (crawl_con
           (fun c0 => forall c, In c (courses c0) ->
                        In c (courses con)
                        \/ stamped (save_html args) (fields c))).
  - intros con0 link f Hf Hold c.
    unfold upsert_course, with_courses. cbn [courses row_url row_fields].
    intros Hc. apply insert_in in Hc as [Hc | ->]; auto.
  - auto.
Qed.

Lemma crawl_rows_stamped_witness :
  In (mkCourse 3 "https://e.example/a"
        (mkCourseFields (Some "Curso A") None None None None None None None
           None None None (Some "2024-01-01T00:00:00Z")))
     (courses sample_con)
  \/ stamped false
       (mkCourseFields (Some "Curso A") None None None None None None None
          None None None (Some "2024-01-01T00:00:00Z")).
Proof.
  apply (@crawl_rows_stamped strict_checks UrlSpec.keep_reference
           UrlSpec.latin_unicode sample_dom string sample_browser sample_args
           sample_con "about:blank"
           (mkCourse 3 "https://e.example/a"
              (mkCourseFields (Some "Curso A") None None None None None None
                 None None None None (Some "2024-01-01T00:00:00Z")))).
  vm_compute. auto.
Defined.

(** X21.  Every url in the store after a run of [crawl] was there before
    the run or is one of the links the catalog walk collected. *)
Theorem crawl_stores_collected `{HostChecks} `{UrlJoin} `{Unicode} `{Dom}
    {W : Type} `{Browser W} (args : Args) (con : Connection) (w w1 : W)
    (links : set string) (out0 : list event) (u : string) :
  iterate_pages_and_collect_links w (start args) (pages args) (delay args)
  = (w1, out0, Ok links) ->
  In u (map url (courses (final_con (crawl args con w)))) ->
  In u (map url (courses con)) \/ In u links.
Proof.
  intros E.
  destruct (crawl_ok args con w w1 links out0 E)
    as (con1 & w2 & v & out1 & F & ->).
  cbn [final_con].
  assert (L : forall u0,
            In u0 (map url (courses
                     (state_con
                        (fold_left (visit_link args (List.length links))
                           (sorted links)
                           (con, w1, 0,
                            (out0 ++ [TotalLinks (List.length links)])%list))))) ->
            In u0 (map url (courses con)) \/ In u0 (sorted links)).
  { apply (visit_loop_con
             (fun c0 => forall u0, In u0 (map url (courses c0)) ->
                          In u0 (map url (courses con))
                          \/ In u0 (sorted links))).
    - intros con0 link f Hin _ Hold u0.
      unfold upsert_course, with_courses.
      cbn [courses row_url row_fields].
      destruct (insert_urls (courses con0) link f) as [-> | ->];
        [apply Hold|].
      intros Hu. apply in_app_or in Hu as [Hu|[<-|[]]]; auto.
    - unfold state_con. cbn [fst]. auto. }
  rewrite F in L. unfold state_con in L. cbn [fst] in L.
  intros Hu. destruct (L u Hu) as [Hold|Hs]; [now left|].
  right. now apply sorted_in.
Qed.

Lemma crawl_stores_collected_witness :
  In "https://e.example/b" (map url (courses sample_con))
  \/ In "https://e.example/b"
        ["https://e.example/a"; "https://e.example/b"; "https://e.example/c"].
Proof.
  apply (@crawl_stores_collected strict_checks UrlSpec.keep_reference
           UrlSpec.latin_unicode sample_dom string sample_browser sample_args
           sample_con "about:blank" "catalog/p2"
           ["https://e.example/a"; "https://e.example/b"; "https://e.example/c"]
           [PageLine 1 2 2; PageLine 2 2 3; PageLine 3 2 3]
           "https://e.example/b").
  - reflexivity.
  - vm_compute. auto.
Defined.

(** *** What a run prints *)

(** X22.  In a run of [crawl] whose catalog walk returned, each
    collected link is accounted for once: the count of saved courses on
    the last line and the number of skip and error lines add up to the
    number of links. *)
Theorem crawl_accounts_for_links `{HostChecks} `{UrlJoin} `{Unicode} `{Dom}
    {W : Type} `{Browser W} (args : Args) (con : Connection) (w w1 : W)
    (links : set string) (out0 : list event) :
  iterate_pages_and_collect_links w (start args) (pages args) (delay args)
  = (w1, out0, Ok links) ->
  saved_count (output (crawl args con w)) + unsaved (output (crawl args con w))
  = List.length links.
Proof.
  intros E.
  destruct (crawl_ok args con w w1 links out0 E)
    as (con1 & w2 & v & out1 & F & ->).
  cbn [output].
  destruct (visit_loop_counts args (List.length links) (sorted links) con w1 0
              (out0 ++ [TotalLinks (List.length links)])%list)
    as (con' & w' & v' & out' & F' & Hn).
  rewrite F in F'. injection F' as <- <- <- <-.
  rewrite unsaved_app in Hn. cbn [is_skipped is_failed orb] in Hn.
  rewrite (iterate_unsaved _ _ _ _ _ _ _ E), sorted_length in Hn.
  unfold saved_count. rewrite last_last, unsaved_app.
  cbn [is_skipped is_failed orb]. lia.
Qed.

Lemma crawl_accounts_for_links_witness :
  saved_count
    (output (@crawl strict_checks UrlSpec.keep_reference UrlSpec.latin_unicode
                    sample_dom string sample_browser sample_args sample_con
                    "about:blank"))
  + unsaved
      (output (@crawl strict_checks UrlSpec.keep_reference
                      UrlSpec.latin_unicode sample_dom string sample_browser
                      sample_args sample_con "about:blank"))
  = 3.
Proof.
  apply (@crawl_accounts_for_links strict_checks UrlSpec.keep_reference
           UrlSpec.latin_unicode sample_dom string sample_browser sample_args
           sample_con "about:blank" "catalog/p2"
           ["https://e.example/a"; "https://e.example/b"; "https://e.example/c"]
           [PageLine 1 2 2; PageLine 2 2 3; PageLine 3 2 3]).
  reflexivity.
Defined.



(** *** The cards of one page *)

Lemma set_add_length_le (x : string) (l : set string) :
  List.length (set_add string_dec x l) <= S (List.length l).
Proof.
  induction l as [|y l IH]; cbn [set_add List.length]; [lia|].
  destruct (string_dec x y); cbn [List.length]; lia.
Qed.

Section Cards.
Context `{HostChecks} `{UrlJoin} `{Unicode}.

Lemma collect_card_counts (start_url : string) (card : Card)
    (links links1 : set string) (n n1 : nat) :
  collect_card start_url (links, n) card = Ok (links1, n1) ->
  List.length links1 + n <= List.length links + n1 /\ n1 <= S n.
Proof.
  unfold collect_card.
  destruct (is_course_card card); cbn [negb].
  - destruct (extract_course_link_from_card card start_url) as [[link|]|e];
      cbn [bind]; [| |discriminate].
    + destruct (truthy link); intros E; injection E as <- <-; [|lia].
      pose proof (set_add_length_le link links). lia.
    + intros E; injection E as <- <-. lia.
  - intros E; injection E as <- <-. lia.
Qed.

Lemma collect_cards_counts (start_url : string) (cards : list Card)
    (links links1 : set string) (n n1 : nat) :
  collect_cards start_url cards (links, n) = Ok (links1, n1) ->
  List.length links1 + n <= List.length links + n1
  /\ n1 <= n + List.length cards.
Proof.
  revert links n. induction cards as [|card cards IH]; intros links n;
    cbn [collect_cards List.length].
  - intros E; injection E as <- <-. lia.
  - destruct (collect_card start_url (links, n) card) as [[l2 n2]|e] eqn:C;
      cbn [bind]; [|discriminate].
    intros E. pose proof (collect_card_counts _ _ _ _ _ _ C).
    pose proof (IH _ _ E). lia.
Qed.

End Cards.

(** X24.  The links in the set after the cards of a page were read are
    those that were in it before and the non-empty links of the cards
    whose type holds the word [curso], the case of letters apart. *)
Theorem page_links_are_course_links `{HostChecks} `{UrlJoin} `{Unicode}
    `{Dom} {W : Type} `{Browser W} (start_url : string) (w : W)
    (html : string) (links links1 : set string) (n : nat) (l : string) :
  page_source w = Ok html ->
  page_links start_url w links = Ok (links1, n) ->
  (In l links1
   <-> In l links \/ card_gives start_url (select_cards html) l).
Proof.
  intros Hsrc. unfold page_links, get_cards_on_page. rewrite Hsrc.
  cbn [bind]. generalize 0 as k. revert links.
  induction (select_cards html) as [|card cards IH]; intros links k;
    cbn [collect_cards].
  - intros E; injection E as <- _. split; [auto|].
    intros [Hl|(card & [] & _)]. exact Hl.
  - destruct (collect_card start_url (links, k) card) as [[l2 k2]|e] eqn:C;
      cbn [bind]; [|discriminate].
    intros E. rewrite (IH _ _ E), (collect_card_spec _ _ _ _ _ _ C l).
    unfold card_gives. split.
    + intros [[Hl | (Hc & He & Hne)] | (c & Hin & Hc)]; auto.
      * right. exists card. cbn [In]. auto.
      * right. exists c. cbn [In]. tauto.
    + intros [Hl | (c & [E0 | Hin] & Hc)]; auto.
      * subst c. auto.
      * right. exists c. auto.
Qed.

Lemma page_links_are_course_links_witness :
  In "https://e.example/b" ["https://e.example/a"; "https://e.example/b"]
  <-> In "https://e.example/b" []
      \/ @card_gives strict_checks UrlSpec.keep_reference
           UrlSpec.latin_unicode "catalog"
           (@select_cards sample_dom "catalog/p1") "https://e.example/b".
Proof.
  apply (@page_links_are_course_links strict_checks UrlSpec.keep_reference
           UrlSpec.latin_unicode sample_dom string sample_browser
           "catalog" "catalog/p1" "catalog/p1" []
           ["https://e.example/a"; "https://e.example/b"] 2
           "https://e.example/b"); reflexivity.
Defined.

(** X25.  On the line printed for a page, the running total exceeds the
    total before the page by at most the count found on the page, and
    that count is at most the number of cards on the page. *)
Theorem page_line_counts `{HostChecks} `{UrlJoin} `{Unicode} `{Dom}
    {W : Type} `{Browser W} (start_url : string) (w : W) (html : string)
    (links links1 : set string) (n : nat) :
  page_source w = Ok html ->
  page_links start_url w links = Ok (links1, n) ->
  List.length links1 <= List.length links + n
  /\ n <= List.length (select_cards html).
Proof.
  intros Hsrc. unfold page_links, get_cards_on_page. rewrite Hsrc.
  cbn [bind]. intros E.
  pose proof (collect_cards_counts start_url _ _ _ _ _ E). lia.
Qed.

Lemma page_line_counts_witness :
  List.length ["https://e.example/a"; "https://e.example/b";
               "https://e.example/c"]
  <= List.length ["https://e.example/a"; "https://e.example/b"] + 2
  /\ 2 <= List.length (@select_cards sample_dom "catalog/p2").
Proof.
  apply (@page_line_counts strict_checks UrlSpec.keep_reference
           UrlSpec.latin_unicode sample_dom string sample_browser
           "catalog" "catalog/p2" "catalog/p2"
           ["https://e.example/a"; "https://e.example/b"]
           ["https://e.example/a"; "https://e.example/b";
            "https://e.example/c"] 2); reflexivity.
Defined.

End MoreCrawlerFacts.
